(** * Anchor matching, multi-box loss and mAP evaluation: a shallow embedding

    The development follows [hutil/detection/__init__.py] and
    [horch/detection/two/e2e.py].  Tensors are modelled as lists, box
    coordinates that go through [log]/[exp] as real numbers, IoU values,
    thresholds and losses as rationals, integer sizes and labels as [Z]. *)

From Stdlib Require Import String.
From Stdlib Require Import Reals Lra QArith ZArith List Lia Bool.
From Stdlib Require Import Permutation PeanoNat Sorted.
From Stdlib Require Lqa.
Import ListNotations.

(** ** Box coordinate encoding ([coords_to_target]) and decoding
       ([target_to_coords]) *)

Module Coords.
Local Open Scope R_scope.

(** A length-4 tensor [x, y, w, h]: the first two entries are sliced with
    [[..., :2]], the last two with [[..., 2:]].  The float32 entries are
    read as exact reals: rounding, the underflow of [exp] to 0 and its
    overflow to [inf] are outside this model, and what is proved of it is
    proved over exact real arithmetic. *)
Record vec4 : Type := Vec4 { v0 : R; v1 : R; v2 : R; v3 : R }.

(** [coords_to_target(gt_box, anchors)]: the same body in
    hutil/detection/__init__.py and horch/detection/two/e2e.py.
    [box_txty = (gt_box[:2] - anchors[..., :2]) / anchors[..., 2:]],
    [box_twth = (gt_box[2:] / anchors[..., 2:]).log_()]. *)
Definition coords_to_target (gt_box anchors : vec4) : vec4 :=
  Vec4 ((v0 gt_box - v0 anchors) / v2 anchors)
       ((v1 gt_box - v1 anchors) / v3 anchors)
       (ln (v2 gt_box / v2 anchors))
       (ln (v3 gt_box / v3 anchors)).

(** [target_to_coords(loc_t, anchors)] of e2e.py, one row:
    [loc_t[..., :2].mul_(anchors[:, 2:]).add_(anchors[:, :2])],
    [loc_t[..., 2:].exp_().mul_(anchors[:, 2:])]. *)
Definition target_to_coords (loc_t anchors : vec4) : vec4 :=
  Vec4 (v0 loc_t * v2 anchors + v0 anchors)
       (v1 loc_t * v3 anchors + v1 anchors)
       (exp (v2 loc_t) * v2 anchors)
       (exp (v3 loc_t) * v3 anchors).

Definition zeros4 : vec4 := Vec4 0 0 0 0.

Lemma center_roundtrip (g a s : R) : s <> 0 -> (g - a) / s * s + a = g.
Proof. intros Hs. field. exact Hs. Qed.

Lemma size_roundtrip (g s : R) : 0 < g -> 0 < s -> exp (ln (g / s)) * s = g.
Proof.
  intros Hg Hs.
  rewrite exp_ln.
  - field. lra.
  - apply Rdiv_lt_0_compat; assumption.
Qed.

(** C1: decoding the encoding of a ground-truth box against the same anchor
    gives the ground-truth box back, when the widths and heights of both are
    strictly positive (real arithmetic). *)
Theorem target_to_coords_coords_to_target (gt_box anchor : vec4) :
  0 < v2 gt_box -> 0 < v3 gt_box -> 0 < v2 anchor -> 0 < v3 anchor ->
  target_to_coords (coords_to_target gt_box anchor) anchor = gt_box.
Proof.
  intros Hgw Hgh Haw Hah.
  destruct gt_box as [gx gy gw gh], anchor as [ax ay aw ah]; simpl in *.
  unfold target_to_coords, coords_to_target; simpl.
  rewrite !center_roundtrip by lra.
  rewrite !size_roundtrip by assumption.
  reflexivity.
Qed.

Lemma target_to_coords_coords_to_target_witness :
  target_to_coords (coords_to_target (Vec4 1 2 3 4) (Vec4 5 6 7 8)) (Vec4 5 6 7 8)
  = Vec4 1 2 3 4.
Proof.
  apply (target_to_coords_coords_to_target (Vec4 1 2 3 4) (Vec4 5 6 7 8));
    simpl; lra.
Defined.

End Coords.

(** ** Python-level conventions shared by the models *)

Module Py.
Local Open Scope nat_scope.

(** The exceptions the modelled code can raise. *)
Inductive exn : Type :=
| ValueError
| IndexError
| AttributeError
| RuntimeError
| OverflowError
| KeyError
| TypeError.

(** A computation either raises ([inl]) or returns ([inr]). *)
Definition result (A : Type) : Type := (exn + A)%type.

Definition ret {A : Type} (a : A) : result A := inr a.
Definition raise {A : Type} (e : exn) : result A := inl e.

Definition bind {A B : Type} (m : result A) (k : A -> result B) : result B :=
  match m with
  | inl e => inl e
  | inr a => k a
  end.

(** [l[i] = v] on a list that is long enough; the models only write at
    indices they have read from a list of the same length. *)
Fixpoint set_nth {A : Type} (i : nat) (v : A) (l : list A) {struct l}
  : list A :=
  match l, i with
  | [], _ => []
  | _ :: t, O => v :: t
  | x :: t, S i' => x :: set_nth i' v t
  end.

(** [enumerate(l)] *)
Definition enumerate {A : Type} (l : list A) : list (nat * A) :=
  combine (seq 0 (length l)) l.

(** [t[mask]] for a boolean mask of the same length. *)
Fixpoint select_mask {A : Type} (mask : list bool) (l : list A)
  {struct mask} : list A :=
  match mask, l with
  | b :: mask', x :: l' =>
      if b then x :: select_mask mask' l' else select_mask mask' l'
  | _, _ => []
  end.

Lemma set_nth_length {A : Type} (i : nat) (v : A) (l : list A) :
  length (set_nth i v l) = length l.
Proof.
  revert i. induction l as [|x t IH]; intros i; [reflexivity|].
  destruct i; simpl; [reflexivity | now rewrite IH].
Qed.

Lemma set_nth_app {A : Type} (pre : list A) (v x : A) (t : list A) :
  set_nth (length pre) v (pre ++ x :: t) = pre ++ v :: t.
Proof. induction pre as [|y pre IH]; simpl; [reflexivity | now rewrite IH]. Qed.

Lemma nth_set_nth_eq {A : Type} (i : nat) (v d : A) (l : list A) :
  i < length l -> nth i (set_nth i v l) d = v.
Proof.
  revert i. induction l as [|x t IH]; intros i Hi; [simpl in Hi; lia|].
  destruct i; simpl; [reflexivity | apply IH; simpl in Hi; lia].
Qed.

Lemma nth_error_set_nth_eq {A : Type} (i : nat) (v : A) (l : list A) :
  i < length l -> nth_error (set_nth i v l) i = Some v.
Proof.
  revert i. induction l as [|x t IH]; intros i Hi; [simpl in Hi; lia|].
  destruct i; simpl; [reflexivity | apply IH; simpl in Hi; lia].
Qed.

Lemma nth_error_set_nth_neq {A : Type} (i k : nat) (v : A) (l : list A) :
  i <> k -> nth_error (set_nth i v l) k = nth_error l k.
Proof.
  revert i k. induction l as [|x t IH]; intros i k Hik; [reflexivity|].
  destruct i, k; simpl; try reflexivity; try lia.
  apply IH. lia.
Qed.

Lemma nth_set_nth_neq {A : Type} (i k : nat) (v d : A) (l : list A) :
  i <> k -> nth k (set_nth i v l) d = nth k l d.
Proof.
  revert i k. induction l as [|x t IH]; intros i k Hik; [reflexivity|].
  destruct i, k; simpl; try reflexivity; try lia.
  apply IH. lia.
Qed.

Lemma nth_error_nth_default {A : Type} (l : list A) (i : nat) (x d : A) :
  nth_error l i = Some x -> nth i l d = x.
Proof.
  revert i. induction l as [|y t IH]; intros i H; destruct i; simpl in *;
    try discriminate; [now injection H | now apply IH].
Qed.

Lemma combine_map_same {A B C : Type} (f : A -> B) (g : A -> C)
  (l : list A) :
  combine (map f l) (map g l) = map (fun a => (f a, g a)) l.
Proof. induction l as [|x t IH]; simpl; [reflexivity | now rewrite IH]. Qed.

End Py.

Notation "x <- m ;; k" := (Py.bind m (fun x => k))
  (at level 61, m at next level, right associativity).

(** ** Loops that collect results *)

Module PyLoop.

(** A loop that appends [f x] for each [x], stopping at the first
    exception. *)
Fixpoint mapM {A B : Type} (f : A -> Py.result B) (l : list A)
  : Py.result (list B) :=
  match l with
  | [] => Py.ret []
  | x :: t => y <- f x ;; ys <- mapM f t ;; Py.ret (y :: ys)
  end.

Lemma mapM_ext_in {A B : Type} (f g : A -> Py.result B) (l : list A) :
  (forall x, In x l -> f x = g x) -> mapM f l = mapM g l.
Proof.
  induction l as [|x t IH]; intros H; simpl; [reflexivity|].
  rewrite (H x) by now left.
  rewrite IH; [reflexivity|].
  intros y Hy. apply H. now right.
Qed.

Lemma mapM_total {A B : Type} (f : A -> Py.result B) (l : list A) :
  (forall x, In x l -> exists y, f x = Py.ret y) ->
  exists ys, mapM f l = Py.ret ys.
Proof.
  induction l as [|x t IH]; intros H; simpl.
  - eexists. reflexivity.
  - destruct (H x) as [y Hy]; [now left|].
    destruct IH as [ys Hys]; [intros z Hz; apply H; now right|].
    rewrite Hy, Hys. simpl. eexists. reflexivity.
Qed.

Lemma mapM_Forall2 {A B : Type} (f : A -> Py.result B) (l : list A) :
  forall ys, mapM f l = Py.ret ys -> Forall2 (fun x y => f x = Py.ret y) l ys.
Proof.
  induction l as [|x t IH]; intros ys H; simpl in H.
  - injection H as <-. constructor.
  - destruct (f x) as [e | y] eqn:Ex; [discriminate|]. simpl in H.
    destruct (mapM f t) as [e | ys'] eqn:Et; [discriminate|]. simpl in H.
    injection H as <-. constructor; [exact Ex | apply IH; reflexivity].
Qed.

End PyLoop.

(** ** [get_locations] *)

Module Locations.
Local Open Scope Z_scope.

(** [strides[-1]] *)
Definition last_item (strides : list Z) : Py.result Z :=
  match rev strides with
  | [] => Py.raise Py.IndexError
  | s :: _ => Py.ret s
  end.

(** [for _ in range(num_levels)]: the state is [lx], [ly] and [locations];
    a negative [num_levels] gives an empty range. *)
Fixpoint locations_loop (n : nat) (lx ly : Z) (locations : list (Z * Z))
  : list (Z * Z) :=
  match n with
  | O => locations
  | S n' =>
      let lx := (lx - 1) / 2 + 1 in
      let ly := (ly - 1) / 2 + 1 in
      locations_loop n' lx ly (locations ++ [(lx, ly)])
  end.

(** [l[-k:]] for [k >= 0]: [-0] is [0], so [k = 0] keeps the whole list;
    a [k] beyond the length also keeps the whole list. *)
Definition slice_last {A : Type} (k : nat) (l : list A) : list A :=
  match k with
  | O => l
  | _ => skipn (length l - k) l
  end.

Section WithLog2.

(** [int(np.log2(s))] is numpy's and Python's code, not the repository's,
    and it is not the exact integer logarithm: [np.log2] converts the
    integer to float64 and returns a float64 (so [2^49 - 1] gives 49),
    gives [-inf] at 0 and [nan] below, on which [int] raises
    [OverflowError] and [ValueError], and raises [TypeError] on a Python
    integer outside the 64-bit range.  The composition is a parameter, and
    the theorems say what they use of it. *)
Variable int_log2 : Z -> Py.result Z.

Definition get_locations (size : Z * Z) (strides : list Z)
  : Py.result (list (Z * Z)) :=
  s <- last_item strides ;;
  num_levels <- int_log2 s ;;
  let '(lx, ly) := size in
  let locations := [(lx, ly)] in
  Py.ret (slice_last (length strides)
            (locations_loop (Z.to_nat num_levels) lx ly locations)).

End WithLog2.

(** A stand-in for [int(np.log2(s))] in the closed examples, which use
    strides below [2^32]: there float64 holds [s] exactly and the
    logarithm is the exact one, rounded down.  It also carries the three
    exceptions.  From [2^53] on numpy can return one more than this
    stand-in, which is why no theorem is stated about it. *)
Definition example_int_log2 (s : Z) : Py.result Z :=
  if (s <? - 2 ^ 63) || (2 ^ 64 <=? s) then Py.raise Py.TypeError
  else if s <? 0 then Py.raise Py.ValueError
  else if s =? 0 then Py.raise Py.OverflowError
  else Py.ret (Z.log2 s).

(** The step of the claim: [l -> (l - 1) // 2 + 1]. *)
Definition halve (l : Z) : Z := (l - 1) / 2 + 1.

(** The sequence of the claim: start at [(lx, ly)] and apply [halve] to
    both components [n] times, keeping every intermediate pair. *)
Definition halvings (lx ly : Z) (n : nat) : list (Z * Z) :=
  map (fun k => (Nat.iter k halve lx, Nat.iter k halve ly)) (seq 0 (S n)).

(** The last [k] elements of a list. *)
Definition lastn {A : Type} (k : nat) (l : list A) : list A :=
  skipn (length l - k) l.

Lemma iter_halve_shift (k : nat) (l : Z) :
  Nat.iter k halve (halve l) = halve (Nat.iter k halve l).
Proof.
  induction k as [|k IH]; simpl; [reflexivity | now rewrite IH].
Qed.

Lemma locations_loop_app (n : nat) :
  forall lx ly acc,
    locations_loop n lx ly acc
    = acc ++ map (fun k => (Nat.iter k halve lx, Nat.iter k halve ly))
               (seq 1 n).
Proof.
  induction n as [|n IH]; intros lx ly acc; simpl.
  - now rewrite app_nil_r.
  - fold (halve lx). fold (halve ly).
    rewrite IH, <- app_assoc. simpl. f_equal. f_equal.
    rewrite <- (seq_shift n 1), map_map.
    apply map_ext. intros k. simpl.
    now rewrite !iter_halve_shift.
Qed.

Lemma locations_loop_halvings (n : nat) (lx ly : Z) :
  locations_loop n lx ly [(lx, ly)] = halvings lx ly n.
Proof.
  rewrite locations_loop_app. unfold halvings. reflexivity.
Qed.

Lemma halvings_length (lx ly : Z) (n : nat) :
  length (halvings lx ly n) = S n.
Proof. unfold halvings. now rewrite length_map, length_seq. Qed.

Lemma last_item_nonempty (strides : list Z) :
  strides <> [] -> exists s, last_item strides = Py.ret s.
Proof.
  intros Hne. unfold last_item.
  destruct (rev strides) as [|s r] eqn:E.
  - apply (f_equal (@rev Z)) in E. rewrite rev_involutive in E.
    simpl in E. contradiction.
  - now exists s.
Qed.

(** C8: for a non-empty [strides] whose last stride [s] has
    [int(np.log2(s)) = n], whatever number numpy computes there, with
    [n + 1 >= len(strides)], [get_locations] returns [len(strides)] pairs,
    the last [len(strides)] elements of the sequence of length [n + 1]
    that starts at the size and applies [l -> (l - 1) // 2 + 1] to each
    component.  (The positivity of the size is not needed.) *)
Theorem get_locations_last_halvings (int_log2 : Z -> Py.result Z)
  (lx ly : Z) (strides : list Z) (s n : Z) :
  strides <> [] ->
  last_item strides = Py.ret s ->
  int_log2 s = Py.ret n ->
  Z.of_nat (length strides) <= n + 1 ->
  exists locs,
    get_locations int_log2 (lx, ly) strides = Py.ret locs /\
    length locs = length strides /\
    locs = lastn (length strides) (halvings lx ly (Z.to_nat n)).
Proof.
  intros Hne Hlast Hlog Hlen.
  assert (Hpos : (0 < length strides)%nat).
  { destruct strides; [contradiction | simpl; lia]. }
  unfold get_locations. rewrite Hlast. simpl. rewrite Hlog. simpl.
  rewrite locations_loop_halvings.
  eexists. split; [reflexivity|].
  assert (Hk : (length strides <= S (Z.to_nat n))%nat) by lia.
  unfold slice_last, lastn.
  destruct (length strides) as [|k] eqn:Ek; [lia|].
  split; [|reflexivity].
  rewrite length_skipn, halvings_length. lia.
Qed.

Lemma get_locations_last_halvings_witness :
  exists locs,
    get_locations example_int_log2 (300, 200) [8; 16; 32] = Py.ret locs /\
    length locs = 3%nat /\
    locs = lastn 3 (halvings 300 200 5).
Proof.
  apply (get_locations_last_halvings example_int_log2 300 200 [8; 16; 32]
           32 5).
  - discriminate.
  - reflexivity.
  - reflexivity.
  - simpl. lia.
Defined.

(** Where numpy's logarithm rounds up: when [int(np.log2(2^49 - 1))] is
    49, the size is halved 49 times. *)
Example get_locations_rounded_log (int_log2 : Z -> Py.result Z) :
  int_log2 (2 ^ 49 - 1) = Py.ret 49 ->
  get_locations int_log2 (2 ^ 49, 1) [2 ^ 49 - 1] = Py.ret [(1, 1)].
Proof.
  intros H. unfold get_locations.
  change (last_item [2 ^ 49 - 1]) with (Py.ret (2 ^ 49 - 1)).
  cbn [Py.bind Py.ret]. rewrite H. cbn [Py.bind Py.ret].
  vm_compute. reflexivity.
Qed.

Example get_locations_300 :
  get_locations example_int_log2 (300, 300) [8; 16; 32; 64; 128]
  = Py.ret [(38, 38); (19, 19); (10, 10); (5, 5); (3, 3)].
Proof. reflexivity. Qed.

End Locations.

(** ** Rational helpers *)

Module QAux.
Local Open Scope Q_scope.

(** [a < b] on floats, as a boolean. *)
Definition Qltb (a b : Q) : bool := negb (Qle_bool b a).

(** [a != b] *)
Definition Qneqb (a b : Q) : bool := negb (Qeq_bool a b).

(** Python's two-argument [max(a, b)]: the first argument is kept unless
    the second is strictly greater. *)
Definition pymax (a b : Q) : Q := if Qltb a b then b else a.

Definition Qsum (l : list Q) : Q := fold_left Qplus l 0.

Lemma Qltb_lt (a b : Q) : Qltb a b = true <-> a < b.
Proof.
  unfold Qltb. rewrite negb_true_iff.
  split; intros H.
  - apply Qnot_le_lt. intros Hle. apply Qle_bool_iff in Hle. congruence.
  - destruct (Qle_bool b a) eqn:E; [|reflexivity].
    apply Qle_bool_iff in E. exfalso. exact (Qlt_not_le _ _ H E).
Qed.

Lemma Qltb_ge (a b : Q) : Qltb a b = false <-> b <= a.
Proof.
  unfold Qltb. rewrite negb_false_iff. apply Qle_bool_iff.
Qed.

Lemma pymax_cases (a b : Q) :
  (pymax a b = a /\ b <= a) \/ (pymax a b = b /\ a < b).
Proof.
  unfold pymax. destruct (Qltb a b) eqn:E.
  - right. split; [reflexivity | now apply Qltb_lt].
  - left. split; [reflexivity | now apply Qltb_ge].
Qed.

Lemma pymax_ge_l (a b : Q) : a <= pymax a b.
Proof.
  destruct (pymax_cases a b) as [[-> _] | [-> H]];
    [apply Qle_refl | now apply Qlt_le_weak].
Qed.

Lemma pymax_ge_r (a b : Q) : b <= pymax a b.
Proof.
  destruct (pymax_cases a b) as [[-> H] | [-> _]];
    [exact H | apply Qle_refl].
Qed.

End QAux.

(** ** [average_precision] *)

Module AveragePrecision.
Import QAux.
Local Open Scope Q_scope.

(** Loop body [mpre[i - 1] = max(mpre[i - 1], mpre[i])]. *)
Definition envelope_step (mpre : list Q) (i : nat) : list Q :=
  Py.set_nth (i - 1) (pymax (nth (i - 1) mpre 0) (nth i mpre 0)) mpre.

(** [range(n, 0, -1)]: [n, n-1, ..., 1]. *)
Definition range_down (n : nat) : list nat := rev (seq 1 n).

(** [for i in range(len(mpre) - 1, 0, -1): ...] *)
Definition envelope_loop (mpre : list Q) : list Q :=
  fold_left envelope_step (range_down (length mpre - 1)) mpre.

(** The loop that collects [ii]: [i + 1] is appended when
    [mrec[1:][i] != mrec[:-1][i]]. *)
Definition change_points (mrec : list Q) : list nat :=
  fold_left
    (fun ii i =>
       if Qneqb (nth i (tl mrec) 0) (nth i (removelast mrec) 0)
       then ii ++ [S i] else ii)
    (seq 0 (length mrec - 1)) [].

(** [ap += np.sum((mrec[i] - mrec[i - 1]) * mpre[i])]; [mpre[i]] is out of
    range when [precision] is shorter than [recall] and [i] is large. *)
Definition area_step (mrec mpre : list Q) (ap : Py.result Q) (i : nat)
  : Py.result Q :=
  a <- ap ;;
  match nth_error mpre i with
  | None => Py.raise Py.IndexError
  | Some p => Py.ret (a + (nth i mrec 0 - nth (i - 1) mrec 0) * p)
  end.

Definition average_precision (recall precision : list Q)
  : Py.result (Q * list Q * list Q * list nat) :=
  let mrec := 0 :: recall ++ [1] in
  let mpre := 0 :: precision ++ [0] in
  let mpre := envelope_loop mpre in
  let ii := change_points mrec in
  ap <- fold_left (area_step mrec mpre) ii (Py.ret 0) ;;
  Py.ret (ap, removelast mpre, removelast mrec, ii).

(** The padded precision list [[0, *precision, 0]] of the claim. *)
Definition padded (precision : list Q) : list Q := 0 :: precision ++ [0].

(** [m] is the maximum of the list [l]: it occurs in [l] and bounds it. *)
Definition is_max_of (m : Q) (l : list Q) : Prop :=
  In m l /\ forall x, In x l -> x <= m.

(** Running maximum from the right, by recursion on the list. *)
Fixpoint suffix_max (l : list Q) : list Q :=
  match l with
  | [] => []
  | x :: t =>
      match suffix_max t with
      | [] => [x]
      | m :: r => pymax x m :: m :: r
      end
  end.

Lemma envelope_step_shift (x : Q) (l : list Q) (i : nat) :
  (1 <= i)%nat ->
  envelope_step (x :: l) (S i) = x :: envelope_step l i.
Proof.
  intros Hi. unfold envelope_step.
  destruct i as [|i]; [lia|].
  simpl. rewrite Nat.sub_0_r. reflexivity.
Qed.

Lemma envelope_fold_shift (idxs : list nat) :
  forall (x : Q) (l : list Q),
    Forall (fun i => (1 <= i)%nat) idxs ->
    fold_left envelope_step (map S idxs) (x :: l)
    = x :: fold_left envelope_step idxs l.
Proof.
  induction idxs as [|i idxs IH]; intros x l Hall; simpl.
  - reflexivity.
  - inversion Hall as [|? ? Hi Hrest]; subst.
    rewrite envelope_step_shift by exact Hi.
    apply IH. exact Hrest.
Qed.

Lemma range_down_ge1 (n : nat) : Forall (fun i => (1 <= i)%nat) (range_down n).
Proof.
  apply Forall_forall. intros i Hi.
  unfold range_down in Hi. apply in_rev in Hi. apply in_seq in Hi. lia.
Qed.

Lemma range_down_succ (n : nat) :
  range_down (S n) = map S (range_down n) ++ [1%nat].
Proof.
  unfold range_down. simpl.
  rewrite <- (seq_shift n 1), map_rev. reflexivity.
Qed.

Lemma envelope_loop_cons (x y : Q) (l : list Q) :
  envelope_loop (x :: y :: l)
  = pymax x (nth 0 (envelope_loop (y :: l)) 0) :: envelope_loop (y :: l).
Proof.
  unfold envelope_loop at 1.
  replace (length (x :: y :: l) - 1)%nat with (S (length (y :: l) - 1))
    by (simpl; lia).
  rewrite range_down_succ, fold_left_app.
  rewrite envelope_fold_shift by apply range_down_ge1.
  fold (envelope_loop (y :: l)).
  simpl. unfold envelope_step. simpl. reflexivity.
Qed.

Lemma suffix_max_length (l : list Q) : length (suffix_max l) = length l.
Proof.
  induction l as [|x t IH]; simpl; [reflexivity|].
  destruct (suffix_max t) as [|m r]; simpl in *; lia.
Qed.

Lemma envelope_loop_suffix_max (l : list Q) : envelope_loop l = suffix_max l.
Proof.
  induction l as [|x t IH]; [reflexivity|].
  destruct t as [|y t]; [reflexivity|].
  rewrite envelope_loop_cons, IH.
  change (suffix_max (x :: y :: t))
    with (match suffix_max (y :: t) with
          | [] => [x]
          | m :: r => pymax x m :: m :: r
          end).
  pose proof (suffix_max_length (y :: t)) as Hlen.
  destruct (suffix_max (y :: t)) as [|m r]; [discriminate|].
  reflexivity.
Qed.

Lemma suffix_max_head (x : Q) (t : list Q) :
  is_max_of (nth 0 (suffix_max (x :: t)) 0) (x :: t).
Proof.
  revert x. induction t as [|y t IH]; intros x.
  - simpl. split; [now left|].
    intros z [<- | []]. apply Qle_refl.
  - specialize (IH y).
    change (suffix_max (x :: y :: t))
      with (match suffix_max (y :: t) with
            | [] => [x]
            | m :: r => pymax x m :: m :: r
            end).
    destruct (suffix_max (y :: t)) as [|m r] eqn:E.
    + pose proof (suffix_max_length (y :: t)) as Hlen.
      rewrite E in Hlen. discriminate.
    + simpl in IH. destruct IH as [Hin Hub]. simpl nth.
      split.
      * destruct (pymax_cases x m) as [[-> _] | [-> _]];
          [now left | right; exact Hin].
      * intros z [<- | Hz].
        -- apply pymax_ge_l.
        -- eapply Qle_trans; [apply Hub, Hz | apply pymax_ge_r].
Qed.

Lemma suffix_max_tail (x : Q) (t : list Q) :
  tl (suffix_max (x :: t)) = suffix_max t.
Proof.
  simpl. destruct (suffix_max t) as [|m r] eqn:E; [|reflexivity].
  pose proof (suffix_max_length t) as Hlen. rewrite E in Hlen.
  destruct t; [reflexivity | discriminate].
Qed.

Lemma nth_tl (l : list Q) (i : nat) : nth (S i) l 0 = nth i (tl l) 0.
Proof. destruct l; [destruct i|]; reflexivity. Qed.

Lemma suffix_max_nth (l : list Q) :
  forall i, (i < length l)%nat ->
    is_max_of (nth i (suffix_max l) 0) (skipn i l).
Proof.
  induction l as [|x t IH]; intros i Hi; [simpl in Hi; lia|].
  destruct i as [|i].
  - apply suffix_max_head.
  - rewrite nth_tl, suffix_max_tail. simpl skipn.
    apply IH. simpl in Hi. lia.
Qed.

Lemma nth_removelast (l : list Q) :
  forall i, (S i < length l)%nat -> nth i (removelast l) 0 = nth i l 0.
Proof.
  induction l as [|x t IH]; intros i Hi; [simpl in Hi; lia|].
  destruct t as [|y t]; [simpl in Hi; lia|].
  change (removelast (x :: y :: t)) with (x :: removelast (y :: t)).
  destruct i as [|i]; [reflexivity|].
  simpl nth. apply IH. simpl in *. lia.
Qed.

Lemma removelast_length (l : list Q) :
  length (removelast l) = (length l - 1)%nat.
Proof.
  induction l as [|x t IH]; [reflexivity|].
  destruct t as [|y t]; [reflexivity|].
  change (removelast (x :: y :: t)) with (x :: removelast (y :: t)).
  simpl length in *. lia.
Qed.

Lemma in_skipn_succ (l : list Q) (i : nat) (x : Q) :
  In x (skipn (S i) l) -> In x (skipn i l).
Proof.
  revert i. induction l as [|y t IH]; intros i H.
  - destruct i; exact H.
  - destruct i as [|i].
    + simpl in *. now right.
    + simpl in *. apply IH. exact H.
Qed.

(** The envelope that [average_precision] returns is the running maximum of
    the padded list without its last element. *)
Lemma average_precision_envelope (recall precision : list Q)
  (ap : Q) (env mrec : list Q) (ii : list nat) :
  average_precision recall precision = Py.ret (ap, env, mrec, ii) ->
  env = removelast (suffix_max (padded precision)).
Proof.
  unfold average_precision. intros H.
  destruct (fold_left _ _ _) as [e | a]; [discriminate|].
  simpl in H. injection H as _ <- _ _.
  rewrite envelope_loop_suffix_max. reflexivity.
Qed.

Lemma area_fold_raise (mrec mpre : list Q) (ii : list nat) (e : Py.exn) :
  fold_left (area_step mrec mpre) ii (Py.raise e) = Py.raise e.
Proof. induction ii as [|i ii IH]; simpl; [reflexivity | exact IH]. Qed.

Lemma area_fold_total (mrec mpre : list Q) (ii : list nat) :
  Forall (fun i => (i < length mpre)%nat) ii ->
  forall a, exists a', fold_left (area_step mrec mpre) ii (Py.ret a) = Py.ret a'.
Proof.
  induction ii as [|i ii IH]; intros Hall a; simpl.
  - now exists a.
  - inversion Hall as [|? ? Hi Hrest]; subst.
    destruct (nth_error mpre i) as [p|] eqn:E.
    + apply IH. exact Hrest.
    + apply nth_error_None in E. lia.
Qed.

Lemma change_points_bound (mrec : list Q) :
  Forall (fun i => (i < length mrec)%nat) (change_points mrec).
Proof.
  unfold change_points.
  assert (Hgen : forall idxs acc,
             Forall (fun i => (S i < length mrec)%nat) idxs ->
             Forall (fun i => (i < length mrec)%nat) acc ->
             Forall (fun i => (i < length mrec)%nat)
               (fold_left
                  (fun ii i =>
                     if Qneqb (nth i (tl mrec) 0) (nth i (removelast mrec) 0)
                     then ii ++ [S i] else ii) idxs acc)).
  { induction idxs as [|i idxs IH]; intros acc Hidx Hacc; simpl.
    - exact Hacc.
    - inversion Hidx as [|? ? Hi Hrest]; subst.
      apply IH; [exact Hrest|].
      destruct (Qneqb _ _); [|exact Hacc].
      apply Forall_app. split; [exact Hacc|].
      constructor; [exact Hi | constructor]. }
  apply Hgen; [|constructor].
  apply Forall_forall. intros i Hi. apply in_seq in Hi. lia.
Qed.

(** [average_precision] returns whenever [precision] is at least as long
    as [recall] (in [AP] they have the same length). *)
Lemma average_precision_total (recall precision : list Q) :
  (length recall <= length precision)%nat ->
  exists ap ii,
    average_precision recall precision
    = Py.ret (ap, removelast (suffix_max (padded precision)),
              removelast (0 :: recall ++ [1]), ii).
Proof.
  intros Hlen. unfold average_precision.
  destruct (area_fold_total (0 :: recall ++ [1])
              (envelope_loop (0 :: precision ++ [0]))
              (change_points (0 :: recall ++ [1]))) with (a := 0)
    as [a' Ha'].
  - eapply Forall_impl; [|apply change_points_bound].
    intros i Hi. rewrite envelope_loop_suffix_max, suffix_max_length.
    simpl in *. rewrite length_app in *. simpl in *. lia.
  - rewrite Ha'. simpl. exists a', (change_points (0 :: recall ++ [1])).
    rewrite envelope_loop_suffix_max. reflexivity.
Qed.

(** C10: whenever [average_precision] returns, the [i]-th element of its
    second component is the maximum of the elements of [[0, *precision, 0]]
    from position [i] on, and every element is at least the next one; it
    does return when [precision] is not shorter than [recall]. *)
Theorem average_precision_envelope_nonincreasing (recall precision : list Q) :
  ((length recall <= length precision)%nat ->
   exists res, average_precision recall precision = Py.ret res) /\
  forall ap env mrec ii,
    average_precision recall precision = Py.ret (ap, env, mrec, ii) ->
    length env = S (length precision) /\
    (forall i, (i < length env)%nat ->
       is_max_of (nth i env 0) (skipn i (padded precision))) /\
    (forall i, (S i < length env)%nat -> nth (S i) env 0 <= nth i env 0).
Proof.
  split.
  - intros Hlen.
    destruct (average_precision_total recall precision Hlen) as (ap & ii & H).
    eexists. exact H.
  - intros ap env mrec ii H.
    apply average_precision_envelope in H. subst env.
    assert (Hpad : length (padded precision) = S (S (length precision))).
    { unfold padded. simpl. rewrite length_app. simpl. lia. }
    assert (Hlen : length (removelast (suffix_max (padded precision)))
                   = S (length precision)).
    { rewrite removelast_length, suffix_max_length, Hpad. lia. }
    assert (Hmax : forall i,
               (i < length (removelast (suffix_max (padded precision))))%nat ->
               is_max_of (nth i (removelast (suffix_max (padded precision))) 0)
                 (skipn i (padded precision))).
    { intros i Hi. rewrite Hlen in Hi.
      rewrite nth_removelast by (rewrite suffix_max_length, Hpad; lia).
      apply suffix_max_nth. rewrite Hpad. lia. }
    split; [exact Hlen|]. split; [exact Hmax|].
    intros i Hi.
    destruct (Hmax (S i) Hi) as [Hin _].
    destruct (Hmax i) as [_ Hub]; [lia|].
    apply Hub. apply in_skipn_succ. exact Hin.
Qed.

Example average_precision_run :
  exists ap,
    average_precision [1 # 2; 1 # 2; 1] [1; 1 # 2; 2 # 3]
    = Py.ret (ap, [1; 1; 2 # 3; 2 # 3], [0; 1 # 2; 1 # 2; 1], [1%nat; 3%nat])
    /\ ap == 5 # 6.
Proof. eexists. split; [vm_compute; reflexivity | reflexivity]. Qed.

End AveragePrecision.

(** ** Python's [max(iterable, key=...)] and the tensor [max] along a
       dimension *)

Module PyMax.
Import QAux.
Local Open Scope Q_scope.

Section MaxKey.
Context {A : Type}.
Variable key : A -> Q.

(** One comparison of [max]: the running best is replaced only by a
    strictly greater key, so the first maximal item wins. *)
Definition max_step (best c : A) : A :=
  if Qltb (key best) (key c) then c else best.

(** [max(l, key=key)], [ValueError] on an empty sequence. *)
Definition py_max_key (l : list A) : Py.result A :=
  match l with
  | [] => Py.raise Py.ValueError
  | x :: t => Py.ret (fold_left max_step t x)
  end.

Lemma max_fold_split (t : list A) :
  forall (pre mid : list A) (best : A),
    (forall x, In x pre -> key x < key best) ->
    (forall x, In x mid -> key x <= key best) ->
    exists l1 l2,
      pre ++ best :: mid ++ t = l1 ++ fold_left max_step t best :: l2 /\
      (forall x, In x l1 -> key x < key (fold_left max_step t best)) /\
      (forall x, In x l2 -> key x <= key (fold_left max_step t best)).
Proof.
  induction t as [|c t IH]; intros pre mid best Hpre Hmid.
  - exists pre, mid. rewrite app_nil_r. simpl. auto.
  - simpl. unfold max_step at 2 4 6.
    destruct (Qltb (key best) (key c)) eqn:E.
    + apply Qltb_lt in E.
      destruct (IH (pre ++ best :: mid) [] c) as (l1 & l2 & Heq & H1 & H2).
      * intros x Hx. apply in_app_or in Hx.
        destruct Hx as [Hx | [<- | Hx]].
        -- eapply Qlt_trans; [apply Hpre, Hx | exact E].
        -- exact E.
        -- eapply Qle_lt_trans; [apply Hmid, Hx | exact E].
      * intros x [].
      * exists l1, l2. split; [|auto].
        rewrite <- Heq. rewrite <- !app_assoc. simpl. reflexivity.
    + apply Qltb_ge in E.
      destruct (IH pre (mid ++ [c]) best) as (l1 & l2 & Heq & H1 & H2).
      * exact Hpre.
      * intros x Hx. apply in_app_or in Hx.
        destruct Hx as [Hx | [<- | []]]; [apply Hmid, Hx | exact E].
      * exists l1, l2. split; [|auto].
        rewrite <- Heq. rewrite <- !app_assoc. simpl. reflexivity.
Qed.

(** The item [max] returns is the first one with the greatest key. *)
Lemma py_max_key_first (l : list A) (r : A) :
  py_max_key l = Py.ret r ->
  exists l1 l2,
    l = l1 ++ r :: l2 /\
    (forall x, In x l1 -> key x < key r) /\
    (forall x, In x l2 -> key x <= key r).
Proof.
  destruct l as [|x t]; simpl; [discriminate|].
  intros H. injection H as <-.
  destruct (max_fold_split t [] [] x) as (l1 & l2 & Heq & H1 & H2).
  - intros y [].
  - intros y [].
  - exists l1, l2. auto.
Qed.

Lemma py_max_key_nonempty (l : list A) :
  l <> [] -> exists r, py_max_key l = Py.ret r.
Proof. destruct l as [|x t]; [contradiction | intros _; eexists; reflexivity]. Qed.

End MaxKey.

(** [max(enumerate(l), key=lambda x: x[1])] *)
Definition max_enumerate (l : list Q) : Py.result (nat * Q) :=
  py_max_key snd (Py.enumerate l).

(** A one-dimensional [t.max(dim=0)]: the maximum and the index of its
    first occurrence; on an empty tensor torch raises [IndexError] (the
    reduction dimension has size 0). *)
Definition tensor_max (l : list Q) : Py.result (Q * nat) :=
  match max_enumerate l with
  | inl _ => Py.raise Py.IndexError
  | inr (i, m) => Py.ret (m, i)
  end.

Lemma nth_error_enumerate {A : Type} (l : list A) :
  forall s k,
    nth_error (combine (seq s (length l)) l) k
    = option_map (pair (s + k)%nat) (nth_error l k).
Proof.
  induction l as [|a l IH]; intros s k.
  - destruct k; reflexivity.
  - destruct k as [|k]; simpl.
    + now rewrite Nat.add_0_r.
    + rewrite IH. now rewrite Nat.add_succ_r.
Qed.

(** [max(enumerate(l), key=lambda x: key(x[1]))] returns the first index
    whose item has the greatest key. *)
Lemma max_enumerate_key_spec {A : Type} (key : A -> Q) (l : list A)
  (j : nat) (a : A) :
  py_max_key (fun x => key (snd x)) (Py.enumerate l) = Py.ret (j, a) ->
  nth_error l j = Some a /\
  (forall k x, nth_error l k = Some x -> key x <= key a) /\
  (forall k x, (k < j)%nat -> nth_error l k = Some x -> key x < key a).
Proof.
  intros H.
  apply py_max_key_first in H. destruct H as (l1 & l2 & Heq & H1 & H2).
  unfold Py.enumerate in Heq.
  assert (Hat : forall k x, nth_error l k = Some x ->
                            nth_error (l1 ++ (j, a) :: l2) k = Some (k, x)).
  { intros k x Hx. rewrite <- Heq, nth_error_enumerate, Hx. reflexivity. }
  assert (Hj : j = length l1 /\ nth_error l j = Some a).
  { pose proof (nth_error_enumerate l 0 (length l1)) as Hn.
    rewrite Heq, nth_error_app2, Nat.sub_diag in Hn by lia.
    simpl in Hn.
    destruct (nth_error l (length l1)) as [x|] eqn:Ex; [|discriminate].
    simpl in Hn. injection Hn as -> ->. auto. }
  destruct Hj as [Hj Hnth].
  split; [exact Hnth|]. split.
  - intros k x Hx. pose proof (Hat k x Hx) as Hk.
    apply nth_error_In in Hk. apply in_app_or in Hk.
    destruct Hk as [Hk | [Hk | Hk]].
    + apply Qlt_le_weak. exact (H1 _ Hk).
    + injection Hk as _ <-. apply Qle_refl.
    + exact (H2 _ Hk).
  - intros k x Hk Hx. pose proof (Hat k x Hx) as Hk'.
    rewrite nth_error_app1 in Hk' by lia.
    apply nth_error_In in Hk'. exact (H1 _ Hk').
Qed.

(** [max_enumerate] returns the first index of the greatest value. *)
Lemma max_enumerate_spec (l : list Q) (j : nat) (m : Q) :
  max_enumerate l = Py.ret (j, m) ->
  nth_error l j = Some m /\
  (forall k x, nth_error l k = Some x -> x <= m) /\
  (forall k x, (k < j)%nat -> nth_error l k = Some x -> x < m).
Proof. exact (max_enumerate_key_spec (fun x => x) l j m). Qed.

Lemma max_enumerate_nonempty (l : list Q) :
  l <> [] -> exists j m, max_enumerate l = Py.ret (j, m).
Proof.
  intros Hne. unfold max_enumerate.
  destruct (py_max_key_nonempty snd (Py.enumerate l)) as [[j m] H].
  - destruct l; [contradiction | discriminate].
  - now exists j, m.
Qed.

Lemma max_enumerate_lt (l : list Q) (j : nat) (m : Q) :
  max_enumerate l = Py.ret (j, m) -> (j < length l)%nat.
Proof.
  intros H. apply max_enumerate_spec in H. destruct H as [H _].
  apply nth_error_Some. rewrite H. discriminate.
Qed.

Lemma tensor_max_spec (l : list Q) (m : Q) (i : nat) :
  tensor_max l = Py.ret (m, i) ->
  nth_error l i = Some m /\
  (forall k x, nth_error l k = Some x -> x <= m) /\
  (forall k x, (k < i)%nat -> nth_error l k = Some x -> x < m).
Proof.
  unfold tensor_max. intros H.
  destruct (max_enumerate l) as [e | [j v]] eqn:E; [discriminate|].
  injection H as -> ->. apply max_enumerate_spec. exact E.
Qed.

Lemma tensor_max_nonempty (l : list Q) :
  l <> [] -> exists mx, tensor_max l = Py.ret mx.
Proof.
  intros Hne. unfold tensor_max.
  destruct (max_enumerate_nonempty l Hne) as (j & m & E).
  rewrite E. eexists. reflexivity.
Qed.

End PyMax.

(** ** Tensor arguments and masked writes *)

Module Tensor.

(** An argument that is a tensor or a list of tensors, and
    [_ensure_multi_level]. *)
Inductive levels (A : Type) : Type :=
| Single (t : A)
| Multi (ts : list A).
Arguments Single {A} t.
Arguments Multi {A} ts.

Definition _ensure_multi_level {A : Type} (xs : levels A) : list A :=
  match xs with
  | Single t => [t]
  | Multi ts => ts
  end.

(** [t[mask] = values]: the selected positions take the values in
    order. *)
Fixpoint mask_assign {A : Type} (mask : list bool) (values l : list A)
  {struct l} : list A :=
  match l, mask with
  | x :: t, b :: mask' =>
      if b then
        match values with
        | v :: vs => v :: mask_assign mask' vs t
        | [] => x :: mask_assign mask' [] t
        end
      else x :: mask_assign mask' values t
  | _, _ => l
  end.

(** [t[mask] = v] for a scalar [v]. *)
Fixpoint mask_fill {A : Type} (mask : list bool) (v : A) (l : list A)
  {struct l} : list A :=
  match l, mask with
  | x :: t, b :: mask' => (if b then v else x) :: mask_fill mask' v t
  | _, _ => l
  end.

(** [a &= b] on masks of the same length. *)
Definition mask_and (a b : list bool) : list bool :=
  map (fun ab => andb (fst ab) (snd ab)) (combine a b).

Lemma mask_assign_length {A : Type} (l : list A) :
  forall mask values, length (mask_assign mask values l) = length l.
Proof.
  induction l as [|x t IH]; intros mask values; [reflexivity|].
  destruct mask as [|b mask]; [reflexivity|].
  simpl. destruct b; [destruct values|]; simpl; now rewrite IH.
Qed.

Lemma mask_fill_length {A : Type} (v : A) (l : list A) :
  forall mask, length (mask_fill mask v l) = length l.
Proof.
  induction l as [|x t IH]; intros mask; [reflexivity|].
  destruct mask as [|b mask]; [reflexivity|].
  simpl. now rewrite IH.
Qed.

End Tensor.

(** ** Boxes with rational coordinates *)

Module Geometry.
Import QAux.
Local Open Scope Q_scope.

(** A box tensor of four floats; what the four entries mean depends on the
    format ([LTWH], [XYWH] or [LTRB]) the caller uses. *)
Record qbox : Type := QBox { c0 : Q; c1 : Q; c2 : Q; c3 : Q }.

(** The same four numbers as reals, for [log] and [exp]. *)
Definition toR (b : qbox) : Coords.vec4 :=
  Coords.Vec4 (Q2R (c0 b)) (Q2R (c1 b)) (Q2R (c2 b)) (Q2R (c3 b)).

Definition qmin (a b : Q) : Q := if Qltb b a then b else a.

(** Modelled from the spec: the IoU functions ([hutil.detection.iou],
    [horch.detection.iou]) are not under src/.  This is the
    intersection-over-union of two [[left, top, right, bottom]] boxes; the
    theorems take the IoU function as a parameter and this definition only
    instantiates it in closed examples. *)
Definition iou_ltrb (a b : qbox) : Q :=
  let iw := pymax 0 (qmin (c2 a) (c2 b) - pymax (c0 a) (c0 b)) in
  let ih := pymax 0 (qmin (c3 a) (c3 b) - pymax (c1 a) (c1 b)) in
  let inter := iw * ih in
  let area_a := (c2 a - c0 a) * (c3 a - c1 a) in
  let area_b := (c2 b - c0 b) * (c3 b - c1 b) in
  Qred (inter / (area_a + area_b - inter)).

(** Modelled from the spec: the box format conversions ([transform_bbox],
    [BBox.convert]) are not under src/; [[left, top, width, height]] to
    [[center x, center y, width, height]] and either to
    [[left, top, right, bottom]]. *)
Definition ltwh_to_xywh (b : qbox) : qbox :=
  QBox (Qred (c0 b + c2 b / 2)) (Qred (c1 b + c3 b / 2)) (c2 b) (c3 b).

Definition xywh_to_ltrb (b : qbox) : qbox :=
  QBox (Qred (c0 b - c2 b / 2)) (Qred (c1 b - c3 b / 2))
       (Qred (c0 b + c2 b / 2)) (Qred (c1 b + c3 b / 2)).

Definition ltwh_to_ltrb (b : qbox) : qbox :=
  QBox (c0 b) (c1 b) (Qred (c0 b + c2 b)) (Qred (c1 b + c3 b)).

Definition iou_ltwh (a b : qbox) : Q :=
  iou_ltrb (ltwh_to_ltrb a) (ltwh_to_ltrb b).

Definition iou_xywh (a b : qbox) : Q :=
  iou_ltrb (xywh_to_ltrb a) (xywh_to_ltrb b).

Example iou_ltwh_half :
  iou_ltwh (QBox 0 0 2 2) (QBox 1 0 2 2) = 1 # 3.
Proof. vm_compute. reflexivity. Qed.

End Geometry.

(** ** Evaluation: [AP] and [mAP] *)

Module Eval.
Import QAux PyMax PyLoop Geometry AveragePrecision.
Local Open Scope Q_scope.

(** Modelled from the spec: the [BBox] class ([hutil.detection.bbox]) is
    not under src/; these are the attributes that [mAP] and [AP] read. *)
Record BBox : Type := MkBBox {
  image_id : Z;
  category_id : Z;
  bbox : qbox
}.

Section APLoop.

(** [iou_11] of [hutil.detection.iou], not under src/: a parameter. *)
Variable iou_11 : qbox -> qbox -> Q.

(** [[iou_11(dt.bbox, gt.bbox) for gt in gts]] *)
Definition ious_of (dt : BBox) (gts : list BBox) : list Q :=
  map (fun gt => iou_11 (bbox dt) (bbox gt)) gts.

(** The state of the loop of [AP]: the arrays [TP] and [seen]. *)
Definition ap_state : Type := (list Z * list bool)%type.

(** One iteration of [for i, dt in enumerate(dts)]. *)
Definition AP_step (gts : list BBox) (iou_threshold : Q)
  (st : ap_state) (idt : nat * BBox) : Py.result ap_state :=
  let '(TP, seen) := st in
  let '(i, dt) := idt in
  let ious := ious_of dt gts in
  jm <- max_enumerate ious ;;
  let '(j_max, iou_max) := jm in
  if Qltb iou_threshold iou_max then
    if negb (nth j_max seen false) then
      Py.ret (Py.set_nth i 1%Z TP, Py.set_nth j_max true seen)
    else Py.ret st
  else Py.ret st.

Fixpoint AP_iter (gts : list BBox) (iou_threshold : Q)
  (idts : list (nat * BBox)) (st : ap_state) : Py.result ap_state :=
  match idts with
  | [] => Py.ret st
  | idt :: rest =>
      st' <- AP_step gts iou_threshold st idt ;;
      AP_iter gts iou_threshold rest st'
  end.

(** The first part of [AP]: the arrays after the loop. *)
Definition AP_loop (dts gts : list BBox) (iou_threshold : Q)
  : Py.result ap_state :=
  let TP := repeat 0%Z (length dts) in
  let n_positive := length gts in
  let seen := repeat false n_positive in
  AP_iter gts iou_threshold (Py.enumerate dts) (TP, seen).

(** [np.cumsum] *)
Fixpoint cumsum_from (acc : Z) (l : list Z) : list Z :=
  match l with
  | [] => []
  | x :: t => (acc + x)%Z :: cumsum_from (acc + x)%Z t
  end.

Definition cumsum (l : list Z) : list Z := cumsum_from 0%Z l.

Definition AP (dts gts : list BBox) (iou_threshold : Q) : Py.result Q :=
  st <- AP_loop dts gts iou_threshold ;;
  let TP := fst st in
  let n_positive := length gts in
  let FP := map (fun t => (1 - t)%Z) TP in
  let acc_fp := cumsum FP in
  let acc_tp := cumsum TP in
  let recall := map (fun a => inject_Z a / inject_Z (Z.of_nat n_positive)) acc_tp in
  let precision :=
    map (fun ft => inject_Z (snd ft) / (inject_Z (fst ft) + inject_Z (snd ft)))
        (combine acc_fp acc_tp) in
  r <- average_precision recall precision ;;
  let '(ap, _, _, _) := r in
  Py.ret ap.

(** The pure recursion behind the loop: the flags of the detections still
    to come, given the ground truths already matched. *)
Fixpoint tp_flags (gts : list BBox) (iou_threshold : Q)
  (seen : list bool) (dts : list BBox) : Py.result (list Z * list bool) :=
  match dts with
  | [] => Py.ret ([], seen)
  | dt :: rest =>
      jm <- max_enumerate (ious_of dt gts) ;;
      let hit := Qltb iou_threshold (snd jm) && negb (nth (fst jm) seen false) in
      r <- tp_flags gts iou_threshold
             (if hit then Py.set_nth (fst jm) true seen else seen) rest ;;
      Py.ret ((if hit then 1%Z else 0%Z) :: fst r, snd r)
  end.


(** [TP.sum()], the number of true positives. *)
Definition Zsum (l : list Z) : Z := fold_right Z.add 0%Z l.

Lemma Zsum_cons (x : Z) (l : list Z) : Zsum (x :: l) = (x + Zsum l)%Z.
Proof. reflexivity. Qed.

Definition count_true (l : list bool) : nat := length (filter (fun b => b) l).

Lemma count_true_le (l : list bool) : (count_true l <= length l)%nat.
Proof. unfold count_true. apply filter_length_le. Qed.

Lemma count_true_set (j : nat) (l : list bool) :
  (j < length l)%nat -> nth j l false = false ->
  count_true (Py.set_nth j true l) = S (count_true l).
Proof.
  unfold count_true.
  revert j. induction l as [|b t IH]; intros j Hj Hnth; [simpl in Hj; lia|].
  destruct j as [|j]; simpl in *.
  - subst b. reflexivity.
  - destruct b; simpl; rewrite IH; auto; lia.
Qed.

Lemma count_true_repeat (n : nat) : count_true (repeat false n) = 0%nat.
Proof. induction n; [reflexivity | exact IHn]. Qed.

Lemma nth_repeat_false (j n : nat) : nth j (repeat false n) false = false.
Proof.
  revert j. induction n as [|n IH]; intros j; destruct j; simpl; auto.
Qed.

(** The loop over [enumerate(dts)] writes the flags of [tp_flags] into the
    zero-initialised [TP], left to right. *)
Lemma AP_iter_flags (gts : list BBox) (thr : Q) (dts : list BBox) :
  forall (pre : list Z) (seen : list bool),
    AP_iter gts thr (combine (seq (length pre) (length dts)) dts)
      (pre ++ repeat 0%Z (length dts), seen)
    = (r <- tp_flags gts thr seen dts ;; Py.ret (pre ++ fst r, snd r)).
Proof.
  induction dts as [|dt rest IH]; intros pre seen.
  - reflexivity.
  - simpl combine. simpl repeat. simpl AP_iter. simpl tp_flags.
    destruct (max_enumerate (ious_of dt gts)) as [e | [j m]]; [reflexivity|].
    simpl.
    destruct (Qltb thr m); simpl.
    + destruct (nth j seen false); simpl.
      * specialize (IH (pre ++ [0%Z]) seen).
        rewrite length_app, Nat.add_1_r, <- app_assoc in IH. simpl in IH.
        rewrite IH.
        destruct (tp_flags gts thr seen rest) as [e | r]; simpl;
          [reflexivity | now rewrite <- app_assoc].
      * rewrite Py.set_nth_app.
        specialize (IH (pre ++ [1%Z]) (Py.set_nth j true seen)).
        rewrite length_app, Nat.add_1_r, <- app_assoc in IH. simpl in IH.
        rewrite IH.
        destruct (tp_flags gts thr (Py.set_nth j true seen) rest) as [e | r];
          simpl; [reflexivity | now rewrite <- app_assoc].
    + specialize (IH (pre ++ [0%Z]) seen).
      rewrite length_app, Nat.add_1_r, <- app_assoc in IH. simpl in IH.
      rewrite IH.
      destruct (tp_flags gts thr seen rest) as [e | r]; simpl;
        [reflexivity | now rewrite <- app_assoc].
Qed.

Lemma AP_loop_flags (dts gts : list BBox) (thr : Q) :
  AP_loop dts gts thr = tp_flags gts thr (repeat false (length gts)) dts.
Proof.
  unfold AP_loop, Py.enumerate.
  pose proof (AP_iter_flags gts thr dts [] (repeat false (length gts))) as H.
  simpl in H. rewrite H.
  destruct (tp_flags _ _ _ _) as [e | [fl s]]; reflexivity.
Qed.

Lemma tp_flags_total (gts : list BBox) (thr : Q) (dts : list BBox) :
  gts <> [] ->
  forall seen, exists r, tp_flags gts thr seen dts = Py.ret r.
Proof.
  intros Hne. induction dts as [|dt rest IH]; intros seen; simpl.
  - eexists. reflexivity.
  - destruct (max_enumerate_nonempty (ious_of dt gts)) as (j & m & E).
    { unfold ious_of. destruct gts; [contradiction | discriminate]. }
    rewrite E. simpl.
    destruct (IH (if Qltb thr m && negb (nth j seen false)
                  then Py.set_nth j true seen else seen)) as [r Hr].
    rewrite Hr. simpl. eexists. reflexivity.
Qed.

(** Every flag raised marks one more ground truth as seen. *)
Lemma tp_flags_count (gts : list BBox) (thr : Q) (dts : list BBox) :
  forall seen flags seen',
    length seen = length gts ->
    tp_flags gts thr seen dts = Py.ret (flags, seen') ->
    length flags = length dts /\
    length seen' = length gts /\
    (Zsum flags + Z.of_nat (count_true seen) = Z.of_nat (count_true seen'))%Z.
Proof.
  induction dts as [|dt rest IH]; intros seen flags seen' Hlen H; simpl in H.
  - injection H as <- <-. simpl. auto.
  - destruct (max_enumerate (ious_of dt gts)) as [e | [j m]] eqn:E;
      [discriminate|].
    simpl in H.
    destruct (tp_flags gts thr _ rest) as [e | [fl s]] eqn:Er; [discriminate|].
    simpl in H. injection H as <- <-.
    assert (Hj : (j < length seen)%nat).
    { apply max_enumerate_lt in E. unfold ious_of in E.
      rewrite length_map in E. lia. }
    destruct (Qltb thr m && negb (nth j seen false)) eqn:Ehit.
    + apply andb_true_iff in Ehit. destruct Ehit as [_ Hns].
      apply negb_true_iff in Hns.
      apply IH in Er; [|now rewrite Py.set_nth_length].
      destruct Er as (Hl & Hs & Hc).
      rewrite count_true_set in Hc by assumption.
      rewrite Zsum_cons. cbn [length fst snd].
      repeat split; [lia | exact Hs | lia].
    + apply IH in Er; [|exact Hlen].
      destruct Er as (Hl & Hs & Hc).
      rewrite Zsum_cons. cbn [length fst snd].
      repeat split; [lia | exact Hs | lia].
Qed.

(** A detection is flagged exactly when its best ground truth is above the
    threshold, was not seen at the start and was not taken by an earlier
    flagged detection. *)
Lemma tp_flags_char (gts : list BBox) (thr : Q) (dts : list BBox) :
  forall seen flags seen',
    length seen = length gts ->
    tp_flags gts thr seen dts = Py.ret (flags, seen') ->
    forall i dt j m,
      nth_error dts i = Some dt ->
      max_enumerate (ious_of dt gts) = Py.ret (j, m) ->
      (nth i flags 0%Z = 1%Z <->
       thr < m /\ nth j seen false = false /\
       forall i' dt' j' m',
         (i' < i)%nat -> nth_error dts i' = Some dt' ->
         nth i' flags 0%Z = 1%Z ->
         max_enumerate (ious_of dt' gts) = Py.ret (j', m') -> j' <> j).
Proof.
  induction dts as [|dt0 rest IH]; intros seen flags seen' Hlen H i dt j m Hi Hmax.
  - destruct i; discriminate.
  - simpl in H.
    destruct (max_enumerate (ious_of dt0 gts)) as [e | [j0 m0]] eqn:E0;
      [discriminate|].
    simpl in H.
    destruct (tp_flags gts thr _ rest) as [e | [fl s]] eqn:Er; [discriminate|].
    simpl in H. injection H as <- <-.
    assert (Hj0 : (j0 < length seen)%nat).
    { apply max_enumerate_lt in E0. unfold ious_of in E0.
      rewrite length_map in E0. lia. }
    destruct i as [|i].
    + simpl in Hi. injection Hi as <-.
      rewrite E0 in Hmax. injection Hmax as <- <-.
      simpl nth.
      destruct (Qltb thr m0) eqn:Elt; simpl.
      * apply Qltb_lt in Elt.
        destruct (nth j0 seen false) eqn:Eseen; simpl.
        -- split; [discriminate | intros (_ & Hc & _); discriminate].
        -- split; [|reflexivity].
           intros _. repeat split; auto. intros i' ? ? ? Hlt. lia.
      * apply Qltb_ge in Elt.
        split; [discriminate|].
        intros (Hc & _). exfalso. exact (Qlt_not_le _ _ Hc Elt).
    + simpl in Hi. simpl nth.
      set (hit := Qltb thr m0 && negb (nth j0 seen false)) in *.
      set (seen1 := if hit then Py.set_nth j0 true seen else seen) in *.
      assert (Hlen1 : length seen1 = length gts).
      { unfold seen1. destruct hit; [now rewrite Py.set_nth_length | exact Hlen]. }
      pose proof (IH seen1 fl s Hlen1 Er i dt j m Hi Hmax) as Hiff.
      rewrite Hiff. clear Hiff.
      split.
      * intros (Hthr & Hs1 & Hearlier).
        assert (Hsep : hit = true -> j0 <> j).
        { intros Hh Heq. subst j0. unfold seen1 in Hs1. rewrite Hh in Hs1.
          rewrite Py.nth_set_nth_eq in Hs1 by exact Hj0. discriminate. }
        split; [exact Hthr|]. split.
        -- unfold seen1 in Hs1. destruct hit eqn:Eh; [|exact Hs1].
           rewrite Py.nth_set_nth_neq in Hs1 by (apply Hsep; reflexivity).
           exact Hs1.
        -- intros i' dt' j' m' Hlt Hnth Hflag Hmax'.
           destruct i' as [|i'].
           ++ simpl in Hnth. injection Hnth as <-.
              rewrite E0 in Hmax'. injection Hmax' as <- <-.
              apply Hsep. simpl in Hflag. destruct hit; [reflexivity | discriminate].
           ++ simpl in Hnth, Hflag.
              apply (Hearlier i' dt' j' m'); auto. lia.
      * intros (Hthr & Hs & Hearlier).
        split; [exact Hthr|]. split.
        -- unfold seen1. destruct hit eqn:Eh; [|exact Hs].
           rewrite Py.nth_set_nth_neq; [exact Hs|].
           apply (Hearlier 0%nat dt0 j0 m0);
             [lia | reflexivity | simpl; try rewrite Eh; reflexivity | exact E0].
        -- intros i' dt' j' m' Hlt Hnth Hflag Hmax'.
           apply (Hearlier (S i') dt' j' m'); auto. lia.
Qed.

(** C6: [AP]'s loop returns whenever there is a ground truth (or no
    detection); detection [i] is counted as a true positive exactly when
    the ground truth of greatest IoU with it has IoU strictly above the
    threshold and no earlier true positive was matched to that ground
    truth; so two true positives never share a ground truth, and the number
    of true positives is at most the number of ground truths. *)
Theorem AP_matches_each_ground_truth_once
  (dts gts : list BBox) (iou_threshold : Q) :
  (gts <> [] \/ dts = [] ->
   exists st, AP_loop dts gts iou_threshold = Py.ret st) /\
  forall TP seen,
    AP_loop dts gts iou_threshold = Py.ret (TP, seen) ->
    length TP = length dts /\
    (forall i dt j m,
       nth_error dts i = Some dt ->
       max_enumerate (ious_of dt gts) = Py.ret (j, m) ->
       (nth i TP 0%Z = 1%Z <->
        iou_threshold < m /\
        forall i' dt' j' m',
          (i' < i)%nat -> nth_error dts i' = Some dt' ->
          nth i' TP 0%Z = 1%Z ->
          max_enumerate (ious_of dt' gts) = Py.ret (j', m') -> j' <> j)) /\
    (forall i1 i2 dt1 dt2 j m1 m2,
       nth_error dts i1 = Some dt1 -> nth_error dts i2 = Some dt2 ->
       nth i1 TP 0%Z = 1%Z -> nth i2 TP 0%Z = 1%Z ->
       max_enumerate (ious_of dt1 gts) = Py.ret (j, m1) ->
       max_enumerate (ious_of dt2 gts) = Py.ret (j, m2) ->
       i1 = i2) /\
    (Zsum TP <= Z.of_nat (length gts))%Z.
Proof.
  rewrite AP_loop_flags. split.
  - intros [Hne | ->].
    + apply tp_flags_total. exact Hne.
    + eexists. reflexivity.
  - intros TP seen H.
    assert (Hrep : length (repeat false (length gts)) = length gts)
      by apply repeat_length.
    destruct (tp_flags_count _ _ _ _ _ _ Hrep H) as (Hl & Hs & Hc).
    pose proof (tp_flags_char _ _ _ _ _ _ Hrep H) as Hchar.
    assert (Hiff : forall i dt j m,
               nth_error dts i = Some dt ->
               max_enumerate (ious_of dt gts) = Py.ret (j, m) ->
               (nth i TP 0%Z = 1%Z <->
                iou_threshold < m /\
                forall i' dt' j' m',
                  (i' < i)%nat -> nth_error dts i' = Some dt' ->
                  nth i' TP 0%Z = 1%Z ->
                  max_enumerate (ious_of dt' gts) = Py.ret (j', m') -> j' <> j)).
    { intros i dt j m Hi Hmax.
      rewrite (Hchar i dt j m Hi Hmax), nth_repeat_false.
      split; [intros (? & _ & ?) | intros (? & ?)]; auto. }
    split; [exact Hl|]. split; [exact Hiff|]. split.
    + intros i1 i2 dt1 dt2 j m1 m2 H1 H2 F1 F2 M1 M2.
      destruct (Nat.lt_trichotomy i1 i2) as [Hlt | [Heq | Hlt]]; [|exact Heq|].
      * apply (Hiff i2 dt2 j m2 H2 M2) in F2. destruct F2 as [_ F2].
        exfalso. exact (F2 i1 dt1 j m1 Hlt H1 F1 M1 eq_refl).
      * apply (Hiff i1 dt1 j m1 H1 M1) in F1. destruct F1 as [_ F1].
        exfalso. exact (F1 i2 dt2 j m2 Hlt H2 F2 M2 eq_refl).
    + rewrite count_true_repeat in Hc.
      pose proof (count_true_le seen) as Hle. lia.
Qed.

End APLoop.

Example AP_loop_run :
  AP_loop iou_ltwh
    [MkBBox 0 1 (QBox 0 0 2 2); MkBBox 0 1 (QBox 0 0 2 3);
     MkBBox 0 1 (QBox 5 5 2 2)]
    [MkBBox 0 1 (QBox 0 0 2 2); MkBBox 0 1 (QBox 5 5 2 3)]
    (1 # 2)
  = Py.ret ([1; 0; 1]%Z, [true; true]).
Proof. vm_compute. reflexivity. Qed.

(** *** Dictionaries in insertion order and [toolz.groupby] *)

Definition dict (V : Type) : Type := list (Z * V).

Definition keys {V : Type} (d : dict V) : list Z := map fst d.

Fixpoint dict_get {V : Type} (k : Z) (d : dict V) : option V :=
  match d with
  | [] => None
  | (k', v) :: rest => if (k' =? k)%Z then Some v else dict_get k rest
  end.

(** [k in d] *)
Definition dict_mem {V : Type} (k : Z) (d : dict V) : bool :=
  match dict_get k d with Some _ => true | None => false end.

(** [d[k]] *)
Definition dict_getitem {V : Type} (k : Z) (d : dict V) : Py.result V :=
  match dict_get k d with Some v => Py.ret v | None => Py.raise Py.KeyError end.

(** [d.get(k, default)] *)
Definition dict_get_default {V : Type} (k : Z) (d : dict V) (default : V) : V :=
  match dict_get k d with Some v => v | None => default end.

(** [d[k].append(v)], where a missing key starts from the empty list and
    goes to the end of the dictionary. *)
Fixpoint dict_append {V : Type} (k : Z) (v : V) (d : dict (list V))
  : dict (list V) :=
  match d with
  | [] => [(k, [v])]
  | (k', vs) :: rest =>
      if (k' =? k)%Z then (k', vs ++ [v]) :: rest
      else (k', vs) :: dict_append k v rest
  end.

(** [groupby(key, seq)] *)
Definition groupby {A : Type} (key : A -> Z) (l : list A) : dict (list A) :=
  fold_left (fun d x => dict_append (key x) x d) l [].

(** A float that may be [nan]. *)
Inductive pyfloat : Type :=
| Num (q : Q)
| NaN.

(** [np.mean] of a list of numbers: [nan] on the empty list. *)
Definition np_mean (l : list Q) : pyfloat :=
  match l with
  | [] => NaN
  | _ => Num (Qsum l / inject_Z (Z.of_nat (length l)))
  end.

Fixpoint all_nums (l : list pyfloat) : option (list Q) :=
  match l with
  | [] => Some []
  | Num q :: t => option_map (cons q) (all_nums t)
  | NaN :: _ => None
  end.

(** [np.mean] of a list of floats: a [nan] entry makes the mean [nan]. *)
Definition np_mean_floats (l : list pyfloat) : pyfloat :=
  match all_nums l with
  | Some qs => np_mean qs
  | None => NaN
  end.

Section MeanAP.
Variable iou_11 : qbox -> qbox -> Q.

(** The body of [for c in classes]. *)
Definition class_ap (class_dts class_gts : dict (list BBox))
  (iou_threshold : Q) (c : Z) : Py.result Q :=
  if negb (dict_mem c class_dts) then Py.ret 0
  else
    dts <- dict_getitem c class_dts ;;
    gts <- dict_getitem c class_gts ;;
    AP iou_11 dts gts iou_threshold.

(** The body of [for i in image_ids]. *)
Definition image_map (image_dts image_gts : dict (list BBox))
  (iou_threshold : Q) (i : Z) : Py.result pyfloat :=
  let i_dts := dict_get_default i image_dts [] in
  i_gts <- dict_getitem i image_gts ;;
  let class_dts := groupby category_id i_dts in
  let class_gts := groupby category_id i_gts in
  let classes := keys class_gts in
  aps <- mapM (class_ap class_dts class_gts iou_threshold) classes ;;
  Py.ret (np_mean aps).

Definition mAP (detections ground_truths : list BBox) (iou_threshold : Q)
  : Py.result pyfloat :=
  let image_dts := groupby image_id detections in
  let image_gts := groupby image_id ground_truths in
  let image_ids := keys image_gts in
  maps <- mapM (image_map image_dts image_gts iou_threshold) image_ids ;;
  Py.ret (np_mean_floats maps).

(** *** The claim's description of [mAP] *)

(** The distinct values of a list, in order of first appearance. *)
Fixpoint distinct_from (seen l : list Z) : list Z :=
  match l with
  | [] => []
  | x :: t =>
      if existsb (Z.eqb x) seen then distinct_from seen t
      else x :: distinct_from (seen ++ [x]) t
  end.

Definition distinct (l : list Z) : list Z := distinct_from [] l.

Definition on_image (i : Z) (b : BBox) : bool := (image_id b =? i)%Z.
Definition of_class (c : Z) (b : BBox) : bool := (category_id b =? c)%Z.

(** The per-class AP of image [i] and class [c]: 0 when the image has no
    detection of the class. *)
Definition class_ap_spec (detections ground_truths : list BBox)
  (iou_threshold : Q) (i c : Z) : Py.result Q :=
  match filter (of_class c) (filter (on_image i) detections) with
  | [] => Py.ret 0
  | dts =>
      AP iou_11 dts (filter (of_class c) (filter (on_image i) ground_truths))
        iou_threshold
  end.

(** The mean over the ground-truth classes of image [i]. *)
Definition image_map_spec (detections ground_truths : list BBox)
  (iou_threshold : Q) (i : Z) : Py.result pyfloat :=
  let classes :=
    distinct (map category_id (filter (on_image i) ground_truths)) in
  aps <- mapM (class_ap_spec detections ground_truths iou_threshold i)
           classes ;;
  Py.ret (np_mean aps).

(** The mean over the images that appear in the ground truths. *)
Definition mAP_spec (detections ground_truths : list BBox)
  (iou_threshold : Q) : Py.result pyfloat :=
  let images := distinct (map image_id ground_truths) in
  maps <- mapM (image_map_spec detections ground_truths iou_threshold)
            images ;;
  Py.ret (np_mean_floats maps).

End MeanAP.

(** *** [groupby] as filters *)

Lemma keys_dict_append {V : Type} (k : Z) (v : V) (d : dict (list V)) :
  keys (dict_append k v d)
  = if existsb (Z.eqb k) (keys d) then keys d else keys d ++ [k].
Proof.
  induction d as [|[k' vs] rest IH]; [reflexivity|].
  unfold keys in *. simpl. rewrite (Z.eqb_sym k k').
  destruct (k' =? k)%Z; simpl; [reflexivity|].
  rewrite IH.
  destruct (existsb (Z.eqb k) (map fst rest)); reflexivity.
Qed.

Lemma dict_get_append_same {V : Type} (k : Z) (v : V) (d : dict (list V)) :
  dict_get k (dict_append k v d)
  = Some (match dict_get k d with Some vs => vs | None => [] end ++ [v]).
Proof.
  induction d as [|[k' vs] rest IH]; simpl.
  - now rewrite Z.eqb_refl.
  - destruct (k' =? k)%Z eqn:E; simpl; rewrite E; [reflexivity | exact IH].
Qed.

Lemma dict_get_append_other {V : Type} (k k0 : Z) (v : V)
  (d : dict (list V)) :
  k <> k0 -> dict_get k0 (dict_append k v d) = dict_get k0 d.
Proof.
  intros Hne. induction d as [|[k' vs] rest IH]; simpl.
  - destruct (k =? k0)%Z eqn:E; [apply Z.eqb_eq in E; contradiction | reflexivity].
  - destruct (k' =? k)%Z eqn:E; simpl.
    + apply Z.eqb_eq in E. subst k'.
      destruct (k =? k0)%Z eqn:E0; [|reflexivity].
      apply Z.eqb_eq in E0. contradiction.
    + destruct (k' =? k0)%Z; [reflexivity | exact IH].
Qed.

(** What a key holds after more items are grouped into a dictionary. *)
Definition grouped {A : Type} (before : option (list A)) (more : list A)
  : option (list A) :=
  match before, more with
  | Some vs, _ => Some (vs ++ more)
  | None, [] => None
  | None, _ => Some more
  end.

Section Grouping.
Context {A : Type}.
Variable key : A -> Z.

Definition group_step (d : dict (list A)) (x : A) : dict (list A) :=
  dict_append (key x) x d.

Lemma keys_group_fold (l : list A) :
  forall d,
    keys (fold_left group_step l d)
    = keys d ++ distinct_from (keys d) (map key l).
Proof.
  induction l as [|x t IH]; intros d; simpl.
  - now rewrite app_nil_r.
  - rewrite IH. unfold group_step. rewrite keys_dict_append.
    destruct (existsb (Z.eqb (key x)) (keys d)); [reflexivity|].
    now rewrite <- app_assoc.
Qed.

Lemma dict_get_group_fold (k : Z) (l : list A) :
  forall d,
    dict_get k (fold_left group_step l d)
    = grouped (dict_get k d) (filter (fun x => (key x =? k)%Z) l).
Proof.
  induction l as [|x t IH]; intros d; simpl.
  - unfold grouped. destruct (dict_get k d); [now rewrite app_nil_r | reflexivity].
  - rewrite IH. unfold group_step.
    destruct (key x =? k)%Z eqn:E.
    + apply Z.eqb_eq in E. rewrite E, dict_get_append_same.
      unfold grouped. destruct (dict_get k d); simpl; [|reflexivity].
      now rewrite <- app_assoc.
    + rewrite dict_get_append_other; [reflexivity|].
      intros Heq. rewrite Heq, Z.eqb_refl in E. discriminate.
Qed.

Lemma keys_groupby (l : list A) : keys (groupby key l) = distinct (map key l).
Proof. exact (keys_group_fold l []). Qed.

Lemma dict_get_groupby (k : Z) (l : list A) :
  dict_get k (groupby key l)
  = match filter (fun x => (key x =? k)%Z) l with
    | [] => None
    | f => Some f
    end.
Proof.
  unfold groupby. fold group_step.
  change (fold_left (fun d x => dict_append (key x) x d) l [])
    with (fold_left group_step l []).
  rewrite dict_get_group_fold. simpl.
  destruct (filter _ l); reflexivity.
Qed.

Lemma dict_get_default_groupby (k : Z) (l : list A) :
  dict_get_default k (groupby key l) []
  = filter (fun x => (key x =? k)%Z) l.
Proof.
  unfold dict_get_default. rewrite dict_get_groupby.
  destruct (filter _ l); reflexivity.
Qed.

Lemma filter_key_nonempty (k : Z) (l : list A) :
  In k (map key l) -> filter (fun x => (key x =? k)%Z) l <> [].
Proof.
  intros Hin. apply in_map_iff in Hin. destruct Hin as (x & Hk & Hx).
  intros Hnil.
  assert (Hf : In x (filter (fun y => (key y =? k)%Z) l)).
  { apply filter_In. split; [exact Hx | now apply Z.eqb_eq]. }
  rewrite Hnil in Hf. exact Hf.
Qed.

End Grouping.

Lemma distinct_from_incl (l : list Z) :
  forall seen x, In x (distinct_from seen l) -> In x l.
Proof.
  induction l as [|y t IH]; intros seen x H; simpl in *; [exact H|].
  destruct (existsb (Z.eqb y) seen).
  - right. eapply IH. exact H.
  - destruct H as [-> | H]; [now left | right; eapply IH; exact H].
Qed.

Lemma filter_filter_implied {A : Type} (p q : A -> bool) (l : list A) :
  (forall x, q x = true -> p x = true) ->
  filter q (filter p l) = filter q l.
Proof.
  intros H. induction l as [|x t IH]; [reflexivity|].
  simpl. destruct (p x) eqn:Ep; simpl.
  - now rewrite IH.
  - destruct (q x) eqn:Eq.
    + apply H in Eq. congruence.
    + exact IH.
Qed.

Section MeanAPFacts.
Variable iou_11 : qbox -> qbox -> Q.

Lemma cumsum_from_length (l : list Z) :
  forall acc, length (cumsum_from acc l) = length l.
Proof.
  induction l as [|x t IH]; intros acc; simpl; [reflexivity | now rewrite IH].
Qed.

(** [AP] returns whenever there is at least one ground truth. *)
Lemma AP_total (dts gts : list BBox) (thr : Q) :
  gts <> [] -> exists ap, AP iou_11 dts gts thr = Py.ret ap.
Proof.
  intros Hne. unfold AP.
  destruct (tp_flags_total iou_11 gts thr dts Hne
              (repeat false (length gts))) as [[TP seen] Hst].
  rewrite AP_loop_flags, Hst. simpl.
  match goal with
  | |- context [average_precision ?r ?p] =>
      destruct (average_precision_total r p) as (ap & ii & Hap)
  end.
  - unfold cumsum.
    rewrite !length_map, length_combine, !cumsum_from_length, length_map. lia.
  - rewrite Hap. simpl. eexists. reflexivity.
Qed.

Lemma class_ap_refines (dets gts : list BBox) (thr : Q) (i c : Z) :
  In c (map category_id (filter (on_image i) gts)) ->
  class_ap iou_11
    (groupby category_id (filter (on_image i) dets))
    (groupby category_id (filter (on_image i) gts)) thr c
  = class_ap_spec iou_11 dets gts thr i c.
Proof.
  intros Hc. unfold class_ap, class_ap_spec, dict_mem, dict_getitem.
  rewrite !dict_get_groupby.
  change (fun x : BBox => (category_id x =? c)%Z) with (of_class c).
  destruct (filter (of_class c) (filter (on_image i) dets)) as [|d ds] eqn:Ed;
    [reflexivity|].
  simpl.
  pose proof (filter_key_nonempty category_id c _ Hc) as Hne.
  change (fun x : BBox => (category_id x =? c)%Z) with (of_class c) in Hne.
  destruct (filter (of_class c) (filter (on_image i) gts)) as [|g gs] eqn:Eg;
    [contradiction|].
  reflexivity.
Qed.

Lemma image_map_refines (dets gts : list BBox) (thr : Q) (i : Z) :
  In i (map image_id gts) ->
  image_map iou_11 (groupby image_id dets) (groupby image_id gts) thr i
  = image_map_spec iou_11 dets gts thr i.
Proof.
  intros Hi. unfold image_map, image_map_spec, dict_getitem.
  assert (Hget : dict_get i (groupby image_id gts)
                 = Some (filter (on_image i) gts)).
  { rewrite dict_get_groupby.
    pose proof (filter_key_nonempty image_id i _ Hi) as Hne.
    change (fun x : BBox => (image_id x =? i)%Z) with (on_image i) in *.
    destruct (filter (on_image i) gts); [contradiction | reflexivity]. }
  rewrite Hget, dict_get_default_groupby.
  change (fun x : BBox => (image_id x =? i)%Z) with (on_image i).
  cbn [Py.bind Py.ret].
  rewrite keys_groupby.
  rewrite (mapM_ext_in _ (class_ap_spec iou_11 dets gts thr i)).
  - reflexivity.
  - intros c Hc. apply distinct_from_incl in Hc.
    rewrite <- (class_ap_refines dets gts thr i c); [reflexivity|].
    exact Hc.
Qed.

Lemma mAP_refines (dets gts : list BBox) (thr : Q) :
  mAP iou_11 dets gts thr = mAP_spec iou_11 dets gts thr.
Proof.
  unfold mAP, mAP_spec. rewrite keys_groupby.
  rewrite (mapM_ext_in _ (image_map_spec iou_11 dets gts thr)); [reflexivity|].
  intros i Hi. apply distinct_from_incl in Hi.
  apply image_map_refines. exact Hi.
Qed.

Lemma class_ap_spec_total (dets gts : list BBox) (thr : Q) (i c : Z) :
  In c (map category_id (filter (on_image i) gts)) ->
  exists ap, class_ap_spec iou_11 dets gts thr i c = Py.ret ap.
Proof.
  intros Hc. unfold class_ap_spec.
  destruct (filter (of_class c) (filter (on_image i) dets)) as [|d ds];
    [eexists; reflexivity|].
  apply AP_total.
  exact (filter_key_nonempty category_id c _ Hc).
Qed.

Lemma mAP_spec_total (dets gts : list BBox) (thr : Q) :
  exists v, mAP_spec iou_11 dets gts thr = Py.ret v.
Proof.
  unfold mAP_spec.
  destruct (mapM_total (image_map_spec iou_11 dets gts thr)
              (distinct (map image_id gts))) as [maps Hmaps].
  - intros i Hi. unfold image_map_spec.
    destruct (mapM_total (class_ap_spec iou_11 dets gts thr i)
                (distinct (map category_id (filter (on_image i) gts))))
      as [aps Haps].
    + intros c Hc. apply distinct_from_incl in Hc.
      apply class_ap_spec_total. exact Hc.
    + rewrite Haps. simpl. eexists. reflexivity.
  - rewrite Hmaps. simpl. eexists. reflexivity.
Qed.

(** The detections of images that have a ground truth. *)
Definition on_gt_images (gts : list BBox) (b : BBox) : bool :=
  existsb (Z.eqb (image_id b)) (map image_id gts).

Lemma mAP_spec_ignores (dets gts : list BBox) (thr : Q) :
  mAP_spec iou_11 (filter (on_gt_images gts) dets) gts thr
  = mAP_spec iou_11 dets gts thr.
Proof.
  unfold mAP_spec. f_equal.
  apply mapM_ext_in. intros i Hi. apply distinct_from_incl in Hi.
  unfold image_map_spec. f_equal.
  apply mapM_ext_in. intros c _.
  unfold class_ap_spec.
  rewrite (filter_filter_implied (on_gt_images gts) (on_image i));
    [reflexivity|].
  intros b Hb. unfold on_image in Hb. apply Z.eqb_eq in Hb.
  unfold on_gt_images. apply existsb_exists.
  exists i. split; [exact Hi | now apply Z.eqb_eq].
Qed.

(** C5: [mAP] never raises and equals the mean, over the images that occur
    in the ground truths, of the mean over that image's ground-truth
    classes of the per-class [AP], a class without a detection on the image
    counting 0; detections of images without a ground truth do not change
    the result. *)
Theorem mAP_mean_of_class_means (detections ground_truths : list BBox)
  (iou_threshold : Q) :
  mAP iou_11 detections ground_truths iou_threshold
  = mAP_spec iou_11 detections ground_truths iou_threshold /\
  (exists v, mAP iou_11 detections ground_truths iou_threshold = Py.ret v) /\
  mAP iou_11 (filter (on_gt_images ground_truths) detections) ground_truths
    iou_threshold
  = mAP iou_11 detections ground_truths iou_threshold.
Proof.
  split; [apply mAP_refines|]. split.
  - rewrite mAP_refines. apply mAP_spec_total.
  - rewrite !mAP_refines. apply mAP_spec_ignores.
Qed.

End MeanAPFacts.

Example mAP_run :
  exists v,
    mAP iou_ltwh
      [MkBBox 0 1 (QBox 0 0 2 2); MkBBox 0 2 (QBox 5 5 2 2);
       MkBBox 7 1 (QBox 0 0 2 2)]
      [MkBBox 0 1 (QBox 0 0 2 2); MkBBox 0 3 (QBox 5 5 2 3);
       MkBBox 1 1 (QBox 0 0 1 1)]
      (1 # 2) = Py.ret (Num v) /\ v == 1 # 4.
Proof. eexists. split; [vm_compute; reflexivity | reflexivity]. Qed.

End Eval.

(** ** [MultiBoxLoss] *)

Module Loss.
Import QAux Tensor.
Local Open Scope Q_scope.

(** The two functions [self.criterion] can be bound to. *)
Inductive criterion_fn : Type :=
| cross_entropy
| focal_loss2.

Record MultiBoxLoss : Type := MkMultiBoxLoss {
  neg_pos_ratio : option Z;
  p : Q;
  criterion : criterion_fn
}.

(** [MultiBoxLoss.__init__(neg_pos_ratio, p, criterion)] *)
Definition MultiBoxLoss_init (neg_pos_ratio : option Z) (p : Q)
  (criterion : string) : Py.result MultiBoxLoss :=
  if String.eqb criterion "softmax" then
    Py.ret (MkMultiBoxLoss neg_pos_ratio p cross_entropy)
  else if String.eqb criterion "focal" then
    Py.ret (MkMultiBoxLoss neg_pos_ratio p focal_loss2)
  else Py.raise Py.ValueError.

(** A value that is either the Python integer the accumulators start from
    or a zero-dimensional tensor. *)
Inductive num : Type :=
| PyInt (z : Z)
| Tensor (q : Q).

(** [a + b] *)
Definition num_add (a b : num) : num :=
  match a, b with
  | PyInt x, PyInt y => PyInt (x + y)
  | PyInt x, Tensor y => Tensor (inject_Z x + y)
  | Tensor x, PyInt y => Tensor (x + inject_Z y)
  | Tensor x, Tensor y => Tensor (x + y)
  end.

(** [a.item()]: an [int] has no such attribute. *)
Definition item (a : num) : Py.result Q :=
  match a with
  | PyInt _ => Py.raise Py.AttributeError
  | Tensor q => Py.ret q
  end.

(** A classification target row: a class index, or its one-hot encoding
    over [C] classes ([one_hot] of [hutil] is not under src/). *)
Inductive cls_target : Type :=
| ClassIndex (c : Z)
| OneHot (c : Z) (C : nat).

(** The tensors of one level, with the leading dimensions flattened:
    one row per anchor. *)
Record level : Type := MkLevel {
  loc_p : list (list Q);
  cls_p : list (list Q);
  loc_t : list (list Q);
  cls_t : list Z;
  ignore : option (list bool)
}.

(** [zip(loc_preds, cls_preds, loc_targets, cls_targets, ignores)] *)
Fixpoint zip_levels (loc_preds cls_preds loc_targets : list (list (list Q)))
  (cls_targets : list (list Z)) (ignores : list (option (list bool)))
  {struct loc_preds} : list level :=
  match loc_preds, cls_preds, loc_targets, cls_targets, ignores with
  | lp :: lps, cp :: cps, lt :: lts, ct :: cts, ig :: igs =>
      MkLevel lp cp lt ct ig :: zip_levels lps cps lts cts igs
  | _, _, _, _, _ => []
  end.

(** [pos.sum().item()] *)
Definition mask_count (mask : list bool) : Z :=
  Z.of_nat (length (filter (fun b => b) mask)).

(** Descending insertion, for [torch.topk]. *)
Fixpoint insert_desc (x : Q) (l : list Q) : list Q :=
  match l with
  | [] => [x]
  | y :: t => if Qle_bool y x then x :: y :: t else y :: insert_desc x t
  end.

Definition sort_desc (l : list Q) : list Q := fold_right insert_desc [] l.

(** [torch.topk(t, k)[0]]: the [k] largest values, largest first; [k] must
    lie between 0 and the number of values. *)
Definition topk (t : list Q) (k : Z) : Py.result (list Q) :=
  if ((k <? 0) || (Z.of_nat (length t) <? k))%Z then Py.raise Py.RuntimeError
  else Py.ret (firstn (Z.to_nat k) (sort_desc t)).

(** [if x:] on an optional number: [None] and 0 are false. *)
Definition truthy (o : option Z) : option Z :=
  match o with
  | Some r => if (r =? 0)%Z then None else Some r
  | None => None
  end.

Definition last_dim (t : list (list Q)) : nat :=
  match t with
  | [] => 0%nat
  | row :: _ => length row
  end.

Section Forward.

(** [F.smooth_l1_loss(a, b, reduction='sum')] *)
Variable smooth_l1_loss_sum : list (list Q) -> list (list Q) -> Q.

(** The loss [self.criterion] gives one prediction row against its
    target; [reduction='sum'] adds these up. *)
Variable criterion_loss : criterion_fn -> list Q -> cls_target -> Q.

(** [F.log_softmax(row)] along the class dimension. *)
Variable log_softmax : list Q -> list Q.

Definition criterion_sum (c : criterion_fn) (preds : list (list Q))
  (targets : list cls_target) : Q :=
  Qsum (map (fun pt => criterion_loss c (fst pt) (snd pt))
          (combine preds targets)).

(** The branch [if self.neg_pos_ratio:] for a level with [num_pos]
    positives: hard negative mining. *)
Definition hard_negative_cls_loss (self : MultiBoxLoss) (lv : level)
  (pos : list bool) (num_pos ratio : Z) : Py.result Q :=
  let cls_loss_pos :=
    criterion_sum (criterion self) (Py.select_mask pos (cls_p lv))
      (map ClassIndex (Py.select_mask pos (cls_t lv))) in
  let mask := map negb pos in
  let mask :=
    match ignore lv with
    | Some ig => mask_and mask (map negb ig)
    | None => mask
    end in
  let cls_p_neg := Py.select_mask mask (cls_p lv) in
  let cls_loss_neg := map (fun row => - nth 0 (log_softmax row) 0) cls_p_neg in
  let num_neg := Z.min (ratio * num_pos) (Z.of_nat (length cls_loss_neg)) in
  top <- topk cls_loss_neg num_neg ;;
  let cls_loss_neg := Qsum top in
  Py.ret ((cls_loss_pos + cls_loss_neg) / inject_Z num_pos).

(** The classification loss one level adds to [cls_loss]. *)
Definition level_cls_loss (self : MultiBoxLoss) (lv : level)
  (pos : list bool) (num_pos : Z) : Py.result Q :=
  match truthy (neg_pos_ratio self), ignore lv with
  | Some ratio, _ => hard_negative_cls_loss self lv pos num_pos ratio
  | None, Some ig =>
      let targets :=
        match criterion self with
        | focal_loss2 => map (fun c => OneHot c (last_dim (cls_p lv))) (cls_t lv)
        | cross_entropy => map ClassIndex (cls_t lv)
        end in
      let cls_loss_pos :=
        criterion_sum (criterion self) (Py.select_mask pos (cls_p lv))
          (Py.select_mask pos targets) in
      let mask := mask_and (map negb pos) (map negb ig) in
      let cls_loss_neg :=
        criterion_sum (criterion self) (Py.select_mask mask (cls_p lv))
          (Py.select_mask mask targets) in
      Py.ret ((cls_loss_pos + cls_loss_neg) / inject_Z num_pos)
  | None, None =>
      let targets :=
        match criterion self with
        | focal_loss2 => map (fun c => OneHot c (last_dim (cls_p lv))) (cls_t lv)
        | cross_entropy => map ClassIndex (cls_t lv)
        end in
      Py.ret (criterion_sum (criterion self) (cls_p lv) targets
              / inject_Z num_pos)
  end.

(** The localisation loss one level adds to [loc_loss]. *)
Definition level_loc_loss (lv : level) (pos : list bool) (num_pos : Z) : Q :=
  if negb (length (loc_p lv) =? length pos)%nat then
    smooth_l1_loss_sum (loc_p lv) (loc_t lv) / inject_Z num_pos
  else
    smooth_l1_loss_sum (Py.select_mask pos (loc_p lv))
      (Py.select_mask pos (loc_t lv)) / inject_Z num_pos.

(** [pos = cls_t != 0] *)
Definition positives (lv : level) : list bool :=
  map (fun c => negb (c =? 0)%Z) (cls_t lv).

(** One pass of the loop over the levels; the state is
    [(loc_loss, cls_loss)]. *)
Definition level_step (self : MultiBoxLoss) (st : num * num) (lv : level)
  : Py.result (num * num) :=
  let '(loc_loss, cls_loss) := st in
  let pos := positives lv in
  let num_pos := mask_count pos in
  if (num_pos =? 0)%Z then Py.ret st
  else
    let loc_loss := num_add loc_loss (Tensor (level_loc_loss lv pos num_pos)) in
    c <- level_cls_loss self lv pos num_pos ;;
    Py.ret (loc_loss, num_add cls_loss (Tensor c)).

Fixpoint levels_loop (self : MultiBoxLoss) (lvs : list level)
  (st : num * num) : Py.result (num * num) :=
  match lvs with
  | [] => Py.ret st
  | lv :: rest => st' <- level_step self st lv ;; levels_loop self rest st'
  end.

(** [forward]; [rnd] is the value [random.random()] draws, in [[0, 1)]. *)
Definition forward (self : MultiBoxLoss)
  (loc_preds cls_preds loc_targets : levels (list (list Q)))
  (cls_targets : levels (list Z))
  (ignores : option (list (option (list bool)))) (rnd : Q)
  : Py.result num :=
  let loc_loss := PyInt 0 in
  let cls_loss := PyInt 0 in
  let loc_preds := _ensure_multi_level loc_preds in
  let cls_preds := _ensure_multi_level cls_preds in
  let loc_targets := _ensure_multi_level loc_targets in
  let cls_targets := _ensure_multi_level cls_targets in
  let ignores :=
    match ignores with
    | None => repeat None (length loc_preds)
    | Some igs => igs
    end in
  st <- levels_loop self
          (zip_levels loc_preds cls_preds loc_targets cls_targets ignores)
          (loc_loss, cls_loss) ;;
  let '(loc_loss, cls_loss) := st in
  let loss := num_add cls_loss loc_loss in
  if Qltb rnd (p self) then
    _ <- item loc_loss ;;
    _ <- item cls_loss ;;
    Py.ret loss
  else Py.ret loss.

(** *** The claim's description of hard negative mining *)

(** Anchor [j] is positive: [cls_target != 0]. *)
Definition is_positive (lv : level) (j : nat) : bool :=
  negb (nth j (cls_t lv) 0%Z =? 0)%Z.

(** Anchor [j] is ignored; without an [ignore] mask none is. *)
Definition is_ignored (lv : level) (j : nat) : bool :=
  match ignore lv with
  | Some ig => nth j ig false
  | None => false
  end.

Definition anchor_indices (lv : level) : list nat :=
  seq 0 (length (cls_t lv)).

(** The criterion losses of the positive anchors. *)
Definition positive_losses (self : MultiBoxLoss) (lv : level) : list Q :=
  map (fun j => criterion_loss (criterion self) (nth j (cls_p lv) [])
                  (ClassIndex (nth j (cls_t lv) 0%Z)))
      (filter (is_positive lv) (anchor_indices lv)).

(** The background negative-log-softmax values of the anchors that are
    neither positive nor ignored. *)
Definition candidate_losses (lv : level) : list Q :=
  map (fun j => - nth 0 (log_softmax (nth j (cls_p lv) [])) 0)
      (filter (fun j => negb (is_positive lv j) && negb (is_ignored lv j))
              (anchor_indices lv)).

Definition count_positives (lv : level) : Z :=
  Z.of_nat (length (filter (is_positive lv) (anchor_indices lv))).

End Forward.

(** [top] holds [k] largest values of [all]: [k] of its entries, none
    smaller than any entry left out. *)
Definition k_largest (k : nat) (top all : list Q) : Prop :=
  length top = k /\
  exists rest,
    Permutation (top ++ rest) all /\
    forall x y, In x top -> In y rest -> y <= x.

(** *** Sorting facts for [topk] *)

Definition ge_rel (a b : Q) : Prop := b <= a.

Lemma insert_desc_perm (x : Q) (l : list Q) :
  Permutation (insert_desc x l) (x :: l).
Proof.
  induction l as [|y t IH]; simpl; [apply Permutation_refl|].
  destruct (Qle_bool y x); [apply Permutation_refl|].
  eapply Permutation_trans; [apply perm_skip, IH | apply perm_swap].
Qed.

Lemma sort_desc_perm (l : list Q) : Permutation (sort_desc l) l.
Proof.
  induction l as [|x t IH]; simpl; [apply Permutation_refl|].
  eapply Permutation_trans; [apply insert_desc_perm | apply perm_skip, IH].
Qed.

Lemma insert_desc_sorted (x : Q) (l : list Q) :
  StronglySorted ge_rel l -> StronglySorted ge_rel (insert_desc x l).
Proof.
  induction l as [|y t IH]; intros Hs; simpl.
  - constructor; constructor.
  - inversion Hs as [|? ? Ht Hy]; subst.
    destruct (Qle_bool y x) eqn:E.
    + apply Qle_bool_iff in E.
      constructor; [exact Hs|].
      constructor; [exact E|].
      apply Forall_forall. intros z Hz.
      rewrite Forall_forall in Hy. unfold ge_rel in *.
      eapply Qle_trans; [apply Hy, Hz | exact E].
    + assert (Hxy : x <= y).
      { apply Qlt_le_weak. apply Qnot_le_lt. intros Hle.
        apply Qle_bool_iff in Hle. congruence. }
      constructor; [apply IH, Ht|].
      apply Forall_forall. intros z Hz.
      apply (Permutation_in _ (insert_desc_perm x t)) in Hz.
      destruct Hz as [<- | Hz]; [exact Hxy|].
      rewrite Forall_forall in Hy. apply Hy, Hz.
Qed.

Lemma sort_desc_sorted (l : list Q) : StronglySorted ge_rel (sort_desc l).
Proof.
  induction l as [|x t IH]; simpl; [constructor | apply insert_desc_sorted, IH].
Qed.

Lemma sorted_app_ge (l1 l2 : list Q) :
  StronglySorted ge_rel (l1 ++ l2) ->
  forall x y, In x l1 -> In y l2 -> y <= x.
Proof.
  induction l1 as [|a l1 IH]; intros Hs x y Hx Hy; [destruct Hx|].
  simpl in Hs. inversion Hs as [|? ? Ht Ha]; subst.
  destruct Hx as [<- | Hx].
  - rewrite Forall_forall in Ha. apply Ha. apply in_or_app. now right.
  - apply IH; assumption.
Qed.

Lemma topk_k_largest (t : list Q) (k : Z) :
  (0 <= k <= Z.of_nat (length t))%Z ->
  exists top, topk t k = Py.ret top /\ k_largest (Z.to_nat k) top t.
Proof.
  intros Hk. unfold topk.
  destruct ((k <? 0) || (Z.of_nat (length t) <? k))%Z eqn:E.
  - apply orb_true_iff in E. destruct E as [E | E]; apply Z.ltb_lt in E; lia.
  - eexists. split; [reflexivity|].
    assert (Hlen : length (sort_desc t) = length t)
      by (apply Permutation_length, sort_desc_perm).
    split.
    + rewrite length_firstn, Hlen. lia.
    + exists (skipn (Z.to_nat k) (sort_desc t)). split.
      * rewrite firstn_skipn. apply sort_desc_perm.
      * apply sorted_app_ge. rewrite firstn_skipn. apply sort_desc_sorted.
Qed.

(** *** Masks as index filters *)

Lemma filter_map_S (f : nat -> bool) (l : list nat) :
  filter f (map S l) = map S (filter (fun j => f (S j)) l).
Proof.
  induction l as [|x t IH]; simpl; [reflexivity|].
  destruct (f (S x)); simpl; now rewrite IH.
Qed.

Lemma select_mask_index {A : Type} (d : A) (mask : list bool) :
  forall l : list A,
    length l = length mask ->
    Py.select_mask mask l
    = map (fun j => nth j l d)
          (filter (fun j => nth j mask false) (seq 0 (length mask))).
Proof.
  induction mask as [|b mask IH]; intros l Hlen; [reflexivity|].
  destruct l as [|x l]; [discriminate|].
  simpl in Hlen. injection Hlen as Hlen.
  cbn [length]. rewrite <- cons_seq, <- seq_shift.
  cbn [filter nth Py.select_mask].
  rewrite filter_map_S. cbn [nth].
  destruct b; cbn [map]; rewrite map_map; cbn [nth]; now rewrite IH.
Qed.

Lemma select_mask_pred {A : Type} (d : A) (mask : list bool) (l : list A)
  (P : nat -> bool) :
  length l = length mask ->
  (forall j, (j < length mask)%nat -> nth j mask false = P j) ->
  Py.select_mask mask l
  = map (fun j => nth j l d) (filter P (seq 0 (length mask))).
Proof.
  intros Hlen HP. rewrite (select_mask_index d) by exact Hlen.
  f_equal. apply filter_ext_in. intros j Hj. apply in_seq in Hj.
  apply HP. lia.
Qed.

Lemma nth_map_negb (j : nat) (mask : list bool) :
  (j < length mask)%nat ->
  nth j (map negb mask) false = negb (nth j mask false).
Proof.
  intros Hj.
  rewrite (nth_indep _ false (negb true)) by (rewrite length_map; exact Hj).
  rewrite map_nth. f_equal. apply nth_indep. exact Hj.
Qed.

Lemma nth_mask_and (j : nat) (a b : list bool) :
  length a = length b -> (j < length a)%nat ->
  nth j (mask_and a b) false = nth j a false && nth j b false.
Proof.
  intros Hlen Hj. unfold mask_and.
  rewrite (nth_indep _ false (andb (fst (false, false)) (snd (false, false))))
    by (rewrite length_map, length_combine; lia).
  rewrite (map_nth (fun ab => fst ab && snd ab)).
  rewrite combine_nth by exact Hlen. reflexivity.
Qed.

Lemma nth_positives (lv : level) (j : nat) :
  nth j (positives lv) false = is_positive lv j.
Proof.
  unfold positives, is_positive.
  change false with (negb (0 =? 0)%Z) at 1.
  apply (map_nth (fun c => negb (c =? 0)%Z)).
Qed.

Lemma positives_length (lv : level) :
  length (positives lv) = length (cls_t lv).
Proof. unfold positives. apply length_map. Qed.

Lemma mask_count_positives (lv : level) :
  mask_count (positives lv) = count_positives lv.
Proof.
  unfold mask_count, count_positives, anchor_indices.
  rewrite <- positives_length.
  pose proof (select_mask_pred true (positives lv) (positives lv)
                (is_positive lv) eq_refl
                (fun j _ => nth_positives lv j)) as H.
  apply (f_equal (@length bool)) in H. rewrite length_map in H.
  rewrite <- H. f_equal.
  clear H. induction (positives lv) as [|b t IH]; [reflexivity|].
  destruct b; simpl; now rewrite IH.
Qed.

Section ForwardFacts.
Variable smooth_l1_loss_sum : list (list Q) -> list (list Q) -> Q.
Variable criterion_loss : criterion_fn -> list Q -> cls_target -> Q.
Variable log_softmax : list Q -> list Q.

Lemma positive_sum_refines (self : MultiBoxLoss) (lv : level) :
  length (cls_p lv) = length (cls_t lv) ->
  criterion_sum criterion_loss (criterion self)
    (Py.select_mask (positives lv) (cls_p lv))
    (map ClassIndex (Py.select_mask (positives lv) (cls_t lv)))
  = Qsum (positive_losses criterion_loss self lv).
Proof.
  intros Hlen. unfold criterion_sum, positive_losses, anchor_indices.
  rewrite (select_mask_pred [] (positives lv) (cls_p lv) (is_positive lv))
    by (rewrite ?positives_length; auto using nth_positives).
  rewrite (select_mask_pred 0%Z (positives lv) (cls_t lv) (is_positive lv))
    by (rewrite ?positives_length; auto using nth_positives).
  rewrite positives_length, map_map, Py.combine_map_same, map_map.
  reflexivity.
Qed.

Lemma candidates_refine (lv : level) :
  length (cls_p lv) = length (cls_t lv) ->
  (forall ig, ignore lv = Some ig -> length ig = length (cls_t lv)) ->
  map (fun row => - nth 0 (log_softmax row) 0)
    (Py.select_mask
       match ignore lv with
       | Some ig => mask_and (map negb (positives lv)) (map negb ig)
       | None => map negb (positives lv)
       end (cls_p lv))
  = candidate_losses log_softmax lv.
Proof.
  intros Hlen Hig. unfold candidate_losses, anchor_indices, is_ignored.
  pose proof (positives_length lv) as Hpos.
  destruct (ignore lv) as [ig|] eqn:Eig.
  - specialize (Hig ig eq_refl).
    assert (Hm : length (mask_and (map negb (positives lv)) (map negb ig))
                 = length (cls_t lv)).
    { unfold mask_and. rewrite length_map, length_combine, !length_map. lia. }
    rewrite (select_mask_pred [] _ (cls_p lv)
               (fun j => negb (is_positive lv j) && negb (nth j ig false))).
    + rewrite Hm, map_map. reflexivity.
    + lia.
    + intros j Hj. rewrite Hm in Hj.
      rewrite nth_mask_and by (rewrite !length_map; lia).
      rewrite !nth_map_negb by lia.
      now rewrite nth_positives.
  - rewrite (select_mask_pred [] _ (cls_p lv)
               (fun j => negb (is_positive lv j) && negb false)).
    + rewrite length_map, Hpos, map_map. reflexivity.
    + rewrite length_map. lia.
    + intros j Hj. rewrite length_map in Hj.
      rewrite nth_map_negb by exact Hj.
      rewrite nth_positives. simpl. now rewrite andb_true_r.
Qed.

(** C4: with [neg_pos_ratio] set (to a positive ratio), a level with at
    least one positive anchor adds to [cls_loss] the sum of the criterion
    losses of its positive anchors plus the sum of the [k] largest
    background negative-log-softmax values among the anchors that are
    neither positive nor ignored, divided by the number of positives, with
    [k = min(neg_pos_ratio * num_pos, number of candidates)].  The level's
    tensors have one row per anchor. *)
Theorem hard_negative_mining_level_loss
  (self : MultiBoxLoss) (lv : level) (ratio : Z) :
  truthy (neg_pos_ratio self) = Some ratio ->
  (0 < ratio)%Z ->
  length (cls_p lv) = length (cls_t lv) ->
  (forall ig, ignore lv = Some ig -> length ig = length (cls_t lv)) ->
  (0 < count_positives lv)%Z ->
  exists top,
    k_largest
      (Z.to_nat (Z.min (ratio * count_positives lv)
                   (Z.of_nat (length (candidate_losses log_softmax lv)))))
      top (candidate_losses log_softmax lv) /\
    let cls := (Qsum (positive_losses criterion_loss self lv) + Qsum top)
               / inject_Z (count_positives lv) in
    level_cls_loss criterion_loss log_softmax self lv (positives lv)
      (count_positives lv) = Py.ret cls /\
    forall loc_loss cls_loss,
      level_step smooth_l1_loss_sum criterion_loss log_softmax self
        (loc_loss, cls_loss) lv
      = Py.ret
          (num_add loc_loss
             (Tensor (level_loc_loss smooth_l1_loss_sum lv (positives lv)
                        (count_positives lv))),
           num_add cls_loss (Tensor cls)).
Proof.
  intros Hratio Hpos_ratio Hlen Hig Hnum.
  set (cands := candidate_losses log_softmax lv).
  set (k := Z.min (ratio * count_positives lv) (Z.of_nat (length cands))).
  destruct (topk_k_largest cands k) as (top & Htop & Hk).
  { unfold k. nia. }
  exists top. split; [exact Hk|].
  assert (Hcls : level_cls_loss criterion_loss log_softmax self lv
                   (positives lv) (count_positives lv)
                 = Py.ret ((Qsum (positive_losses criterion_loss self lv)
                            + Qsum top) / inject_Z (count_positives lv))).
  { unfold level_cls_loss. rewrite Hratio.
    unfold hard_negative_cls_loss.
    rewrite positive_sum_refines by exact Hlen.
    rewrite candidates_refine by assumption.
    fold cands. fold k. rewrite Htop. reflexivity. }
  cbv zeta. split; [exact Hcls|].
  intros loc_loss cls_loss. unfold level_step.
  rewrite mask_count_positives.
  destruct (count_positives lv =? 0)%Z eqn:E; [apply Z.eqb_eq in E; lia|].
  rewrite Hcls. reflexivity.
Qed.

Lemma no_positive_count (lv : level) :
  Forall (fun c => c = 0%Z) (cls_t lv) -> mask_count (positives lv) = 0%Z.
Proof.
  unfold mask_count, positives. intros H.
  induction (cls_t lv) as [|c t IH]; [reflexivity|].
  inversion H as [|? ? Hc Ht]; subst. simpl. apply IH. exact Ht.
Qed.

Lemma levels_loop_skip (self : MultiBoxLoss) (lvs : list level)
  (st : num * num) :
  Forall (fun lv => Forall (fun c => c = 0%Z) (cls_t lv)) lvs ->
  levels_loop smooth_l1_loss_sum criterion_loss log_softmax self lvs st
  = Py.ret st.
Proof.
  intros H. induction lvs as [|lv rest IH]; [reflexivity|].
  inversion H as [|? ? Hlv Hrest]; subst.
  simpl. unfold level_step. destruct st as [loc_loss cls_loss].
  rewrite (no_positive_count lv Hlv). simpl.
  apply IH. exact Hrest.
Qed.

Lemma zip_levels_cls_t (P : list Z -> Prop) :
  forall loc_preds cls_preds loc_targets cls_targets ignores,
    Forall P cls_targets ->
    Forall (fun lv => P (cls_t lv))
      (zip_levels loc_preds cls_preds loc_targets cls_targets ignores).
Proof.
  induction loc_preds as [|lp lps IH];
    intros cls_preds loc_targets cls_targets ignores H; [constructor|].
  destruct cls_preds as [|cp cps]; [constructor|].
  destruct loc_targets as [|lt lts]; [constructor|].
  destruct cls_targets as [|ct cts]; [constructor|].
  destruct ignores as [|ig igs]; [constructor|].
  inversion H as [|? ? Hct Hcts]; subst.
  simpl. constructor; [exact Hct | apply IH; exact Hcts].
Qed.

(** C9: when every entry of every [cls_target] is 0 and [p] is 0, no
    level contributes and [forward] returns the integer 0 it started
    from, whatever the predictions are. *)
Theorem forward_without_positives_is_zero (self : MultiBoxLoss)
  (loc_preds cls_preds loc_targets : levels (list (list Q)))
  (cls_targets : levels (list Z))
  (ignores : option (list (option (list bool)))) (rnd : Q) :
  p self == 0 ->
  0 <= rnd ->
  Forall (Forall (fun c => c = 0%Z)) (_ensure_multi_level cls_targets) ->
  forward smooth_l1_loss_sum criterion_loss log_softmax self
    loc_preds cls_preds loc_targets cls_targets ignores rnd
  = Py.ret (PyInt 0).
Proof.
  intros Hp Hrnd Hzero. unfold forward.
  rewrite levels_loop_skip by (apply zip_levels_cls_t; exact Hzero).
  cbn [Py.bind Py.ret].
  assert (E : Qltb rnd (p self) = false).
  { apply Qltb_ge. rewrite Hp. exact Hrnd. }
  rewrite E. reflexivity.
Qed.

(** With a positive [p] the same call can fail: the debug print calls
    [.item()] on the integer accumulator. *)
Lemma forward_without_positives_print_raises (self : MultiBoxLoss)
  (loc_preds cls_preds loc_targets : levels (list (list Q)))
  (cls_targets : levels (list Z))
  (ignores : option (list (option (list bool)))) (rnd : Q) :
  rnd < p self ->
  Forall (Forall (fun c => c = 0%Z)) (_ensure_multi_level cls_targets) ->
  forward smooth_l1_loss_sum criterion_loss log_softmax self
    loc_preds cls_preds loc_targets cls_targets ignores rnd
  = Py.raise Py.AttributeError.
Proof.
  intros Hp Hzero. unfold forward.
  rewrite levels_loop_skip by (apply zip_levels_cls_t; exact Hzero).
  cbn [Py.bind Py.ret].
  apply Qltb_lt in Hp. rewrite Hp. reflexivity.
Qed.

End ForwardFacts.

(** C7: [__init__] raises [ValueError], and nothing else, exactly when
    [criterion] is neither ['softmax'] nor ['focal']; ['softmax'] binds
    the criterion to cross-entropy and ['focal'] to [focal_loss2]. *)
Theorem MultiBoxLoss_init_criterion (neg_pos_ratio : option Z) (p : Q)
  (criterion : string) :
  (MultiBoxLoss_init neg_pos_ratio p criterion = Py.raise Py.ValueError <->
   criterion <> "softmax"%string /\ criterion <> "focal"%string) /\
  (forall e, MultiBoxLoss_init neg_pos_ratio p criterion = Py.raise e ->
             e = Py.ValueError) /\
  MultiBoxLoss_init neg_pos_ratio p "softmax"
  = Py.ret (MkMultiBoxLoss neg_pos_ratio p cross_entropy) /\
  MultiBoxLoss_init neg_pos_ratio p "focal"
  = Py.ret (MkMultiBoxLoss neg_pos_ratio p focal_loss2).
Proof.
  unfold MultiBoxLoss_init.
  repeat split; try reflexivity.
  - destruct (String.eqb_spec criterion "softmax"); [discriminate | assumption].
  - destruct (String.eqb_spec criterion "softmax"); [discriminate|].
    destruct (String.eqb_spec criterion "focal"); [discriminate | assumption].
  - intros [H1 H2].
    destruct (String.eqb_spec criterion "softmax"); [contradiction|].
    destruct (String.eqb_spec criterion "focal"); [contradiction|].
    reflexivity.
  - intros e He.
    destruct (String.eqb criterion "softmax"); [discriminate|].
    destruct (String.eqb criterion "focal"); [discriminate|].
    injection He as <-. reflexivity.
Qed.

(** Concrete stand-ins for the framework functions, for the closed
    examples below. *)
Definition example_smooth_l1 (a b : list (list Q)) : Q := 0.
Definition example_criterion (c : criterion_fn) (row : list Q)
  (t : cls_target) : Q := nth 0 row 0.
Definition example_log_softmax (row : list Q) : list Q :=
  map (fun x => x - Qsum row) row.

Definition example_level : level :=
  MkLevel [[0]; [0]; [0]; [0]; [0]]
          [[1; 2]; [3; 1]; [0; 0]; [2; 2]; [5; 1]]
          [[0]; [0]; [0]; [0]; [0]]
          [1; 0; 0; 0; 0]%Z
          (Some [false; false; true; false; false]).

Definition example_loss : MultiBoxLoss :=
  MkMultiBoxLoss (Some 2%Z) (1 # 10) cross_entropy.

Lemma hard_negative_mining_level_loss_witness :
  exists top,
    k_largest
      (Z.to_nat (Z.min (2 * count_positives example_level)
                   (Z.of_nat (length (candidate_losses example_log_softmax
                                        example_level)))))
      top (candidate_losses example_log_softmax example_level) /\
    let cls := (Qsum (positive_losses example_criterion example_loss
                        example_level) + Qsum top)
               / inject_Z (count_positives example_level) in
    level_cls_loss example_criterion example_log_softmax example_loss
      example_level (positives example_level)
      (count_positives example_level) = Py.ret cls /\
    forall loc_loss cls_loss,
      level_step example_smooth_l1 example_criterion example_log_softmax
        example_loss (loc_loss, cls_loss) example_level
      = Py.ret
          (num_add loc_loss
             (Tensor (level_loc_loss example_smooth_l1 example_level
                        (positives example_level)
                        (count_positives example_level))),
           num_add cls_loss (Tensor cls)).
Proof.
  apply (hard_negative_mining_level_loss example_smooth_l1 example_criterion
           example_log_softmax example_loss example_level 2%Z).
  - reflexivity.
  - lia.
  - reflexivity.
  - intros ig H. injection H as <-. reflexivity.
  - vm_compute. reflexivity.
Defined.

Example hard_negative_mining_run :
  exists v,
    hard_negative_cls_loss example_criterion example_log_softmax example_loss
      example_level (positives example_level) 1 2 = Py.ret v /\ v == 4.
Proof. eexists. split; [reflexivity | reflexivity]. Qed.

Lemma forward_without_positives_is_zero_witness :
  forward example_smooth_l1 example_criterion example_log_softmax
    (MkMultiBoxLoss (Some 3%Z) 0 cross_entropy)
    (Multi [[[1; 2; 3; 4]]; [[0; 0; 1; 1]]])
    (Multi [[[1; 2]]; [[3; 4]]])
    (Multi [[[0; 0; 0; 0]]; [[0; 0; 0; 0]]])
    (Multi [[0%Z]; [0%Z]]) None (1 # 2)
  = Py.ret (PyInt 0).
Proof.
  apply (forward_without_positives_is_zero example_smooth_l1
           example_criterion example_log_softmax).
  - reflexivity.
  - discriminate.
  - repeat constructor.
Defined.

End Loss.

(** ** [MultiLevelAnchorMatching] *)

Module Matching.
Import QAux PyMax PyLoop Tensor Geometry.
Local Open Scope Q_scope.

(** An annotation: the dictionary entries the default [get_label] and
    [get_bbox] read. *)
Record ann : Type := MkAnn {
  ann_category_id : Z;
  ann_bbox : qbox
}.

(** An anchor tensor of shape [(lx, ly, #anchors, 4)]; [grid_rows] is its
    [view(-1, 4)]. *)
Record anchor_grid : Type := MkGrid {
  grid_lx : nat;
  grid_ly : nat;
  grid_rows : list qbox
}.

Record MultiLevelAnchorMatching : Type := MkMatching {
  anchors_of_level : list anchor_grid;
  max_iou : bool;
  pos_thresh : option Q;
  neg_thresh : option Q;
  get_label : ann -> Z;
  get_bbox : ann -> qbox;
  coords_to_target : qbox -> qbox -> nat * nat -> Coords.vec4;
  debug : bool
}.

(** [MultiLevelAnchorMatching.__init__] *)
Definition MultiLevelAnchorMatching_init
  (anchors_of_level : levels anchor_grid) (max_iou : bool)
  (pos_thresh neg_thresh : option Q) (get_label : ann -> Z)
  (get_bbox : ann -> qbox)
  (coords_to_target : qbox -> qbox -> nat * nat -> Coords.vec4)
  (debug : bool) : MultiLevelAnchorMatching :=
  MkMatching (_ensure_multi_level anchors_of_level) max_iou pos_thresh
    neg_thresh get_label get_bbox coords_to_target debug.

(** The default [coords_to_target] of the module; [*args] (the location)
    is not used. *)
Definition default_coords_to_target (gt_box anchor : qbox)
  (location : nat * nat) : Coords.vec4 :=
  Coords.coords_to_target (toR gt_box) (toR anchor).

(** [if x:] on an optional float: [None] and [0.0] are false. *)
Definition truthy (o : option Q) : option Q :=
  match o with
  | Some q => if Qeq_bool q 0 then None else Some q
  | None => None
  end.

(** One level of the working lists [flat_anchors], [locations],
    [loc_targets], [cls_targets] and [negs], which the first loop fills
    together and the second zips.  An entry of [negs] is a [torch.uint8]
    tensor that only ever holds ones and zeros, kept here as booleans. *)
Record level_state : Type := MkLevelState {
  anchors : list qbox;
  location : nat * nat;
  loc_t : list Coords.vec4;
  cls_t : list Z;
  neg : option (list bool)
}.

(** [l[i] = f(l[i])] on a list of levels. *)
Fixpoint update_nth {A : Type} (i : nat) (f : A -> A) (l : list A)
  {struct l} : list A :=
  match l, i with
  | [], _ => []
  | x :: t, O => f x :: t
  | x :: t, S i' => x :: update_nth i' f t
  end.

Section WithIoU.

(** [hutil.detection.iou.iou_1m(bbox, anchors, format=BBox.XYWH)] is not
    under src/: the IoU of one box with each anchor, given by a pairwise
    function. *)
Variable iou_xywh : qbox -> qbox -> Q.

(** [transform_bbox(b, BBox.LTWH, BBox.XYWH)], not under src/. *)
Variable transform_bbox : qbox -> qbox.

Definition iou_1m (bbox : qbox) (anchors : list qbox) : list Q :=
  map (iou_xywh bbox) anchors.

(** The first loop of [__call__]. *)
Definition initial_level (self : MultiLevelAnchorMatching) (g : anchor_grid)
  : level_state :=
  let num_anchors := length (grid_rows g) in
  MkLevelState (grid_rows g) (grid_lx g, grid_ly g)
    (repeat Coords.zeros4 num_anchors)
    (repeat 0%Z num_anchors)
    (match truthy (neg_thresh self) with
     | Some _ => Some (repeat true num_anchors)
     | None => None
     end).

Definition initial_levels (self : MultiLevelAnchorMatching)
  : list level_state :=
  map (initial_level self) (anchors_of_level self).

(** The body of the loop over the levels for one annotation; it returns
    the level and its entry of [max_ious]. *)
Definition level_pass (self : MultiLevelAnchorMatching) (label : Z)
  (bbox : qbox) (lv : level_state) : Py.result (level_state * (Q * nat)) :=
  let ious := iou_1m bbox (anchors lv) in
  mx <- tensor_max ious ;;
  let lv :=
    match truthy (pos_thresh self) with
    | Some pt =>
        let pos := map (fun v => Qltb pt v) ious in
        if existsb (fun b => b) pos then
          MkLevelState (anchors lv) (location lv)
            (mask_assign pos
               (map (fun a => coords_to_target self bbox a (location lv))
                    (Py.select_mask pos (anchors lv)))
               (loc_t lv))
            (mask_fill pos label (cls_t lv))
            (neg lv)
        else lv
    | None => lv
    end in
  let lv :=
    match truthy (neg_thresh self) with
    | Some nt =>
        MkLevelState (anchors lv) (location lv) (loc_t lv) (cls_t lv)
          (option_map
             (fun n => mask_and n (map (fun v => Qltb v nt) ious))
             (neg lv))
    | None => lv
    end in
  Py.ret (lv, mx).

(** [loc_targets[f_i][ind] = ...; cls_targets[f_i][ind] = label] *)
Definition assign_best (self : MultiLevelAnchorMatching) (label : Z)
  (bbox : qbox) (ind : nat) (lv : level_state) : level_state :=
  MkLevelState (anchors lv) (location lv)
    (Py.set_nth ind
       (coords_to_target self bbox (nth ind (anchors lv) (QBox 0 0 0 0))
          (location lv))
       (loc_t lv))
    (Py.set_nth ind label (cls_t lv))
    (neg lv).

(** The body of [for ann in anns]. *)
Definition ann_step (self : MultiLevelAnchorMatching)
  (lvs : list level_state) (a : ann) : Py.result (list level_state) :=
  let label := get_label self a in
  let bbox := transform_bbox (get_bbox self a) in
  r <- mapM (level_pass self label bbox) lvs ;;
  let lvs := map fst r in
  let max_ious := map snd r in
  best <- py_max_key (fun x => fst (snd x)) (Py.enumerate max_ious) ;;
  let '(f_i, (_, ind)) := best in
  Py.ret (update_nth f_i (assign_best self label bbox ind) lvs).

Fixpoint anns_loop (self : MultiLevelAnchorMatching) (anns : list ann)
  (lvs : list level_state) : Py.result (list level_state) :=
  match anns with
  | [] => Py.ret lvs
  | a :: rest => lvs' <- ann_step self lvs a ;; anns_loop self rest lvs'
  end.

(** The returned [targets]: a list per level, or the single level's
    tensors when there is one level. *)
Record targets : Type := MkTargets {
  loc_targets : levels (list Coords.vec4);
  cls_targets : levels (list Z);
  ignores : option (levels (list Z))
}.

(** [~neg] on an entry of a [torch.uint8] tensor that holds 0 or 1: the
    bitwise complement, 254 for a one and 255 for a zero. *)
Definition uint8_not (b : bool) : Z := if b then 254%Z else 255%Z.

Definition unwrap_single {A : Type} (l : list A) : levels A :=
  match l with
  | [x] => Single x
  | _ => Multi l
  end.

(** The end of [__call__]: the targets built from the working lists. *)
Definition targets_of (self : MultiLevelAnchorMatching)
  (lvs : list level_state) : targets :=
  let ignores :=
    match truthy (neg_thresh self) with
    | Some _ =>
        Some (unwrap_single
                (map (fun lv =>
                        match neg lv with
                        | Some n => map uint8_not n
                        | None => []
                        end) lvs))
    | None => None
    end in
  MkTargets (unwrap_single (map loc_t lvs)) (unwrap_single (map cls_t lvs))
    ignores.

(** [__call__(img, anns)]; the image is returned unchanged and is left
    out. *)
Definition call (self : MultiLevelAnchorMatching) (anns : list ann)
  : Py.result targets :=
  lvs <- anns_loop self anns (initial_levels self) ;;
  Py.ret (targets_of self lvs).

(** *** What one annotation's pass establishes *)

(** Both target lists of a level have one row per anchor. *)
Definition wf (lv : level_state) : Prop :=
  length (loc_t lv) = length (anchors lv) /\
  length (cls_t lv) = length (anchors lv).

(** There is a level, every level has an anchor, and the levels are
    well formed. *)
Definition good (lvs : list level_state) : Prop :=
  map anchors lvs <> [] /\
  Forall (fun a => a <> []) (map anchors lvs) /\
  Forall wf lvs.

(** The IoU of [bbox] with anchor [i] of level [f]. *)
Definition iou_at (bbox : qbox) (lvs : list level_state) (f i : nat)
  : option Q :=
  match nth_error lvs f with
  | Some lv => option_map (iou_xywh bbox) (nth_error (anchors lv) i)
  | None => None
  end.

(** Anchor [i] of level [f] has the greatest IoU [m] with [bbox] over all
    levels, and every anchor of an earlier level, or of the same level at
    a lower index, has a strictly smaller IoU. *)
Definition is_best (bbox : qbox) (lvs : list level_state) (f i : nat) (m : Q)
  : Prop :=
  iou_at bbox lvs f i = Some m /\
  forall f' i' v,
    iou_at bbox lvs f' i' = Some v ->
    v <= m /\ ((f' < f \/ (f' = f /\ i' < i))%nat -> v < m).

(** Anchor [i] of level [f] carries the label of [a] and the encoding of
    its box. *)
Definition assigned_to (self : MultiLevelAnchorMatching) (a : ann)
  (lvs : list level_state) (f i : nat) : Prop :=
  exists lv anc,
    nth_error lvs f = Some lv /\
    nth_error (anchors lv) i = Some anc /\
    nth_error (cls_t lv) i = Some (get_label self a) /\
    nth_error (loc_t lv) i
    = Some (coords_to_target self (transform_bbox (get_bbox self a)) anc
              (location lv)).

Lemma level_pass_inv (self : MultiLevelAnchorMatching) (label : Z)
  (bbox : qbox) (lv lv' : level_state) (mx : Q * nat) :
  level_pass self label bbox lv = Py.ret (lv', mx) ->
  anchors lv' = anchors lv /\
  location lv' = location lv /\
  length (loc_t lv') = length (loc_t lv) /\
  length (cls_t lv') = length (cls_t lv) /\
  tensor_max (iou_1m bbox (anchors lv)) = Py.ret mx.
Proof.
  unfold level_pass. intros H.
  destruct (tensor_max (iou_1m bbox (anchors lv))) as [e | mx'] eqn:E;
    [discriminate|].
  simpl in H. injection H as <- <-.
  destruct (truthy (pos_thresh self)) as [pt|];
    destruct (truthy (neg_thresh self)) as [nt|];
    try destruct (existsb _ _); simpl;
    rewrite ?mask_assign_length, ?mask_fill_length; auto.
Qed.

Lemma level_pass_total (self : MultiLevelAnchorMatching) (label : Z)
  (bbox : qbox) (lv : level_state) :
  anchors lv <> [] -> exists r, level_pass self label bbox lv = Py.ret r.
Proof.
  intros Hne. unfold level_pass.
  destruct (tensor_max_nonempty (iou_1m bbox (anchors lv))) as [mx E].
  { unfold iou_1m. destruct (anchors lv); [contradiction | discriminate]. }
  rewrite E. simpl. eexists. reflexivity.
Qed.

Lemma Forall2_nth_error_l {A B : Type} (R : A -> B -> Prop)
  (l1 : list A) (l2 : list B) :
  Forall2 R l1 l2 ->
  forall k x, nth_error l1 k = Some x ->
              exists y, nth_error l2 k = Some y /\ R x y.
Proof.
  induction 1 as [|a b l1 l2 Hab _ IH]; intros k x Hk.
  - destruct k; discriminate.
  - destruct k as [|k]; simpl in *.
    + injection Hk as <-. now exists b.
    + apply IH. exact Hk.
Qed.

Lemma Forall2_nth_error_r {A B : Type} (R : A -> B -> Prop)
  (l1 : list A) (l2 : list B) :
  Forall2 R l1 l2 ->
  forall k y, nth_error l2 k = Some y ->
              exists x, nth_error l1 k = Some x /\ R x y.
Proof.
  induction 1 as [|a b l1 l2 Hab _ IH]; intros k y Hk.
  - destruct k; discriminate.
  - destruct k as [|k]; simpl in *.
    + injection Hk as <-. now exists a.
    + apply IH. exact Hk.
Qed.

Lemma Forall2_map_eq {A B C : Type} (g : A -> C) (h : B -> C)
  (l1 : list A) (l2 : list B) :
  Forall2 (fun x y => h y = g x) l1 l2 -> map h l2 = map g l1.
Proof.
  induction 1 as [|a b l1 l2 Hab _ IH]; simpl; [reflexivity | congruence].
Qed.

Lemma nth_error_update_nth_eq {A : Type} (f : A -> A) (l : list A) :
  forall i, nth_error (update_nth i f l) i = option_map f (nth_error l i).
Proof.
  induction l as [|x t IH]; intros i; destruct i; simpl; auto.
Qed.

Lemma map_update_nth {A B : Type} (g : A -> B) (f : A -> A) (l : list A) :
  (forall x, g (f x) = g x) ->
  forall i, map g (update_nth i f l) = map g l.
Proof.
  intros Hg. induction l as [|x t IH]; intros i; destruct i; simpl;
    try reflexivity; [now rewrite Hg | now rewrite IH].
Qed.

Lemma Forall_update_nth {A : Type} (P : A -> Prop) (f : A -> A)
  (l : list A) :
  (forall x, P x -> P (f x)) -> Forall P l ->
  forall i, Forall P (update_nth i f l).
Proof.
  intros Hf Hl. induction Hl as [|x t Hx Ht IH]; intros i; destruct i; simpl;
    constructor; auto.
Qed.

(** One annotation's pass: it returns on good levels, keeps them good, and
    leaves the best anchor holding the annotation's label and encoding. *)
Lemma ann_step_spec (self : MultiLevelAnchorMatching)
  (lvs : list level_state) (a : ann) :
  good lvs ->
  exists lvs' f i m,
    ann_step self lvs a = Py.ret lvs' /\
    map anchors lvs' = map anchors lvs /\
    map location lvs' = map location lvs /\
    good lvs' /\
    is_best (transform_bbox (get_bbox self a)) lvs' f i m /\
    assigned_to self a lvs' f i.
Proof.
  intros (Hne & Hanc & Hwf).
  set (label := get_label self a).
  set (bbox := transform_bbox (get_bbox self a)).
  (* the pass over the levels returns *)
  destruct (mapM_total (level_pass self label bbox) lvs) as [r Hr].
  { intros lv Hlv. apply level_pass_total.
    rewrite Forall_forall in Hanc. apply Hanc. now apply in_map. }
  pose proof (mapM_Forall2 _ _ _ Hr) as HF.
  assert (Hpoint : Forall2
            (fun lv y => anchors (fst y) = anchors lv /\
                         location (fst y) = location lv /\
                         length (loc_t (fst y)) = length (loc_t lv) /\
                         length (cls_t (fst y)) = length (cls_t lv) /\
                         tensor_max (iou_1m bbox (anchors lv)) = Py.ret (snd y))
            lvs r).
  { eapply Forall2_impl; [|exact HF].
    intros lv [lv' mx] H. simpl. apply (level_pass_inv self label bbox). exact H. }
  assert (Hanchors : map anchors (map fst r) = map anchors lvs).
  { rewrite map_map. apply Forall2_map_eq.
    eapply Forall2_impl; [|exact Hpoint]. intros lv y H. apply H. }
  assert (Hlocs : map location (map fst r) = map location lvs).
  { rewrite map_map. apply Forall2_map_eq.
    eapply Forall2_impl; [|exact Hpoint]. intros lv y H. apply H. }
  assert (Hwf1 : Forall wf (map fst r)).
  { apply Forall_forall. intros lv1 Hin.
    apply in_map_iff in Hin. destruct Hin as (y & <- & Hy).
    apply In_nth_error in Hy. destruct Hy as [k Hk].
    destruct (Forall2_nth_error_r _ _ _ Hpoint k y Hk)
      as (lv & Hlv & Ha & _ & Hl & Hc & _).
    rewrite Forall_forall in Hwf.
    destruct (Hwf lv (nth_error_In _ _ Hlv)) as [W1 W2].
    unfold wf. rewrite Ha, Hl, Hc. auto. }
  (* the best level *)
  assert (Hrne : Py.enumerate (map snd r) <> []).
  { destruct r as [|y r]; [|discriminate].
    inversion HF; subst. simpl in Hne. contradiction. }
  destruct (py_max_key_nonempty (fun x : nat * (Q * nat) => fst (snd x))
              _ Hrne) as [[f [m i]] Hbest].
  pose proof (max_enumerate_key_spec (@fst Q nat) (map snd r) f (m, i) Hbest)
    as (Hf & Hle & Hlt).
  simpl in Hle, Hlt.
  assert (Hrf : exists lv1, nth_error r f = Some (lv1, (m, i))).
  { rewrite nth_error_map in Hf.
    destruct (nth_error r f) as [[lv1 mx]|]; [|discriminate].
    simpl in Hf. injection Hf as ->. now exists lv1. }
  destruct Hrf as [lv1 Hrf].
  destruct (Forall2_nth_error_r _ _ _ Hpoint f _ Hrf)
    as (lv & Hlv & Ha1 & Hloc1 & Hl1 & Hc1 & Hmax).
  simpl in Ha1, Hloc1, Hl1, Hc1, Hmax.
  destruct (tensor_max_spec _ _ _ Hmax) as (Hi & Hile & Hilt).
  unfold iou_1m in Hi. rewrite nth_error_map in Hi.
  destruct (nth_error (anchors lv) i) as [anc|] eqn:Eanc; [|discriminate].
  simpl in Hi. injection Hi as Hm.
  assert (Hilen : (i < length (anchors lv))%nat).
  { apply nth_error_Some. rewrite Eanc. discriminate. }
  rewrite Forall_forall in Hwf.
  destruct (Hwf lv (nth_error_In _ _ Hlv)) as [W1 W2].
  (* the result *)
  set (lvs' := update_nth f (assign_best self label bbox i) (map fst r)).
  assert (Hanchors' : map anchors lvs' = map anchors lvs).
  { unfold lvs'. rewrite map_update_nth by reflexivity. exact Hanchors. }
  exists lvs', f, i, m.
  split.
  { unfold ann_step. fold label. fold bbox. rewrite Hr. cbn [Py.bind Py.ret].
    rewrite Hbest. reflexivity. }
  split; [exact Hanchors'|].
  split.
  { unfold lvs'. rewrite map_update_nth by reflexivity. exact Hlocs. }
  split.
  { unfold good. rewrite Hanchors'. repeat split; try assumption.
    unfold lvs'. apply Forall_update_nth; [|exact Hwf1].
    intros x [X1 X2]. unfold wf, assign_best. simpl.
    rewrite !Py.set_nth_length. auto. }
  assert (Hat : forall f' i',
             iou_at bbox lvs' f' i' = iou_at bbox lvs f' i').
  { intros f' i'. unfold iou_at.
    pose proof (f_equal (fun l => nth_error l f') Hanchors') as Hn.
    simpl in Hn. rewrite !nth_error_map in Hn.
    destruct (nth_error lvs' f') as [x|], (nth_error lvs f') as [y|];
      simpl in Hn; try discriminate; [|reflexivity].
    injection Hn as ->. reflexivity. }
  split.
  - (* is_best *)
    unfold is_best. rewrite !Hat. split.
    + unfold iou_at. rewrite Hlv, Eanc. simpl. now rewrite Hm.
    + intros f' i' v. rewrite Hat. unfold iou_at. intros Hv.
      destruct (nth_error lvs f') as [lv'|] eqn:Elv'; [|discriminate].
      destruct (nth_error (anchors lv') i') as [anc'|] eqn:Eanc';
        [|discriminate].
      simpl in Hv. injection Hv as Hv.
      destruct (Forall2_nth_error_l _ _ _ Hpoint f' lv' Elv')
        as ([lv1' [m' j']] & Hr' & _ & _ & _ & _ & Hmax').
      simpl in Hmax'.
      destruct (tensor_max_spec _ _ _ Hmax') as (_ & Hile' & Hilt').
      assert (Hv' : nth_error (iou_1m bbox (anchors lv')) i' = Some v).
      { unfold iou_1m. rewrite nth_error_map, Eanc'. simpl. now rewrite Hv. }
      assert (Hsnd : nth_error (map snd r) f' = Some (m', j')).
      { rewrite nth_error_map, Hr'. reflexivity. }
      split.
      * eapply Qle_trans; [exact (Hile' _ _ Hv') | exact (Hle _ _ Hsnd)].
      * intros [Hlt' | [-> Hlt']].
        -- eapply Qle_lt_trans; [exact (Hile' _ _ Hv')|].
           exact (Hlt _ _ Hlt' Hsnd).
        -- rewrite Hlv in Elv'. injection Elv' as <-.
           exact (Hilt _ _ Hlt' Hv').
  - (* assigned_to *)
    unfold assigned_to.
    exists (assign_best self label bbox i lv1), anc.
    assert (Hfst : nth_error (map fst r) f = Some lv1).
    { rewrite nth_error_map, Hrf. reflexivity. }
    split.
    { unfold lvs'. rewrite nth_error_update_nth_eq, Hfst. reflexivity. }
    unfold assign_best. simpl. rewrite Ha1, Hloc1.
    split; [exact Eanc|]. split.
    + apply Py.nth_error_set_nth_eq. lia.
    + rewrite (Py.nth_error_nth_default _ _ _ (QBox 0 0 0 0) Eanc).
      apply Py.nth_error_set_nth_eq. lia.
Qed.

Lemma anns_loop_app (self : MultiLevelAnchorMatching) (anns1 anns2 : list ann) :
  forall lvs,
    anns_loop self (anns1 ++ anns2) lvs
    = (lvs' <- anns_loop self anns1 lvs ;; anns_loop self anns2 lvs').
Proof.
  induction anns1 as [|a rest IH]; intros lvs; simpl; [reflexivity|].
  destruct (ann_step self lvs a) as [e | lvs1]; simpl; [reflexivity | apply IH].
Qed.

Lemma anns_loop_good (self : MultiLevelAnchorMatching) (anns : list ann) :
  forall lvs,
    good lvs ->
    exists lvs',
      anns_loop self anns lvs = Py.ret lvs' /\
      map anchors lvs' = map anchors lvs /\
      map location lvs' = map location lvs /\
      good lvs'.
Proof.
  induction anns as [|a rest IH]; intros lvs Hgood; simpl.
  - exists lvs. auto.
  - destruct (ann_step_spec self lvs a Hgood)
      as (lvs1 & f & i & m & Hstep & Ha & Hl & Hg & _).
    rewrite Hstep. simpl.
    destruct (IH lvs1 Hg) as (lvs' & Hloop & Ha' & Hl' & Hg').
    exists lvs'.
    split; [exact Hloop|]. split; [congruence|]. split; [congruence | exact Hg'].
Qed.

Lemma initial_levels_good (self : MultiLevelAnchorMatching) :
  anchors_of_level self <> [] ->
  Forall (fun g => grid_rows g <> []) (anchors_of_level self) ->
  good (initial_levels self) /\
  map anchors (initial_levels self) = map grid_rows (anchors_of_level self).
Proof.
  intros Hne Hrows.
  assert (Hmap : map anchors (initial_levels self)
                 = map grid_rows (anchors_of_level self)).
  { unfold initial_levels. rewrite map_map. reflexivity. }
  split; [|exact Hmap].
  unfold good. rewrite Hmap. repeat split.
  - destruct (anchors_of_level self); [contradiction | discriminate].
  - apply Forall_map. exact Hrows.
  - unfold initial_levels. apply Forall_map. apply Forall_forall.
    intros g _. unfold wf, initial_level. simpl.
    now rewrite !repeat_length.
Qed.

End WithIoU.

(** Two levels: two small anchors, then one large anchor. *)
Definition example_matching : MultiLevelAnchorMatching :=
  MkMatching
    [MkGrid 1 2 [QBox 1 1 2 2; QBox 5 5 2 2]; MkGrid 1 1 [QBox 3 3 6 6]]
    true (Some (1 # 2)) None ann_category_id ann_bbox
    default_coords_to_target false.

(** The [cls_targets] of the levels, when the loop returns. *)
Definition cls_of (r : Py.result (list level_state)) : option (list (list Z)) :=
  match r with
  | inr lvs => Some (map cls_t lvs)
  | inl _ => None
  end.

(** A box whose best IoU (3/10, with the large anchor) is below
    [pos_thresh = 1/2] still marks that anchor. *)
Example max_iou_below_pos_thresh :
  cls_of (anns_loop iou_xywh ltwh_to_xywh example_matching
            [MkAnn 7 (QBox 0 0 2 8)] (initial_levels example_matching))
  = Some [[0; 0]; [7]]%Z.
Proof. reflexivity. Qed.

(** A later annotation with the same best anchor replaces the label the
    earlier one left there. *)
Example later_annotation_overwrites :
  cls_of (anns_loop iou_xywh ltwh_to_xywh example_matching
            [MkAnn 3 (QBox 0 0 2 2); MkAnn 7 (QBox 0 0 2 3)]
            (initial_levels example_matching))
  = Some [[7; 0]; [0]]%Z.
Proof. reflexivity. Qed.

End Matching.

(** ** [match_anchors] and [match_anchors2] of e2e.py *)

Module E2E.
Import QAux PyMax PyLoop Tensor Geometry.
Local Open Scope Q_scope.

(** An annotation dictionary: ['bbox'] in [LTWH] format, and the entry the
    default [get_label] reads. *)
Record ann : Type := MkAnn {
  ann_bbox : qbox;
  ann_category_id : Z
}.

(** The returned [target] list: [[loc_t, cls_t]], with the ignore mask
    appended when [neg_thresh] is set. *)
Record target : Type := MkTarget {
  loc_t : list Coords.vec4;
  cls_t : list Z;
  ignore : option (list bool)
}.

(** [coords_to_target(gt_box, anchors)] on one box and one anchor row. *)
Definition coords_to_target (gt_box anchor : qbox) : Coords.vec4 :=
  Coords.coords_to_target (toR gt_box) (toR anchor).

(** [coords_to_target2(bboxes, anchors)]: entry [[i][j]] encodes box [i]
    against anchor [j]. *)
Definition coords_to_target2 (bboxes anchors : list qbox)
  : list (list Coords.vec4) :=
  map (fun b => map (fun a => coords_to_target b a) anchors) bboxes.

(** [if neg_thresh:] *)
Definition truthy (o : option Q) : option Q :=
  match o with
  | Some q => if Qeq_bool q 0 then None else Some q
  | None => None
  end.

(** Column [j] of a matrix given by rows. *)
Definition column {A : Type} (d : A) (M : list (list A)) (j : nat) : list A :=
  map (fun row => nth j row d) M.

(** A one-dimensional integer [t.max(dim=0)]: the maximum and the index
    of its first occurrence. *)
Definition tensor_max_Z (l : list Z) : Py.result (Z * nat) :=
  match py_max_key (fun x : nat * Z => inject_Z (snd x)) (Py.enumerate l) with
  | inl _ => Py.raise Py.IndexError
  | inr (i, v) => Py.ret (v, i)
  end.

(** [t[indices] = values] for an index tensor: the rows are written in
    order, so a repeated index keeps the last value. *)
Definition index_put {A : Type} (indices : list nat) (values l : list A)
  : list A :=
  fold_left (fun acc iv => Py.set_nth (fst iv) (snd iv) acc)
            (combine indices values) l.

(** Modelled from the spec: [select] of [horch.common] is not under src/
    and the spec does not describe it; its two uses fix the shapes.
    [select(t, 0, indices)] takes, for each position [j] of dimension 1,
    the entry [t[indices[j]][j]]; [select(t, 1, indices)] takes, for each
    row [i], the entry [t[i][indices[i]]]. *)
Definition select0 (t : list (list Coords.vec4)) (indices : list nat)
  : list Coords.vec4 :=
  map (fun ji => nth (fst ji) (nth (snd ji) t []) Coords.zeros4)
      (Py.enumerate indices).

Definition select1 (t : list (list Coords.vec4)) (indices : list nat)
  : list Coords.vec4 :=
  map (fun ri => nth (snd ri) (fst ri) Coords.zeros4) (combine t indices).

(** [(cls_t == 0) & ((ious >= neg_thresh).sum(dim=0) != 0)] *)
Definition ignore_mask (cls_t : list Z) (ious : list (list Q)) (nt : Q)
  : list bool :=
  map (fun jc =>
         (snd jc =? 0)%Z
         && negb (length (filter (fun v => Qle_bool nt v)
                            (column 0%Q ious (fst jc))) =? 0)%nat)
      (Py.enumerate cls_t).

Section WithIoU.

(** [BBox.convert(b, BBox.LTWH, BBox.XYWH)] and
    [BBox.convert(b, BBox.XYWH, BBox.LTRB)] of [horch.detection.bbox], not
    under src/. *)
Variable convert_ltwh_xywh : qbox -> qbox.
Variable convert_xywh_ltrb : qbox -> qbox.

(** [iou_mn] of [horch.detection.iou], not under src/: the matrix of the
    pairwise IoUs. *)
Variable iou_ltrb : qbox -> qbox -> Q.

Definition iou_mn (bboxes anchors : list qbox) : list (list Q) :=
  map (fun b => map (iou_ltrb b) anchors) bboxes.

(** The part both functions share: the boxes, the labels and the IoU
    matrix. *)
Definition bboxes_of (anns : list ann) : list qbox :=
  map (fun a => convert_ltwh_xywh (ann_bbox a)) anns.

Definition ious_of (anns : list ann) (a_ltrb : list qbox) : list (list Q) :=
  iou_mn (map convert_xywh_ltrb (bboxes_of anns)) a_ltrb.

(** [pos = ious > pos_thresh] *)
Definition pos_of (ious : list (list Q)) (pos_thresh : Q)
  : list (list bool) :=
  map (map (fun v => Qltb pos_thresh v)) ious.

(** The result for an empty annotation list. *)
Definition empty_target (num_anchors : nat) (neg_thresh : option Q)
  : target :=
  MkTarget (repeat Coords.zeros4 num_anchors) (repeat 0%Z num_anchors)
    (match truthy neg_thresh with
     | Some _ => Some (repeat false num_anchors)
     | None => None
     end).

(** The body of [for ipos, bbox, label in zip(pos, bboxes, labels)]. *)
Definition loop_step (a_xywh : list qbox)
  (st : list Coords.vec4 * list Z) (x : list bool * (qbox * Z))
  : list Coords.vec4 * list Z :=
  let '(loc_t, cls_t) := st in
  let '(ipos, (bbox, label)) := x in
  (mask_assign ipos
     (map (coords_to_target bbox) (Py.select_mask ipos a_xywh)) loc_t,
   mask_fill ipos label cls_t).

(** [match_anchors], the loop version. *)
Definition match_anchors (anns : list ann) (a_xywh a_ltrb : list qbox)
  (pos_thresh : Q) (neg_thresh : option Q) (get_label : ann -> Z)
  : Py.result target :=
  let num_anchors := length a_xywh in
  let loc_t := repeat Coords.zeros4 num_anchors in
  let cls_t := repeat 0%Z num_anchors in
  match anns with
  | [] => Py.ret (empty_target num_anchors neg_thresh)
  | _ =>
      let bboxes := bboxes_of anns in
      let labels := map get_label anns in
      let ious := ious_of anns a_ltrb in
      let pos := pos_of ious pos_thresh in
      let '(loc_t, cls_t) :=
        fold_left (loop_step a_xywh)
          (combine pos (combine bboxes labels)) (loc_t, cls_t) in
      mx <- mapM tensor_max ious ;;
      let indices := map snd mx in
      let loc_t :=
        index_put indices
          (map (fun bi => coords_to_target (fst bi)
                            (nth (snd bi) a_xywh (QBox 0 0 0 0)))
               (combine bboxes indices))
          loc_t in
      let cls_t := index_put indices labels cls_t in
      Py.ret (MkTarget loc_t cls_t
                (option_map (ignore_mask cls_t ious) (truthy neg_thresh)))
  end.

(** [match_anchors2], the vectorized version. *)
Definition match_anchors2 (anns : list ann) (a_xywh a_ltrb : list qbox)
  (pos_thresh : Q) (neg_thresh : option Q) (get_label : ann -> Z)
  : Py.result target :=
  let num_anchors := length a_xywh in
  match anns with
  | [] => Py.ret (empty_target num_anchors neg_thresh)
  | _ =>
      let bboxes := bboxes_of anns in
      let labels := map get_label anns in
      let ious := ious_of anns a_ltrb in
      let pos := pos_of ious pos_thresh in
      let weighted :=
        map (fun rl => map (fun b : bool => ((if b then 1 else 0) * snd rl)%Z)
                           (fst rl))
            (combine pos labels) in
      cm <- mapM (fun j => tensor_max_Z (column 0%Z weighted j))
              (seq 0 (length a_ltrb)) ;;
      let cls_t := map fst cm in
      let indices := map snd cm in
      let loc_t_all := coords_to_target2 bboxes a_xywh in
      let loc_t := select0 loc_t_all indices in
      mx <- mapM tensor_max ious ;;
      let max_indices := map snd mx in
      let loc_t := index_put max_indices (select1 loc_t_all max_indices) loc_t in
      let cls_t := index_put max_indices labels cls_t in
      Py.ret (MkTarget loc_t cls_t
                (option_map (ignore_mask cls_t ious) (truthy neg_thresh)))
  end.

(** [MatchAnchors.__call__] picks the function by the device of the
    anchors alone, and [MatchAnchors.__init__] fixes [get_label] to the
    constant 1. *)
Definition match_func (is_cpu : bool) :=
  if is_cpu then match_anchors else match_anchors2.

Definition MatchAnchors_get_label (x : ann) : Z := 1%Z.

End WithIoU.

Definition example_anns : list ann := [MkAnn (QBox 0 0 2 2) 1].
Definition example_a_xywh : list qbox := [QBox 1 1 2 2; QBox 5 5 2 2].
Definition example_a_ltrb : list qbox := [QBox 0 0 2 2; QBox 4 4 6 6].

Example match_anchors_example_cls :
  option_map cls_t
    (match match_anchors ltwh_to_xywh xywh_to_ltrb Geometry.iou_ltrb
             example_anns example_a_xywh example_a_ltrb (1 # 2) None
             MatchAnchors_get_label with
     | inr r => Some r
     | inl _ => None
     end) = Some [1; 0]%Z.
Proof. reflexivity. Qed.

(** Row [j] of the returned [loc_t]. *)
Definition loc_row (r : Py.result target) (j : nat) : option Coords.vec4 :=
  match r with
  | inr t => nth_error (loc_t t) j
  | inl _ => None
  end.



(** *** Where the two versions agree *)

(** The index of the first, and of the last, [true] of a list. *)
Fixpoint first_true (l : list bool) : option nat :=
  match l with
  | [] => None
  | b :: t => if b then Some 0%nat else option_map S (first_true t)
  end.

Fixpoint last_true (l : list bool) : option nat :=
  match l with
  | [] => None
  | b :: t =>
      match last_true t with
      | Some k => Some (S k)
      | None => if b then Some 0%nat else None
      end
  end.

(** For each annotation, whether its IoU with anchor [j] is above
    [pos_thresh]: column [j] of [pos]. *)
Definition positive_column (ious : list (list Q)) (pos_thresh : Q) (j : nat)
  : list bool :=
  map (fun row =>
         match nth_error row j with
         | Some v => Qltb pos_thresh v
         | None => false
         end) ious.


(** Anchor [j] has the greatest IoU with some annotation: [j] occurs in
    the indices of [ious.max(dim=1)]. *)
Definition is_max_anchor (ious : list (list Q)) (j : nat) : Prop :=
  exists mx, mapM tensor_max ious = Py.ret mx /\ In j (map snd mx).

Lemma first_true_spec (l : list bool) (i : nat) :
  first_true l = Some i ->
  nth i l false = true /\ forall k, (k < i)%nat -> nth k l false = false.
Proof.
  revert i. induction l as [|b t IH]; intros i H; simpl in H; [discriminate|].
  destruct b.
  - injection H as <-. split; [reflexivity | intros k Hk; lia].
  - destruct (first_true t) as [i'|]; [|discriminate].
    simpl in H. injection H as <-.
    destruct (IH i' eq_refl) as [H1 H2].
    split; [exact H1|].
    intros k Hk. destruct k as [|k]; [reflexivity|].
    simpl. apply H2. lia.
Qed.

Lemma first_true_none (l : list bool) :
  first_true l = None -> forall k, nth k l false = false.
Proof.
  induction l as [|b t IH]; intros H k; [destruct k; reflexivity|].
  simpl in H. destruct b; [discriminate|].
  destruct (first_true t); [discriminate|].
  destruct k as [|k]; [reflexivity | simpl; apply IH; reflexivity].
Qed.

Lemma first_last_none (l : list bool) :
  first_true l = None <-> last_true l = None.
Proof.
  induction l as [|b t IH]; simpl; [tauto|].
  destruct b.
  - split; [discriminate|].
    destruct (last_true t); discriminate.
  - destruct (first_true t), (last_true t); simpl; split; intros H;
      try discriminate; try reflexivity.
    + destruct IH as [_ IH]. discriminate IH. reflexivity.
    + destruct IH as [IH _]. discriminate IH. reflexivity.
Qed.

Lemma first_true_lt (l : list bool) (i : nat) :
  first_true l = Some i -> (i < length l)%nat.
Proof.
  revert i. induction l as [|b t IH]; intros i H; simpl in H; [discriminate|].
  destruct b.
  - injection H as <-. simpl. lia.
  - destruct (first_true t) as [i'|]; [|discriminate].
    simpl in H. injection H as <-. simpl. specialize (IH i' eq_refl). lia.
Qed.

Lemma mask_assign_nth {A B : Type} (f : B -> A) (l : list A) :
  forall (ipos : list bool) (a : list B) j x aj,
    length ipos = length l -> length a = length l ->
    nth_error l j = Some x -> nth_error a j = Some aj ->
    nth_error
      (mask_assign ipos (map f (Py.select_mask ipos a)) l) j
    = Some (if nth j ipos false then f aj else x).
Proof.
  induction l as [|y t IH]; intros ipos a j x aj Hi Ha Hx Haj.
  - destruct j; discriminate.
  - destruct ipos as [|b ipos]; [discriminate|].
    destruct a as [|a0 a]; [discriminate|].
    simpl in Hi, Ha. injection Hi as Hi. injection Ha as Ha.
    destruct j as [|j]; simpl in Hx, Haj.
    + injection Hx as <-. injection Haj as <-.
      destruct b; reflexivity.
    + destruct b; simpl; apply IH; assumption.
Qed.

Lemma mask_fill_nth {A : Type} (v : A) (l : list A) :
  forall (ipos : list bool) j x,
    nth_error l j = Some x ->
    nth_error (mask_fill ipos v l) j
    = Some (if nth j ipos false then v else x).
Proof.
  induction l as [|y t IH]; intros ipos j x Hx.
  - destruct j; discriminate.
  - destruct ipos as [|b ipos].
    + simpl. destruct j; exact Hx.
    + destruct j as [|j]; simpl in *.
      * now injection Hx as <-.
      * apply IH. exact Hx.
Qed.


Lemma nth_error_ext {A : Type} (l1 l2 : list A) :
  (forall j, nth_error l1 j = nth_error l2 j) -> l1 = l2.
Proof.
  revert l2. induction l1 as [|x t IH]; intros l2 H.
  - destruct l2 as [|y l2]; [reflexivity|]. specialize (H 0%nat). discriminate.
  - destruct l2 as [|y l2]; [specialize (H 0%nat); discriminate|].
    pose proof (H 0%nat) as H0. simpl in H0. injection H0 as <-.
    f_equal. apply IH. intros j. exact (H (S j)).
Qed.

Lemma last_true_lt (l : list bool) (i : nat) :
  last_true l = Some i -> (i < length l)%nat.
Proof.
  revert i. induction l as [|b t IH]; intros i H; simpl in H; [discriminate|].
  destruct (last_true t) as [k|].
  - injection H as <-. simpl. specialize (IH k eq_refl). lia.
  - destruct b; [|discriminate]. injection H as <-. simpl. lia.
Qed.

Lemma nth_map_nth_error {A B : Type} (f : A -> B) (l : list A) (j : nat)
  (d : B) :
  nth j (map f l) d
  = match nth_error l j with Some x => f x | None => d end.
Proof.
  revert j. induction l as [|x t IH]; intros j; destruct j; simpl; auto.
Qed.

Lemma mapM_pure {A B : Type} (f : A -> Py.result B) (g : A -> B)
  (l : list A) :
  (forall x, In x l -> f x = Py.ret (g x)) -> mapM f l = Py.ret (map g l).
Proof.
  induction l as [|x t IH]; intros H; simpl; [reflexivity|].
  rewrite (H x) by now left. simpl.
  rewrite IH by (intros y Hy; apply H; now right). reflexivity.
Qed.

Section Agreement.
Variable convert_ltwh_xywh : qbox -> qbox.
Variable convert_xywh_ltrb : qbox -> qbox.
Variable iou_ltrb : qbox -> qbox -> Q.
Variable a_xywh a_ltrb : list qbox.
Variable pos_thresh : Q.
Variable get_label : ann -> Z.

(** The box, the IoU row and the row of [pos] of one annotation. *)
Definition box_of (a : ann) : qbox := convert_ltwh_xywh (ann_bbox a).

Definition iou_row (a : ann) : list Q :=
  map (iou_ltrb (convert_xywh_ltrb (box_of a))) a_ltrb.

Definition pos_row (a : ann) : list bool :=
  map (fun v => Qltb pos_thresh v) (iou_row a).

Definition loop_row (a : ann) : list bool * (qbox * Z) :=
  (pos_row a, (box_of a, get_label a)).

Lemma ious_of_map (anns : list ann) :
  ious_of convert_ltwh_xywh convert_xywh_ltrb iou_ltrb anns a_ltrb
  = map iou_row anns.
Proof.
  unfold ious_of, iou_mn, bboxes_of. rewrite !map_map. reflexivity.
Qed.

Lemma loop_rows_map (anns : list ann) :
  combine (pos_of (map iou_row anns) pos_thresh)
    (combine (bboxes_of convert_ltwh_xywh anns) (map get_label anns))
  = map loop_row anns.
Proof.
  unfold pos_of, bboxes_of. rewrite map_map.
  rewrite Py.combine_map_same.
  rewrite (Py.combine_map_same
             (fun a => map (fun v => Qltb pos_thresh v) (iou_row a))
             (fun a => (convert_ltwh_xywh (ann_bbox a), get_label a))).
  reflexivity.
Qed.

Lemma positive_column_map (anns : list ann) (j : nat) :
  positive_column (map iou_row anns) pos_thresh j
  = map (fun a => nth j (pos_row a) false) anns.
Proof.
  unfold positive_column. rewrite map_map. apply map_ext. intros a.
  unfold pos_row. rewrite nth_map_nth_error. reflexivity.
Qed.

(** What the loop leaves at anchor [j], as a fold over the annotations. *)
Definition point_step (j : nat) (aj : qbox) (acc : Coords.vec4 * Z)
  (x : list bool * (qbox * Z)) : Coords.vec4 * Z :=
  if nth j (fst x) false
  then (coords_to_target (fst (snd x)) aj, snd (snd x))
  else acc.

Lemma loop_fold_length (rows : list (list bool * (qbox * Z))) :
  forall loc cls,
    length (fst (fold_left (loop_step a_xywh) rows (loc, cls))) = length loc /\
    length (snd (fold_left (loop_step a_xywh) rows (loc, cls))) = length cls.
Proof.
  induction rows as [|[ipos [b lab]] rest IH]; intros loc cls; simpl; [auto|].
  destruct (IH (mask_assign ipos
                  (map (coords_to_target b) (Py.select_mask ipos a_xywh)) loc)
               (mask_fill ipos lab cls)) as [H1 H2].
  rewrite H1, H2, mask_assign_length, mask_fill_length.
  auto.
Qed.

Lemma loop_fold_point (rows : list (list bool * (qbox * Z))) :
  forall loc cls j aj l c,
    Forall (fun x => length (fst x) = length a_xywh) rows ->
    length loc = length a_xywh ->
    nth_error a_xywh j = Some aj ->
    nth_error loc j = Some l ->
    nth_error cls j = Some c ->
    nth_error (fst (fold_left (loop_step a_xywh) rows (loc, cls))) j
    = Some (fst (fold_left (point_step j aj) rows (l, c))) /\
    nth_error (snd (fold_left (loop_step a_xywh) rows (loc, cls))) j
    = Some (snd (fold_left (point_step j aj) rows (l, c))).
Proof.
  induction rows as [|[ipos [b lab]] rest IH];
    intros loc cls j aj l c Hrows Hloc Haj Hl Hc; simpl.
  - auto.
  - inversion Hrows as [|? ? Hlen Hrest]; subst. simpl in Hlen.
    unfold point_step at 2 4. simpl.
    replace (if nth j ipos false then (coords_to_target b aj, lab) else (l, c))
      with (if nth j ipos false then coords_to_target b aj else l,
            if nth j ipos false then lab else c)
      by (destruct (nth j ipos false); reflexivity).
    apply IH.
    + exact Hrest.
    + now rewrite mask_assign_length.
    + exact Haj.
    + apply mask_assign_nth; congruence.
    + apply mask_fill_nth. exact Hc.
Qed.

Lemma point_fold_last (j : nat) (aj : qbox)
  (rows : list (list bool * (qbox * Z))) :
  forall acc,
    fold_left (point_step j aj) rows acc
    = match last_true (map (fun x => nth j (fst x) false) rows) with
      | Some i =>
          match nth_error rows i with
          | Some x => (coords_to_target (fst (snd x)) aj, snd (snd x))
          | None => acc
          end
      | None => acc
      end.
Proof.
  induction rows as [|x rest IH]; intros acc; simpl; [reflexivity|].
  rewrite IH.
  destruct (last_true (map (fun x => nth j (fst x) false) rest)) as [k|] eqn:E.
  - simpl. destruct (nth_error rest k) eqn:Ek; [reflexivity|].
    apply last_true_lt in E. rewrite length_map in E.
    apply nth_error_None in Ek. lia.
  - unfold point_step. destruct (nth j (fst x) false); reflexivity.
Qed.

(** The column of the weighted matrix, when every label is 1. *)
Definition bit (b : bool) : Z := if b then 1%Z else 0%Z.

Lemma weighted_column (anns : list ann) (j : nat) :
  (forall a, In a anns -> get_label a = 1%Z) ->
  column 0%Z
    (map (fun rl : list bool * Z =>
            map (fun b : bool => ((if b then 1 else 0) * snd rl)%Z) (fst rl))
         (combine (pos_of (map iou_row anns) pos_thresh)
                  (map get_label anns))) j
  = map bit (map (fun a => nth j (pos_row a) false) anns).
Proof.
  intros Hlab. unfold column, pos_of.
  rewrite (map_map iou_row), Py.combine_map_same, !map_map.
  apply map_ext_in. intros a Ha. simpl. rewrite (Hlab a Ha).
  fold (pos_row a). rewrite nth_map_nth_error.
  destruct (nth_error (pos_row a) j) as [b|] eqn:E.
  - rewrite (Py.nth_error_nth_default _ _ _ false E).
    unfold bit. destruct b; reflexivity.
  - apply nth_error_None in E. now rewrite nth_overflow by exact E.
Qed.

Lemma nth_error_map_bit (col : list bool) (k : nat) (v : Z) :
  nth_error (map bit col) k = Some v ->
  v = bit (nth k col false) /\ (k < length col)%nat.
Proof.
  intros H. rewrite nth_error_map in H.
  destruct (nth_error col k) as [b|] eqn:E; [|discriminate].
  simpl in H. injection H as <-.
  split.
  - now rewrite (Py.nth_error_nth_default _ _ _ false E).
  - apply nth_error_Some. rewrite E. discriminate.
Qed.

(** The maximum of a 0/1 column and the index where it is first reached:
    the first [true], or index 0 of an all-[false] column. *)
Lemma tensor_max_Z_bits (col : list bool) :
  col <> [] ->
  tensor_max_Z (map bit col)
  = Py.ret (match first_true col with
            | Some i => (1%Z, i)
            | None => (0%Z, 0%nat)
            end).
Proof.
  intros Hne. unfold tensor_max_Z.
  destruct (py_max_key_nonempty (fun x : nat * Z => inject_Z (snd x))
              (Py.enumerate (map bit col))) as [[k v] Hbest].
  { destruct col; [contradiction | discriminate]. }
  rewrite Hbest.
  destruct (max_enumerate_key_spec inject_Z (map bit col) k v Hbest)
    as (Hk & Hle & Hlt).
  destruct (nth_error_map_bit col k v Hk) as [Hv Hklen].
  destruct (first_true col) as [i|] eqn:Efirst.
  - destruct (first_true_spec col i Efirst) as [Hi Hbefore].
    pose proof (first_true_lt col i Efirst) as Hilen.
    assert (Hi1 : nth_error (map bit col) i = Some 1%Z).
    { rewrite nth_error_map.
      destruct (nth_error col i) as [b|] eqn:E.
      - rewrite (Py.nth_error_nth_default _ _ _ false E) in Hi.
        subst b. reflexivity.
      - apply nth_error_None in E. lia. }
    assert (Hv1 : v = 1%Z).
    { pose proof (Hle i 1%Z Hi1) as H. rewrite <- Zle_Qle in H.
      rewrite Hv in *. unfold bit in *. destruct (nth k col false); lia. }
    assert (Hki : k = i).
    { destruct (Nat.lt_trichotomy k i) as [H | [H | H]]; [|exact H|].
      - rewrite (Hbefore k H) in Hv. simpl in Hv. lia.
      - pose proof (Hlt i 1%Z H Hi1) as Hc. rewrite <- Zlt_Qlt in Hc. lia. }
    now rewrite Hv1, Hki.
  - pose proof (first_true_none col Efirst) as Hall.
    rewrite Hall in Hv. simpl in Hv. subst v.
    destruct k as [|k]; [reflexivity|].
    assert (H0 : nth_error (map bit col) 0 = Some 0%Z).
    { destruct col as [|b col]; [contradiction|].
      specialize (Hall 0%nat). simpl in Hall. subst b. reflexivity. }
    pose proof (Hlt 0%nat 0%Z (Nat.lt_0_succ k) H0) as Hc.
    rewrite <- Zlt_Qlt in Hc. lia.
Qed.

(** The per-anchor result of [(pos.long() * labels[:, None]).max(dim=0)]. *)
Definition column_max (anns : list ann) (j : nat) : Z * nat :=
  match first_true (map (fun a => nth j (pos_row a) false) anns) with
  | Some i => (1%Z, i)
  | None => (0%Z, 0%nat)
  end.

Lemma column_max_mapM (anns : list ann) :
  anns <> [] ->
  (forall a, In a anns -> get_label a = 1%Z) ->
  mapM (fun j =>
          tensor_max_Z
            (column 0%Z
               (map (fun rl : list bool * Z =>
                       map (fun b : bool => ((if b then 1 else 0) * snd rl)%Z)
                           (fst rl))
                    (combine (pos_of (map iou_row anns) pos_thresh)
                             (map get_label anns))) j))
       (seq 0 (length a_ltrb))
  = Py.ret (map (column_max anns) (seq 0 (length a_ltrb))).
Proof.
  intros Hne Hlab. apply mapM_pure. intros j _.
  rewrite weighted_column by exact Hlab.
  rewrite tensor_max_Z_bits; [reflexivity|].
  destruct anns; [contradiction | discriminate].
Qed.



Lemma tensor_max_rows (anns : list ann) :
  a_ltrb <> [] ->
  exists mx,
    mapM tensor_max (map iou_row anns) = Py.ret mx /\
    length mx = length anns /\
    Forall (fun k => (k < length a_ltrb)%nat) (map snd mx).
Proof.
  intros Hne. induction anns as [|a rest IH]; simpl.
  - exists []. repeat split. constructor.
  - destruct (tensor_max_nonempty (iou_row a)) as [[m k] Hm].
    { unfold iou_row. destruct a_ltrb; [contradiction | discriminate]. }
    destruct IH as (mx & Hmx & Hlen & Hall).
    rewrite Hm, Hmx. simpl. exists ((m, k) :: mx).
    split; [reflexivity|]. split; [simpl; lia|].
    simpl. constructor; [|exact Hall].
    apply tensor_max_spec in Hm. destruct Hm as [Hk _].
    assert (Hlt : (k < length (iou_row a))%nat)
      by (apply nth_error_Some; rewrite Hk; discriminate).
    unfold iou_row in Hlt. now rewrite length_map in Hlt.
Qed.

Lemma index_put_length {A : Type} (indices : list nat) (values l : list A) :
  length (index_put indices values l) = length l.
Proof.
  unfold index_put. revert l.
  induction (combine indices values) as [|[k v] rest IH]; intros l; simpl;
    [reflexivity|].
  rewrite IH. apply Py.set_nth_length.
Qed.


(** The targets before the max-IoU writes, in the loop version. *)
Definition loop_base (anns : list ann) : list Coords.vec4 * list Z :=
  fold_left (loop_step a_xywh) (map loop_row anns)
    (repeat Coords.zeros4 (length a_xywh), repeat 0%Z (length a_xywh)).

(** The writes [loc_t[indices] = ...] both versions make. *)
Definition max_values (anns : list ann) (idx : list nat)
  : list Coords.vec4 :=
  map (fun bi => coords_to_target (fst bi)
                   (nth (snd bi) a_xywh (QBox 0 0 0 0)))
      (combine (bboxes_of convert_ltwh_xywh anns) idx).

Lemma match_anchors_nonempty (anns : list ann) (neg_thresh : option Q) :
  anns <> [] ->
  match_anchors convert_ltwh_xywh convert_xywh_ltrb iou_ltrb anns
    a_xywh a_ltrb pos_thresh neg_thresh get_label
  = (mx <- mapM tensor_max (map iou_row anns) ;;
     let idx := map snd mx in
     let cls := index_put idx (map get_label anns) (snd (loop_base anns)) in
     Py.ret (MkTarget
               (index_put idx (max_values anns idx) (fst (loop_base anns)))
               cls
               (option_map (ignore_mask cls (map iou_row anns))
                  (truthy neg_thresh)))).
Proof.
  intros Hne. destruct anns as [|a0 rest]; [contradiction|].
  unfold match_anchors, loop_base, max_values.
  rewrite ious_of_map, loop_rows_map.
  destruct (fold_left (loop_step a_xywh) (map loop_row (a0 :: rest)) _)
    as [l c].
  reflexivity.
Qed.

Lemma match_anchors2_nonempty (anns : list ann) (neg_thresh : option Q) :
  anns <> [] ->
  (forall a, In a anns -> get_label a = 1%Z) ->
  match_anchors2 convert_ltwh_xywh convert_xywh_ltrb iou_ltrb anns
    a_xywh a_ltrb pos_thresh neg_thresh get_label
  = (mx <- mapM tensor_max (map iou_row anns) ;;
     let cm := map (column_max anns) (seq 0 (length a_ltrb)) in
     let idx := map snd mx in
     let loc_t_all :=
       coords_to_target2 (bboxes_of convert_ltwh_xywh anns) a_xywh in
     let cls := index_put idx (map get_label anns) (map fst cm) in
     Py.ret (MkTarget
               (index_put idx (select1 loc_t_all idx)
                  (select0 loc_t_all (map snd cm)))
               cls
               (option_map (ignore_mask cls (map iou_row anns))
                  (truthy neg_thresh)))).
Proof.
  intros Hne Hlab.
  pose proof (column_max_mapM anns Hne Hlab) as Hcm.
  destruct anns as [|a0 rest]; [contradiction|].
  unfold match_anchors2.
  rewrite ious_of_map, Hcm.
  reflexivity.
Qed.

Lemma nth_error_seq0 (n j : nat) :
  (j < n)%nat -> nth_error (seq 0 n) j = Some j.
Proof.
  intros H. rewrite (nth_error_nth' _ 0%nat) by (rewrite length_seq; exact H).
  now rewrite seq_nth.
Qed.

Lemma nth_error_repeat {A : Type} (x : A) (n j : nat) :
  (j < n)%nat -> nth_error (repeat x n) j = Some x.
Proof.
  revert j. induction n as [|n IH]; intros j H; [lia|].
  destruct j; simpl; [reflexivity | apply IH; lia].
Qed.

Lemma loop_rows_shape (anns : list ann) :
  length a_xywh = length a_ltrb ->
  Forall (fun x : list bool * (qbox * Z) => length (fst x) = length a_xywh)
    (map loop_row anns).
Proof.
  intros Hlen. apply Forall_map. apply Forall_forall. intros a _.
  unfold loop_row, pos_row, iou_row. simpl. rewrite !length_map. lia.
Qed.

Lemma loop_column (anns : list ann) (j : nat) :
  map (fun x : list bool * (qbox * Z) => nth j (fst x) false)
      (map loop_row anns)
  = map (fun a => nth j (pos_row a) false) anns.
Proof. rewrite map_map. reflexivity. Qed.

(** What the loop leaves at anchor [j] before the max-IoU writes. *)
Lemma loop_base_nth (anns : list ann) (j : nat) (aj : qbox) :
  length a_xywh = length a_ltrb ->
  nth_error a_xywh j = Some aj ->
  nth_error (fst (loop_base anns)) j
  = Some (match last_true (map (fun a => nth j (pos_row a) false) anns) with
          | Some i =>
              match nth_error anns i with
              | Some a => coords_to_target (box_of a) aj
              | None => Coords.zeros4
              end
          | None => Coords.zeros4
          end) /\
  nth_error (snd (loop_base anns)) j
  = Some (match last_true (map (fun a => nth j (pos_row a) false) anns) with
          | Some i =>
              match nth_error anns i with
              | Some a => get_label a
              | None => 0%Z
              end
          | None => 0%Z
          end).
Proof.
  intros Hlen Haj.
  assert (Hj : (j < length a_xywh)%nat)
    by (apply nth_error_Some; rewrite Haj; discriminate).
  destruct (loop_fold_point (map loop_row anns)
              (repeat Coords.zeros4 (length a_xywh))
              (repeat 0%Z (length a_xywh)) j aj Coords.zeros4 0%Z)
    as [H1 H2].
  - apply loop_rows_shape. exact Hlen.
  - apply repeat_length.
  - exact Haj.
  - apply nth_error_repeat. exact Hj.
  - apply nth_error_repeat. exact Hj.
  - unfold loop_base. rewrite H1, H2, point_fold_last, loop_column.
    destruct (last_true (map (fun a => nth j (pos_row a) false) anns))
      as [i|]; [|auto].
    rewrite nth_error_map.
    destruct (nth_error anns i) as [a|]; simpl; auto.
Qed.

Lemma cls_base_agree (anns : list ann) :
  (forall a, In a anns -> get_label a = 1%Z) ->
  length a_xywh = length a_ltrb ->
  snd (loop_base anns)
  = map fst (map (column_max anns) (seq 0 (length a_ltrb))).
Proof.
  intros Hlab Hlen. apply nth_error_ext. intros j.
  destruct (Nat.lt_ge_cases j (length a_xywh)) as [Hj | Hj].
  - destruct (nth_error a_xywh j) as [aj|] eqn:Eaj;
      [|apply nth_error_None in Eaj; lia].
    destruct (loop_base_nth anns j aj Hlen Eaj) as [_ H]. rewrite H.
    rewrite !nth_error_map, nth_error_seq0 by lia. simpl.
    unfold column_max. f_equal.
    destruct (last_true (map (fun a => nth j (pos_row a) false) anns))
      as [i|] eqn:Elast.
    + destruct (first_true (map (fun a => nth j (pos_row a) false) anns))
        as [i'|] eqn:Efirst.
      * simpl. pose proof (last_true_lt _ _ Elast) as Hi.
        rewrite length_map in Hi.
        destruct (nth_error anns i) as [a|] eqn:Ea;
          [|apply nth_error_None in Ea; lia].
        apply Hlab. eapply nth_error_In. exact Ea.
      * apply first_last_none in Efirst. congruence.
    + apply first_last_none in Elast. rewrite Elast. reflexivity.
  - assert (H1 : nth_error (snd (loop_base anns)) j = None).
    { apply nth_error_None. unfold loop_base.
      destruct (loop_fold_length (map loop_row anns)
                  (repeat Coords.zeros4 (length a_xywh))
                  (repeat 0%Z (length a_xywh))) as [_ H].
      rewrite H, repeat_length. exact Hj. }
    rewrite H1. symmetry. apply nth_error_None.
    rewrite !length_map, length_seq. lia.
Qed.


(** With an annotation and no anchor, both versions fail in
    [ious.max(dim=1)]. *)
Lemma match_anchors_no_anchor (anns : list ann) (neg_thresh : option Q) :
  anns <> [] -> a_ltrb = [] ->
  (forall a, In a anns -> get_label a = 1%Z) ->
  match_anchors convert_ltwh_xywh convert_xywh_ltrb iou_ltrb anns
    a_xywh a_ltrb pos_thresh neg_thresh get_label
  = Py.raise Py.IndexError /\
  match_anchors2 convert_ltwh_xywh convert_xywh_ltrb iou_ltrb anns
    a_xywh a_ltrb pos_thresh neg_thresh get_label
  = Py.raise Py.IndexError.
Proof.
  intros Hne Hnil Hlab.
  rewrite match_anchors_nonempty, match_anchors2_nonempty by assumption.
  destruct anns as [|a0 rest]; [contradiction|].
  unfold iou_row. rewrite Hnil. simpl. auto.
Qed.


End Agreement.


(** Two annotations that both match anchor 2 above [pos_thresh], while
    each has its own anchor of greatest IoU. *)
Definition overlap_anns (l0 l1 : Z) : list ann :=
  [MkAnn (QBox 0 0 4 4) l0; MkAnn (QBox 0 0 4 5) l1].
Definition overlap_a_xywh : list qbox :=
  [QBox 2 2 4 4; QBox 2 (5 # 2) 4 5; QBox 2 (9 # 4) 4 (9 # 2)].
Definition overlap_a_ltrb : list qbox :=
  [QBox 0 0 4 4; QBox 0 0 4 5; QBox 0 0 4 (9 # 2)].

Definition cls_of (r : Py.result target) : option (list Z) :=
  match r with
  | inr t => Some (cls_t t)
  | inl _ => None
  end.

(** With labels that differ, the loop keeps the label of the last matching
    annotation and the vectorized version the greatest matching label. *)
Example match_anchors_labels_differ :
  cls_of (match_anchors ltwh_to_xywh xywh_to_ltrb Geometry.iou_ltrb
            (overlap_anns 2 1) overlap_a_xywh overlap_a_ltrb (1 # 2) None
            ann_category_id)
  = Some [2; 1; 1]%Z /\
  cls_of (match_anchors2 ltwh_to_xywh xywh_to_ltrb Geometry.iou_ltrb
            (overlap_anns 2 1) overlap_a_xywh overlap_a_ltrb (1 # 2) None
            ann_category_id)
  = Some [2; 1; 2]%Z.
Proof. split; reflexivity. Qed.

(** With every label 1, an anchor two annotations match keeps the
    encoding of the last one in the loop and of the first one in the
    vectorized version. *)
Example match_anchors_first_last_differ :
  loc_row (match_anchors ltwh_to_xywh xywh_to_ltrb Geometry.iou_ltrb
             (overlap_anns 1 1) overlap_a_xywh overlap_a_ltrb (1 # 2) None
             MatchAnchors_get_label) 2
  = Some (coords_to_target (ltwh_to_xywh (QBox 0 0 4 5))
            (QBox 2 (9 # 4) 4 (9 # 2))) /\
  loc_row (match_anchors2 ltwh_to_xywh xywh_to_ltrb Geometry.iou_ltrb
             (overlap_anns 1 1) overlap_a_xywh overlap_a_ltrb (1 # 2) None
             MatchAnchors_get_label) 2
  = Some (coords_to_target (ltwh_to_xywh (QBox 0 0 4 4))
            (QBox 2 (9 # 4) 4 (9 # 2))) /\
  coords_to_target (ltwh_to_xywh (QBox 0 0 4 5)) (QBox 2 (9 # 4) 4 (9 # 2))
  <> coords_to_target (ltwh_to_xywh (QBox 0 0 4 4))
       (QBox 2 (9 # 4) 4 (9 # 2)).
Proof.
  split; [reflexivity|]. split; [reflexivity|].
  intros H. apply (f_equal Coords.v1) in H.
  change ((Q2R (5 # 2) - Q2R (9 # 4)) / Q2R (9 # 2)
          = (Q2R 2 - Q2R (9 # 4)) / Q2R (9 # 2))%R in H.
  unfold Q2R in H. simpl in H. lra.
Qed.

End E2E.

(** * Further properties of the modelled code *)

(** ** Decoding, then encoding *)

Module CoordsFacts.
Import Coords.
Local Open Scope R_scope.

(** X1: over exact real arithmetic, encoding what [target_to_coords]
    decoded, against the same anchor, gives the regression target back;
    only the anchor's width and height have to be positive.  (On float32
    tensors [exp_()] underflows to 0 for a very negative target, and the
    encoding of that is [-inf].) *)
Theorem coords_to_target_target_to_coords (loc_t anchor : vec4) :
  0 < v2 anchor -> 0 < v3 anchor ->
  coords_to_target (target_to_coords loc_t anchor) anchor = loc_t.
Proof.
  intros Haw Hah.
  destruct loc_t as [tx ty tw th], anchor as [ax ay aw ah]; simpl in *.
  unfold coords_to_target, target_to_coords; simpl.
  replace ((tx * aw + ax - ax) / aw) with tx by (field; lra).
  replace ((ty * ah + ay - ay) / ah) with ty by (field; lra).
  replace (exp tw * aw / aw) with (exp tw) by (field; lra).
  replace (exp th * ah / ah) with (exp th) by (field; lra).
  now rewrite !ln_exp.
Qed.

Lemma coords_to_target_target_to_coords_witness :
  coords_to_target (target_to_coords (Vec4 1 (-2) 3 (-4)) (Vec4 5 6 7 8))
    (Vec4 5 6 7 8)
  = Vec4 1 (-2) 3 (-4).
Proof.
  apply (coords_to_target_target_to_coords (Vec4 1 (-2) 3 (-4))
           (Vec4 5 6 7 8)); simpl; lra.
Defined.

(** X2: over exact real arithmetic, where [exp] neither underflows nor
    overflows, the decoded box has a strictly positive width and height
    when the anchor has, whatever the regression output is. *)
Theorem target_to_coords_positive_size (loc_t anchor : vec4) :
  0 < v2 anchor -> 0 < v3 anchor ->
  0 < v2 (target_to_coords loc_t anchor) /\
  0 < v3 (target_to_coords loc_t anchor).
Proof.
  intros Haw Hah. unfold target_to_coords. simpl.
  split; apply Rmult_lt_0_compat; try assumption; apply exp_pos.
Qed.

Lemma target_to_coords_positive_size_witness :
  0 < v2 (target_to_coords (Vec4 1 (-2) (-30) 4) (Vec4 5 6 7 8)) /\
  0 < v3 (target_to_coords (Vec4 1 (-2) (-30) 4) (Vec4 5 6 7 8)).
Proof.
  apply (target_to_coords_positive_size (Vec4 1 (-2) (-30) 4) (Vec4 5 6 7 8));
    simpl; lra.
Defined.

End CoordsFacts.

(** ** More on [get_locations] *)

Module LocationsFacts.
Import Locations.
Local Open Scope Z_scope.

Lemma iter_halve_div (n : nat) (l : Z) :
  Nat.iter n halve l = (l - 1) / 2 ^ Z.of_nat n + 1.
Proof.
  induction n as [|n IH].
  - simpl. rewrite Z.div_1_r. lia.
  - rewrite Nat2Z.inj_succ, Z.pow_succ_r by lia.
    change (Nat.iter (S n) halve l) with (halve (Nat.iter n halve l)).
    rewrite IH. unfold halve.
    replace ((l - 1) / 2 ^ Z.of_nat n + 1 - 1) with ((l - 1) / 2 ^ Z.of_nat n)
      by lia.
    assert (Hp : 0 < 2 ^ Z.of_nat n) by (apply Z.pow_pos_nonneg; lia).
    rewrite Z.div_div by lia.
    now rewrite (Z.mul_comm 2).
Qed.

Lemma skipn_all_but_last {A : Type} (f : nat -> A) (n : nat) :
  skipn n (map f (seq 0 (S n))) = [f n].
Proof.
  rewrite seq_S, map_app, skipn_app, length_map, length_seq, Nat.sub_diag.
  rewrite skipn_all2 by (rewrite length_map, length_seq; lia).
  reflexivity.
Qed.

Lemma last_item_length (strides : list Z) (s : Z) :
  last_item strides = Py.ret s -> (1 <= length strides)%nat.
Proof.
  unfold last_item. destruct strides as [|x t]; [discriminate|].
  intros _. simpl. lia.
Qed.

Lemma get_locations_returns (int_log2 : Z -> Py.result Z) (lx ly : Z)
  (strides : list Z) (s n : Z) :
  last_item strides = Py.ret s ->
  int_log2 s = Py.ret n ->
  get_locations int_log2 (lx, ly) strides
  = Py.ret (slice_last (length strides) (halvings lx ly (Z.to_nat n))).
Proof.
  intros Hlast Hlog. unfold get_locations.
  rewrite Hlast. cbn [Py.bind Py.ret]. rewrite Hlog. cbn [Py.bind Py.ret].
  now rewrite locations_loop_halvings.
Qed.

(** X3: for a single stride [2^n] on which [int(np.log2(2^n))] is [n],
    the location is the size divided by the stride and rounded up:
    [(l - 1) // stride + 1] on each axis. *)
Theorem get_locations_power_of_two (int_log2 : Z -> Py.result Z)
  (lx ly : Z) (n : nat) :
  int_log2 (2 ^ Z.of_nat n) = Py.ret (Z.of_nat n) ->
  get_locations int_log2 (lx, ly) [2 ^ Z.of_nat n]
  = Py.ret [((lx - 1) / 2 ^ Z.of_nat n + 1, (ly - 1) / 2 ^ Z.of_nat n + 1)].
Proof.
  intros Hlog.
  rewrite (get_locations_returns int_log2 lx ly [2 ^ Z.of_nat n]
             (2 ^ Z.of_nat n) (Z.of_nat n) eq_refl Hlog).
  rewrite Nat2Z.id. unfold slice_last. cbn [length].
  rewrite halvings_length. replace (S n - 1)%nat with n by lia.
  unfold halvings. rewrite skipn_all_but_last.
  now rewrite !iter_halve_div.
Qed.

Lemma get_locations_power_of_two_witness :
  get_locations example_int_log2 (300, 200) [2 ^ Z.of_nat 4]
  = Py.ret [((300 - 1) / 2 ^ Z.of_nat 4 + 1, (200 - 1) / 2 ^ Z.of_nat 4 + 1)].
Proof.
  apply (get_locations_power_of_two example_int_log2 300 200 4).
  reflexivity.
Defined.

(** X4: [get_locations] raises [IndexError] on an empty [strides]
    ([strides[-1]]) whatever the size; on a non-empty one it raises
    exactly what [int(np.log2(strides[-1]))] raises, and when that returns
    [n] it returns [min(len(strides), max(n, 0) + 1)] locations. *)
Theorem get_locations_outcomes (int_log2 : Z -> Py.result Z)
  (size : Z * Z) (strides : list Z) :
  (strides = [] ->
   get_locations int_log2 size strides = Py.raise Py.IndexError) /\
  (forall s e,
     last_item strides = Py.ret s -> int_log2 s = Py.raise e ->
     get_locations int_log2 size strides = Py.raise e) /\
  (forall s n,
     last_item strides = Py.ret s -> int_log2 s = Py.ret n ->
     exists locs,
       get_locations int_log2 size strides = Py.ret locs /\
       length locs = Nat.min (length strides) (S (Z.to_nat n))).
Proof.
  split; [|split].
  - intros ->. reflexivity.
  - intros s e Hlast Hlog. unfold get_locations.
    rewrite Hlast. cbn [Py.bind Py.ret]. rewrite Hlog. reflexivity.
  - intros s n Hlast Hlog. destruct size as [lx ly].
    rewrite (get_locations_returns int_log2 lx ly strides s n Hlast Hlog).
    eexists. split; [reflexivity|].
    pose proof (last_item_length strides s Hlast) as Hlen.
    unfold slice_last.
    destruct (length strides) as [|k] eqn:Ek; [lia|].
    rewrite length_skipn, halvings_length. lia.
Qed.

(** X5: with more strides than [int(np.log2(strides[-1])) + 1] the slice
    keeps the whole sequence, so fewer locations than strides come
    back. *)
Theorem get_locations_more_strides_than_levels
  (int_log2 : Z -> Py.result Z) (lx ly : Z) (strides : list Z) (s n : Z) :
  last_item strides = Py.ret s ->
  int_log2 s = Py.ret n ->
  0 <= n ->
  n + 1 < Z.of_nat (length strides) ->
  get_locations int_log2 (lx, ly) strides
  = Py.ret (halvings lx ly (Z.to_nat n)) /\
  (length (halvings lx ly (Z.to_nat n)) < length strides)%nat.
Proof.
  intros Hlast Hlog Hn Hlen.
  rewrite (get_locations_returns int_log2 lx ly strides s n Hlast Hlog).
  pose proof (halvings_length lx ly (Z.to_nat n)) as Hh.
  split; [|lia].
  unfold slice_last.
  destruct (length strides) as [|k] eqn:Ek; [reflexivity|].
  replace (length (halvings lx ly (Z.to_nat n)) - S k)%nat with 0%nat by lia.
  reflexivity.
Qed.

Lemma get_locations_more_strides_than_levels_witness :
  get_locations example_int_log2 (300, 200) [1; 2; 4; 8; 2]
  = Py.ret (halvings 300 200 (Z.to_nat 1)) /\
  (length (halvings 300 200 (Z.to_nat 1)) < length [1; 2; 4; 8; 2])%nat.
Proof.
  apply (get_locations_more_strides_than_levels example_int_log2 300 200
           [1; 2; 4; 8; 2] 2 1).
  - reflexivity.
  - reflexivity.
  - lia.
  - simpl. lia.
Defined.

Lemma iter_halve_bounds (k : nat) (l : Z) :
  1 <= l -> 1 <= Nat.iter k halve l <= l.
Proof.
  intros Hl. rewrite iter_halve_div.
  assert (Hp : 0 < 2 ^ Z.of_nat k) by (apply Z.pow_pos_nonneg; lia).
  assert (H0 : 0 <= (l - 1) / 2 ^ Z.of_nat k) by (apply Z.div_pos; lia).
  assert (H1 : (l - 1) / 2 ^ Z.of_nat k <= l - 1)
    by (apply Z.div_le_upper_bound; nia).
  lia.
Qed.

Lemma In_slice_last {A : Type} (k : nat) (l : list A) (x : A) :
  In x (slice_last k l) -> In x l.
Proof.
  unfold slice_last. destruct k; [auto|].
  intros H. rewrite <- (firstn_skipn (length l - S k) l).
  apply in_or_app. now right.
Qed.

(** X6: from a size with positive components, every location
    [get_locations] returns has components between 1 and the size: no
    level has an empty grid. *)
Theorem get_locations_within_size (int_log2 : Z -> Py.result Z)
  (lx ly : Z) (strides : list Z) (locs : list (Z * Z)) :
  1 <= lx -> 1 <= ly ->
  get_locations int_log2 (lx, ly) strides = Py.ret locs ->
  Forall (fun p => 1 <= fst p <= lx /\ 1 <= snd p <= ly) locs.
Proof.
  intros Hx Hy H. unfold get_locations in H.
  destruct (last_item strides) as [e | s]; [discriminate|].
  cbn [Py.bind] in H.
  destruct (int_log2 s) as [e | n]; [discriminate|].
  cbn [Py.bind Py.ret] in H. injection H as <-.
  rewrite locations_loop_halvings.
  apply Forall_forall. intros p Hp. apply In_slice_last in Hp.
  unfold halvings in Hp. apply in_map_iff in Hp.
  destruct Hp as (k & <- & _). simpl.
  split; apply iter_halve_bounds; assumption.
Qed.

Lemma get_locations_within_size_witness :
  Forall (fun p => 1 <= fst p <= 300 /\ 1 <= snd p <= 200)
    [(38, 25); (19, 13); (10, 7)].
Proof.
  apply (get_locations_within_size example_int_log2 300 200 [8; 16; 32]).
  - lia.
  - lia.
  - reflexivity.
Defined.

End LocationsFacts.

(** ** More on [average_precision], [AP] and [mAP] *)

Module EvalFacts.
Import QAux PyMax PyLoop Geometry AveragePrecision Eval.
Local Open Scope Q_scope.

(** A number between 0 and 1. *)
Definition in01 (q : Q) : Prop := 0 <= q /\ q <= 1.

(** Each entry is at most the next one. *)
Definition nondecreasing (l : list Q) : Prop :=
  forall i, (S i < length l)%nat -> nth i l 0 <= nth (S i) l 0.

Lemma change_fold_filter (p : nat -> bool) (l : list nat) :
  forall acc,
    fold_left (fun ii i => if p i then ii ++ [S i] else ii) l acc
    = acc ++ map S (filter p l).
Proof.
  induction l as [|i l IH]; intros acc; simpl.
  - now rewrite app_nil_r.
  - rewrite IH. destruct (p i); simpl; [now rewrite <- app_assoc | reflexivity].
Qed.

Lemma change_points_filter (mrec : list Q) :
  change_points mrec
  = map S (filter
             (fun i => Qneqb (nth i (tl mrec) 0) (nth i (removelast mrec) 0))
             (seq 0 (length mrec - 1))).
Proof. unfold change_points. now rewrite change_fold_filter. Qed.

(** The sum adds, for some of the steps of [mrec], the step times a
    precision between 0 and 1, so it stays between 0 and the recall
    reached. *)
Lemma area_fold_bound (mrec mpre : list Q) (p : nat -> bool) :
  nondecreasing mrec ->
  (forall i, (i < length mpre)%nat -> in01 (nth i mpre 0)) ->
  (length mrec <= length mpre)%nat ->
  forall n s a,
    (s + n < length mrec)%nat -> 0 <= a -> a <= nth s mrec 0 ->
    exists a',
      fold_left (area_step mrec mpre) (map S (filter p (seq s n))) (Py.ret a)
      = Py.ret a' /\
      0 <= a' /\ a' <= nth (s + n) mrec 0.
Proof.
  intros Hmono Hpre Hlen.
  induction n as [|n IH]; intros s a Hs Ha0 Ha.
  - exists a. rewrite Nat.add_0_r. simpl. auto.
  - assert (Hstep : nth s mrec 0 <= nth (S s) mrec 0) by (apply Hmono; lia).
    replace (s + S n)%nat with (S s + n)%nat by lia.
    cbn [seq filter]. destruct (p s).
    + cbn [map fold_left]. unfold area_step at 2. cbn [Py.bind Py.ret].
      destruct (nth_error mpre (S s)) as [m|] eqn:Em;
        [|apply nth_error_None in Em; lia].
      assert (Hm : in01 m).
      { rewrite <- (Py.nth_error_nth_default _ _ _ 0 Em).
        apply Hpre. apply nth_error_Some. rewrite Em. discriminate. }
      destruct Hm as [Hm0 Hm1].
      replace (S s - 1)%nat with s by lia.
      apply IH; [lia | Lqa.nra | Lqa.nra].
    + apply IH; [lia | exact Ha0 | Lqa.lra].
Qed.

Lemma In_skipn {A : Type} (n : nat) (l : list A) (x : A) :
  In x (skipn n l) -> In x l.
Proof.
  intros H. rewrite <- (firstn_skipn n l). apply in_or_app. now right.
Qed.

Lemma envelope_in01 (precision : list Q) :
  Forall in01 precision ->
  forall i, (i < length (envelope_loop (padded precision)))%nat ->
            in01 (nth i (envelope_loop (padded precision)) 0).
Proof.
  intros Hp i Hi. rewrite envelope_loop_suffix_max in *.
  rewrite suffix_max_length in Hi.
  destruct (suffix_max_nth (padded precision) i Hi) as [Hin _].
  apply In_skipn in Hin.
  set (m := nth i (suffix_max (padded precision)) 0) in *.
  unfold padded in Hin.
  destruct Hin as [Hm | Hin]; [rewrite <- Hm; split; Lqa.lra|].
  apply in_app_or in Hin. destruct Hin as [Hin | [Hm | []]].
  - rewrite Forall_forall in Hp. apply Hp, Hin.
  - rewrite <- Hm. split; Lqa.lra.
Qed.

Lemma sorted_snoc_one (l : list Q) :
  StronglySorted Qle l -> Forall in01 l -> StronglySorted Qle (l ++ [1]).
Proof.
  induction 1 as [|x l Hs IH Hx]; intros Hall; simpl.
  - constructor; constructor.
  - inversion Hall as [|? ? [_ Hx1] Hrest]; subst.
    constructor; [apply IH, Hrest|].
    apply Forall_app. split; [exact Hx|]. constructor; [exact Hx1 | constructor].
Qed.

Lemma sorted_nondecreasing (l : list Q) :
  StronglySorted Qle l -> nondecreasing l.
Proof.
  induction 1 as [|x l Hs IH Hx]; intros i Hi; [simpl in Hi; lia|].
  destruct i as [|i].
  - destruct l as [|y l]; [simpl in Hi; lia|].
    simpl. inversion Hx; assumption.
  - simpl in Hi. apply IH. lia.
Qed.

(** The padded recall [[0, *recall, 1]] is nondecreasing when [recall]
    is, within [[0, 1]]. *)
Lemma padded_recall_nondecreasing (recall : list Q) :
  StronglySorted Qle recall -> Forall in01 recall ->
  nondecreasing (0 :: recall ++ [1]).
Proof.
  intros Hs Hall. apply sorted_nondecreasing.
  constructor; [apply sorted_snoc_one; assumption|].
  apply Forall_app. split.
  - eapply Forall_impl; [|exact Hall]. intros q [H _]. exact H.
  - constructor; [Lqa.lra | constructor].
Qed.

Lemma nth_last_one (recall : list Q) :
  nth (length recall + 1) (0 :: recall ++ [1]) 0 = 1.
Proof.
  rewrite Nat.add_1_r. simpl.
  rewrite app_nth2, Nat.sub_diag by lia. reflexivity.
Qed.

Lemma average_precision_bounds (recall precision : list Q) :
  StronglySorted Qle recall ->
  Forall in01 recall ->
  Forall in01 precision ->
  (length recall <= length precision)%nat ->
  exists ap env mrec ii,
    average_precision recall precision = Py.ret (ap, env, mrec, ii) /\
    0 <= ap /\ ap <= 1.
Proof.
  intros Hs Hr Hp Hlen. unfold average_precision.
  rewrite change_points_filter.
  destruct (area_fold_bound (0 :: recall ++ [1])
              (envelope_loop (0 :: precision ++ [0]))
              (fun i => Qneqb (nth i (tl (0 :: recall ++ [1])) 0)
                          (nth i (removelast (0 :: recall ++ [1])) 0))
              (padded_recall_nondecreasing recall Hs Hr)
              (envelope_in01 precision Hp))
    with (n := (length recall + 1)%nat) (s := 0%nat) (a := 0)
    as (ap & Hap & Hap0 & Hap1).
  - rewrite envelope_loop_suffix_max, suffix_max_length.
    simpl. rewrite !length_app. simpl. lia.
  - simpl. rewrite length_app. simpl. lia.
  - Lqa.lra.
  - simpl. Lqa.lra.
  - assert (Hn : (length (0%Q :: recall ++ [1%Q]) - 1 = length recall + 1)%nat)
      by (simpl; rewrite length_app; simpl; lia).
    rewrite Hn, Hap. cbn [Py.bind Py.ret].
    do 4 eexists. split; [reflexivity|]. split; [exact Hap0|].
    cbn [Nat.add] in Hap1. now rewrite nth_last_one in Hap1.
Qed.

(** X7: for a nondecreasing [recall] within [[0, 1]] and a [precision]
    within [[0, 1]] that is not shorter, [average_precision] returns an
    area between 0 and 1. *)
Theorem average_precision_in_unit_interval (recall precision : list Q) :
  StronglySorted Qle recall ->
  Forall in01 recall ->
  Forall in01 precision ->
  (length recall <= length precision)%nat ->
  exists ap env mrec ii,
    average_precision recall precision = Py.ret (ap, env, mrec, ii) /\
    0 <= ap /\ ap <= 1.
Proof. exact (average_precision_bounds recall precision). Qed.

Lemma average_precision_in_unit_interval_witness :
  exists ap env mrec ii,
    average_precision [1 # 2; 1 # 2; 1] [1; 1 # 2; 2 # 3]
    = Py.ret (ap, env, mrec, ii) /\
    0 <= ap /\ ap <= 1.
Proof.
  apply (average_precision_in_unit_interval [1 # 2; 1 # 2; 1]
           [1; 1 # 2; 2 # 3]).
  - repeat constructor; discriminate.
  - repeat constructor; discriminate.
  - repeat constructor; discriminate.
  - simpl. lia.
Defined.

(** *** [AP] *)

Definition is_bit (t : Z) : Prop := t = 0%Z \/ t = 1%Z.

Section APFacts.
Variable iou_11 : qbox -> qbox -> Q.

Lemma tp_flags_bits (gts : list BBox) (thr : Q) (dts : list BBox) :
  forall seen flags seen',
    tp_flags iou_11 gts thr seen dts = Py.ret (flags, seen') ->
    Forall is_bit flags.
Proof.
  induction dts as [|dt rest IH]; intros seen flags seen' H; simpl in H.
  - injection H as <- _. constructor.
  - destruct (max_enumerate (ious_of iou_11 dt gts)) as [e | jm];
      [discriminate|].
    cbn [Py.bind] in H.
    destruct (tp_flags iou_11 gts thr _ rest) as [e | [fl s]] eqn:Er;
      [discriminate|].
    cbn [Py.bind Py.ret fst snd] in H. injection H as <- _.
    constructor; [|eapply IH; exact Er].
    unfold is_bit. destruct (_ && _); auto.
Qed.

Lemma Zsum_bits_nonneg (l : list Z) : Forall is_bit l -> (0 <= Zsum l)%Z.
Proof.
  induction 1 as [|x l Hx _ IHl]; [simpl; lia|].
  rewrite Zsum_cons. destruct Hx; lia.
Qed.

Lemma cumsum_from_bounds (l : list Z) :
  Forall is_bit l ->
  forall acc,
    Forall (fun e => (acc <= e <= acc + Zsum l)%Z) (cumsum_from acc l) /\
    StronglySorted Z.le (cumsum_from acc l).
Proof.
  induction 1 as [|t l Ht Hl IH]; intros acc; cbn [cumsum_from];
    [split; constructor|].
  destruct (IH (acc + t)%Z) as [Hb Hs].
  pose proof (Zsum_bits_nonneg l Hl) as Hz.
  rewrite Zsum_cons.
  assert (Ht' : (0 <= t <= 1)%Z) by (destruct Ht; lia).
  split.
  - constructor; [lia|].
    eapply Forall_impl; [|exact Hb]. intros e He. simpl in He. lia.
  - constructor; [exact Hs|].
    eapply Forall_impl; [|exact Hb]. intros e He. simpl in He. lia.
Qed.

Lemma ratio_le (a b n : Z) :
  (0 < n)%Z -> (a <= b)%Z ->
  inject_Z a / inject_Z n <= inject_Z b / inject_Z n.
Proof.
  intros Hn Hab. unfold Qdiv. apply Qmult_le_compat_r.
  - now rewrite <- Zle_Qle.
  - apply Qinv_le_0_compat. change 0 with (inject_Z 0).
    rewrite <- Zle_Qle. lia.
Qed.

Lemma ratio_in01 (a n : Z) :
  (0 < n)%Z -> (0 <= a <= n)%Z -> in01 (inject_Z a / inject_Z n).
Proof.
  intros Hn [Ha0 Han].
  assert (Hn' : 0 < inject_Z n)
    by (change 0 with (inject_Z 0); now rewrite <- Zlt_Qlt).
  split.
  - apply Qle_shift_div_l; [exact Hn'|].
    rewrite Qmult_0_l. change 0 with (inject_Z 0). now rewrite <- Zle_Qle.
  - apply Qle_shift_div_r; [exact Hn'|].
    rewrite Qmult_1_l. now rewrite <- Zle_Qle.
Qed.

Lemma recall_sorted (n : Z) (acc_tp : list Z) :
  (0 < n)%Z -> StronglySorted Z.le acc_tp ->
  StronglySorted Qle (map (fun a => inject_Z a / inject_Z n) acc_tp).
Proof.
  intros Hn. induction 1 as [|x l Hs IH Hx]; simpl; constructor.
  - exact IH.
  - apply Forall_map. eapply Forall_impl; [|exact Hx].
    intros y Hy. simpl. apply ratio_le; assumption.
Qed.

Lemma precision_pairs (l : list Z) :
  Forall is_bit l ->
  forall a b,
    (0 <= a)%Z -> (0 <= b)%Z ->
    Forall (fun ft : Z * Z =>
              (0 <= fst ft)%Z /\ (0 <= snd ft)%Z /\ (0 < fst ft + snd ft)%Z)
      (combine (cumsum_from a (map (fun t => (1 - t)%Z) l)) (cumsum_from b l)).
Proof.
  induction 1 as [|t l Ht _ IH]; intros a b Ha Hb;
    cbn [map cumsum_from combine]; [constructor|].
  assert (Ht' : (0 <= t <= 1)%Z) by (destruct Ht; lia).
  constructor; [cbn [fst snd]; lia|].
  apply IH; lia.
Qed.

Lemma precision_in01 (fp tp : Z) :
  (0 <= fp)%Z -> (0 <= tp)%Z -> (0 < fp + tp)%Z ->
  in01 (inject_Z tp / (inject_Z fp + inject_Z tp)).
Proof.
  intros Hf Ht Hs. rewrite <- inject_Z_plus.
  apply ratio_in01; lia.
Qed.

(** With a ground truth, [AP] returns an area between 0 and 1. *)
Lemma AP_bounds (dts gts : list BBox) (thr : Q) :
  gts <> [] ->
  exists ap, AP iou_11 dts gts thr = Py.ret ap /\ 0 <= ap /\ ap <= 1.
Proof.
  intros Hne. unfold AP.
  destruct (tp_flags_total iou_11 gts thr dts Hne
              (repeat false (length gts))) as [[TP seen] Hst].
  rewrite AP_loop_flags, Hst. cbn [Py.bind Py.ret fst].
  pose proof (tp_flags_bits _ _ _ _ _ _ Hst) as Hbits.
  destruct (tp_flags_count iou_11 gts thr dts _ _ _
              (repeat_length false (length gts)) Hst) as (Hl & Hs & Hc).
  rewrite count_true_repeat in Hc.
  pose proof (count_true_le seen) as Hseen.
  assert (Hn : (0 < Z.of_nat (length gts))%Z)
    by (destruct gts; [contradiction | simpl; lia]).
  destruct (cumsum_from_bounds TP Hbits 0%Z) as [Hb Hsorted].
  match goal with
  | |- context [average_precision ?r ?p] =>
      destruct (average_precision_bounds r p) as (ap & env & mrec & ii & Hap & H0 & H1)
  end.
  - apply recall_sorted; assumption.
  - apply Forall_map. eapply Forall_impl; [|exact Hb].
    intros e He. simpl in He. apply ratio_in01; lia.
  - apply Forall_map.
    eapply Forall_impl; [|apply (precision_pairs TP Hbits 0%Z 0%Z); lia].
    intros [fp tp] (Hf & Ht & Hsum). simpl in *.
    apply precision_in01; assumption.
  - unfold cumsum.
    rewrite !length_map, length_combine, !cumsum_from_length, length_map. lia.
  - rewrite Hap. cbn [Py.bind Py.ret]. exists ap. auto.
Qed.

(** X8: whenever there is a ground truth, [AP] returns a number between
    0 and 1. *)
Theorem AP_in_unit_interval (dts gts : list BBox) (iou_threshold : Q) :
  gts <> [] ->
  exists ap,
    AP iou_11 dts gts iou_threshold = Py.ret ap /\ 0 <= ap /\ ap <= 1.
Proof. exact (AP_bounds dts gts iou_threshold). Qed.

(** X9: with detections and no ground truth, [AP] raises [ValueError]
    ([max] of an empty sequence); with no detection it returns 0, whatever
    the ground truths are. *)
Theorem AP_empty_inputs (dts gts : list BBox) (iou_threshold : Q) :
  (dts <> [] -> AP iou_11 dts [] iou_threshold = Py.raise Py.ValueError) /\
  exists ap, AP iou_11 [] gts iou_threshold = Py.ret ap /\ ap == 0.
Proof.
  split.
  - intros Hne. destruct dts as [|dt rest]; [contradiction|]. reflexivity.
  - eexists. split; reflexivity.
Qed.

End APFacts.

Lemma AP_in_unit_interval_witness :
  exists ap,
    AP iou_ltwh
      [MkBBox 0 1 (QBox 0 0 2 2); MkBBox 0 1 (QBox 5 5 2 2)]
      [MkBBox 0 1 (QBox 0 0 2 2); MkBBox 0 1 (QBox 5 5 2 3)] (1 # 2)
    = Py.ret ap /\ 0 <= ap /\ ap <= 1.
Proof.
  apply (AP_in_unit_interval iou_ltwh
           [MkBBox 0 1 (QBox 0 0 2 2); MkBBox 0 1 (QBox 5 5 2 2)]
           [MkBBox 0 1 (QBox 0 0 2 2); MkBBox 0 1 (QBox 5 5 2 3)] (1 # 2)).
  discriminate.
Defined.

(** *** [mAP] *)

Lemma Qsum_from_bounds (l : list Q) :
  Forall in01 l ->
  forall a,
    a <= fold_left Qplus l a /\
    fold_left Qplus l a <= a + inject_Z (Z.of_nat (length l)).
Proof.
  induction 1 as [|x l [Hx0 Hx1] _ IH]; intros a.
  - cbn [fold_left length]. change (inject_Z (Z.of_nat 0)) with 0.
    split; Lqa.lra.
  - cbn [fold_left length]. destruct (IH (a + x)) as [H1 H2].
    rewrite Nat2Z.inj_succ, <- Z.add_1_r, inject_Z_plus.
    change (inject_Z 1) with 1.
    split; Lqa.lra.
Qed.

Lemma np_mean_in01 (l : list Q) :
  l <> [] -> Forall in01 l -> exists q, np_mean l = Num q /\ in01 q.
Proof.
  intros Hne Hall. destruct l as [|x t]; [contradiction|].
  eexists. split; [reflexivity|].
  destruct (Qsum_from_bounds (x :: t) Hall 0) as [H1 H2].
  fold (Qsum (x :: t)) in H1, H2.
  assert (Hn : 0 < inject_Z (Z.of_nat (length (x :: t)))).
  { change 0 with (inject_Z 0). rewrite <- Zlt_Qlt. simpl. lia. }
  split.
  - apply Qle_shift_div_l; [exact Hn | Lqa.lra].
  - apply Qle_shift_div_r; [exact Hn | Lqa.lra].
Qed.

Lemma mapM_Forall_total {A B : Type} (f : A -> Py.result B)
  (P : B -> Prop) (l : list A) :
  (forall x, In x l -> exists y, f x = Py.ret y /\ P y) ->
  exists ys, mapM f l = Py.ret ys /\ Forall P ys /\ length ys = length l.
Proof.
  induction l as [|x t IH]; intros H; simpl.
  - exists []. repeat split. constructor.
  - destruct (H x) as (y & Hy & Py); [now left|].
    destruct IH as (ys & Hys & Pys & Hlen); [intros z Hz; apply H; now right|].
    rewrite Hy, Hys. cbn [Py.bind Py.ret].
    exists (y :: ys). repeat split; [constructor; assumption | simpl; lia].
Qed.

Lemma all_nums_in01 (l : list pyfloat) :
  Forall (fun y => exists q, y = Num q /\ in01 q) l ->
  exists qs, all_nums l = Some qs /\ Forall in01 qs /\ length qs = length l.
Proof.
  induction 1 as [|y l (q & -> & Hq) _ (qs & Hqs & Hall & Hlen)]; simpl.
  - exists []. repeat split. constructor.
  - rewrite Hqs. simpl. exists (q :: qs).
    repeat split; [constructor; assumption | simpl; lia].
Qed.

Lemma distinct_nonempty (l : list Z) : l <> [] -> distinct l <> [].
Proof. destruct l; [contradiction | discriminate]. Qed.

Section MeanAPBounds.
Variable iou_11 : qbox -> qbox -> Q.

Lemma class_ap_spec_in01 (dets gts : list BBox) (thr : Q) (i c : Z) :
  In c (map category_id (filter (on_image i) gts)) ->
  exists ap, class_ap_spec iou_11 dets gts thr i c = Py.ret ap /\ in01 ap.
Proof.
  intros Hc. unfold class_ap_spec.
  destruct (filter (of_class c) (filter (on_image i) dets)) as [|d ds].
  - exists 0. split; [reflexivity | split; Lqa.lra].
  - destruct (AP_bounds iou_11 (d :: ds)
                (filter (of_class c) (filter (on_image i) gts)) thr)
      as (ap & Hap & H0 & H1).
    + exact (filter_key_nonempty category_id c _ Hc).
    + exists ap. split; [exact Hap | split; assumption].
Qed.

Lemma image_map_spec_in01 (dets gts : list BBox) (thr : Q) (i : Z) :
  In i (map image_id gts) ->
  exists y, image_map_spec iou_11 dets gts thr i = Py.ret y /\
            exists q, y = Num q /\ in01 q.
Proof.
  intros Hi. unfold image_map_spec.
  destruct (mapM_Forall_total (class_ap_spec iou_11 dets gts thr i) in01
              (distinct (map category_id (filter (on_image i) gts))))
    as (aps & Haps & Hall & Hlen).
  - intros c Hc. apply distinct_from_incl in Hc.
    apply class_ap_spec_in01. exact Hc.
  - rewrite Haps. cbn [Py.bind Py.ret].
    destruct (np_mean_in01 aps) as (q & Hq & Hq01).
    + intros ->. simpl in Hlen. symmetry in Hlen.
      apply length_zero_iff_nil in Hlen. revert Hlen.
      apply distinct_nonempty.
      pose proof (filter_key_nonempty image_id i gts Hi) as Hne.
      change (fun x : BBox => (image_id x =? i)%Z) with (on_image i) in Hne.
      destruct (filter (on_image i) gts); [contradiction | discriminate].
    + exact Hall.
    + eexists. split; [reflexivity|]. exists q. auto.
Qed.

(** X10: [mAP] is [nan] when there is no ground truth, and a number
    between 0 and 1 otherwise. *)
Theorem mAP_nan_or_unit_interval (detections ground_truths : list BBox)
  (iou_threshold : Q) :
  (ground_truths = [] ->
   mAP iou_11 detections ground_truths iou_threshold = Py.ret NaN) /\
  (ground_truths <> [] ->
   exists q,
     mAP iou_11 detections ground_truths iou_threshold = Py.ret (Num q) /\
     0 <= q /\ q <= 1).
Proof.
  split.
  - intros ->. reflexivity.
  - intros Hne. rewrite mAP_refines. unfold mAP_spec.
    destruct (mapM_Forall_total
                (image_map_spec iou_11 detections ground_truths iou_threshold)
                (fun y => exists q, y = Num q /\ in01 q)
                (distinct (map image_id ground_truths)))
      as (maps & Hmaps & Hall & Hlen).
    + intros i Hi. apply distinct_from_incl in Hi.
      apply image_map_spec_in01. exact Hi.
    + rewrite Hmaps. cbn [Py.bind Py.ret].
      destruct (all_nums_in01 maps Hall) as (qs & Hqs & Hqall & Hqlen).
      unfold np_mean_floats. rewrite Hqs.
      destruct (np_mean_in01 qs) as (q & Hq & Hq0 & Hq1).
      * intros ->. simpl in Hqlen. rewrite <- Hqlen in Hlen.
        symmetry in Hlen. apply length_zero_iff_nil in Hlen. revert Hlen.
        apply distinct_nonempty.
        destruct ground_truths; [contradiction | discriminate].
      * exact Hqall.
      * exists q. rewrite Hq. auto.
Qed.

End MeanAPBounds.
End EvalFacts.

(** ** More on [MultiBoxLoss.forward] *)

Module LossFacts.
Import QAux Tensor Loss.
Local Open Scope Q_scope.

(** Some entry of the level's [cls_target] is not 0. *)
Definition has_positive (lv : level) : bool :=
  existsb (fun c => negb (c =? 0)%Z) (cls_t lv).

(** The levels the loop of [forward] runs over. *)
Definition forward_levels
  (loc_preds cls_preds loc_targets : levels (list (list Q)))
  (cls_targets : levels (list Z))
  (ignores : option (list (option (list bool)))) : list level :=
  zip_levels (_ensure_multi_level loc_preds) (_ensure_multi_level cls_preds)
    (_ensure_multi_level loc_targets) (_ensure_multi_level cls_targets)
    (match ignores with
     | None => repeat None (length (_ensure_multi_level loc_preds))
     | Some igs => igs
     end).

Definition is_tensor (a : num) : Prop :=
  match a with
  | Tensor _ => True
  | PyInt _ => False
  end.

Lemma num_add_tensor (a : num) (q : Q) : is_tensor (num_add a (Tensor q)).
Proof. destruct a; exact I. Qed.

Lemma num_add_tensors (a b : num) :
  is_tensor a -> is_tensor b -> is_tensor (num_add a b).
Proof. destruct a, b; simpl; tauto. Qed.

Lemma mask_count_has_positive (lv : level) :
  (mask_count (positives lv) =? 0)%Z = negb (has_positive lv).
Proof.
  unfold mask_count, positives, has_positive.
  induction (cls_t lv) as [|c t IH]; [reflexivity|].
  cbn [map filter existsb].
  destruct (negb (c =? 0)%Z); [|exact IH].
  cbn [length orb negb]. apply Z.eqb_neq. lia.
Qed.

Lemma Qsum_acc (l : list Q) : forall a, fold_left Qplus l a == a + Qsum l.
Proof.
  unfold Qsum. induction l as [|x t IH]; intros a; cbn [fold_left].
  - Lqa.lra.
  - rewrite (IH (a + x)), (IH (0 + x)). Lqa.lra.
Qed.

Lemma Qsum_cons (x : Q) (l : list Q) : Qsum (x :: l) == x + Qsum l.
Proof. unfold Qsum at 1. cbn [fold_left]. rewrite Qsum_acc. Lqa.lra. Qed.

Lemma Qsum_perm (l l' : list Q) : Permutation l l' -> Qsum l == Qsum l'.
Proof.
  induction 1 as [|x l l' _ IH|x y l|l l' l'' _ IH1 _ IH2].
  - reflexivity.
  - rewrite !Qsum_cons, IH. reflexivity.
  - rewrite !Qsum_cons. Lqa.lra.
  - now rewrite IH1.
Qed.

Section ForwardMore.
Variable smooth_l1_loss_sum : list (list Q) -> list (list Q) -> Q.
Variable criterion_loss : criterion_fn -> list Q -> cls_target -> Q.
Variable log_softmax : list Q -> list Q.

Local Abbreviation level_step' :=
  (level_step smooth_l1_loss_sum criterion_loss log_softmax).
Local Abbreviation levels_loop' :=
  (levels_loop smooth_l1_loss_sum criterion_loss log_softmax).
Local Abbreviation forward' :=
  (forward smooth_l1_loss_sum criterion_loss log_softmax).

Lemma level_step_skip (self : MultiBoxLoss) (st : num * num) (lv : level) :
  has_positive lv = false -> level_step' self st lv = Py.ret st.
Proof.
  intros H. unfold level_step. destruct st as [loc_loss cls_loss].
  rewrite mask_count_has_positive, H. reflexivity.
Qed.

Lemma level_step_positive (self : MultiBoxLoss) (st : num * num)
  (lv : level) :
  has_positive lv = true ->
  level_step' self st lv
  = (c <- level_cls_loss criterion_loss log_softmax self lv (positives lv)
            (mask_count (positives lv)) ;;
     Py.ret (num_add (fst st)
               (Tensor (level_loc_loss smooth_l1_loss_sum lv (positives lv)
                          (mask_count (positives lv)))),
             num_add (snd st) (Tensor c))).
Proof.
  intros H. unfold level_step. destruct st as [loc_loss cls_loss].
  rewrite mask_count_has_positive, H. reflexivity.
Qed.

Lemma levels_loop_filter (self : MultiBoxLoss) (lvs : list level) :
  forall st,
    levels_loop' self lvs st = levels_loop' self (filter has_positive lvs) st.
Proof.
  induction lvs as [|lv rest IH]; intros st; [reflexivity|].
  cbn [levels_loop filter].
  destruct (has_positive lv) eqn:E.
  - cbn [levels_loop].
    destruct (level_step' self st lv) as [e | st']; [reflexivity | apply IH].
  - rewrite level_step_skip by exact E. apply IH.
Qed.

(** X11: the loop of [forward] gives the same accumulators, or the same
    error, as the loop over only the levels that have a nonzero class
    target: a level without positives contributes nothing, whatever its
    predictions are. *)
Theorem levels_without_positives_are_skipped (self : MultiBoxLoss)
  (lvs : list level) (loc_loss cls_loss : num) :
  levels_loop' self lvs (loc_loss, cls_loss)
  = levels_loop' self (filter has_positive lvs) (loc_loss, cls_loss).
Proof. apply levels_loop_filter. Qed.

Lemma forward_unfold (self : MultiBoxLoss)
  (loc_preds cls_preds loc_targets : levels (list (list Q)))
  (cls_targets : levels (list Z))
  (ignores : option (list (option (list bool)))) (rnd : Q) :
  forward' self loc_preds cls_preds loc_targets cls_targets ignores rnd
  = (st <- levels_loop' self
             (forward_levels loc_preds cls_preds loc_targets cls_targets
                ignores) (PyInt 0, PyInt 0) ;;
     if Qltb rnd (p self) then
       _ <- item (fst st) ;; _ <- item (snd st) ;;
       Py.ret (num_add (snd st) (fst st))
     else Py.ret (num_add (snd st) (fst st))).
Proof.
  unfold forward, forward_levels.
  destruct (levels_loop' self _ _) as [e | [loc_loss cls_loss]]; reflexivity.
Qed.

Lemma levels_loop_tensors (self : MultiBoxLoss) (lvs : list level) :
  forall st st',
    levels_loop' self lvs st = Py.ret st' ->
    (is_tensor (fst st) /\ is_tensor (snd st)) \/
    Exists (fun lv => has_positive lv = true) lvs ->
    is_tensor (fst st') /\ is_tensor (snd st').
Proof.
  induction lvs as [|lv rest IH]; intros st st' Hloop Hor.
  - cbn in Hloop. injection Hloop as <-.
    destruct Hor as [H | H]; [exact H | inversion H].
  - cbn [levels_loop] in Hloop.
    destruct (has_positive lv) eqn:E.
    + rewrite level_step_positive in Hloop by exact E.
      destruct (level_cls_loss _ _ _ _ _ _) as [e | c]; [discriminate|].
      cbn [Py.bind Py.ret] in Hloop.
      apply (IH _ _ Hloop). left. cbn [fst snd].
      split; apply num_add_tensor.
    + rewrite level_step_skip in Hloop by exact E.
      cbn [Py.bind Py.ret] in Hloop.
      apply (IH _ _ Hloop).
      destruct Hor as [H | H]; [now left | right].
      inversion H as [? ? Hp | ? ? Hp]; subst; [congruence | exact Hp].
Qed.

Lemma forward_tensor_result (self : MultiBoxLoss)
  (loc_preds cls_preds loc_targets : levels (list (list Q)))
  (cls_targets : levels (list Z))
  (ignores : option (list (option (list bool)))) (rnd rnd' : Q) :
  Exists (fun lv => has_positive lv = true)
    (forward_levels loc_preds cls_preds loc_targets cls_targets ignores) ->
  forward' self loc_preds cls_preds loc_targets cls_targets ignores rnd
  = forward' self loc_preds cls_preds loc_targets cls_targets ignores rnd' /\
  forall r,
    forward' self loc_preds cls_preds loc_targets cls_targets ignores rnd
    = Py.ret r -> is_tensor r.
Proof.
  intros Hex. rewrite !forward_unfold.
  destruct (levels_loop' self _ _) as [e | st] eqn:Eloop.
  - split; [reflexivity | intros r H; discriminate].
  - destruct (levels_loop_tensors self _ _ _ Eloop (or_intror Hex))
      as [H1 H2].
    cbn [Py.bind Py.ret].
    destruct st as [[z1 | q1] [z2 | q2]]; cbn in H1, H2; try contradiction.
    cbn [fst snd item Py.bind Py.ret].
    split.
    + destruct (Qltb rnd (p self)), (Qltb rnd' (p self)); reflexivity.
    + intros r Hr.
      destruct (Qltb rnd (p self)); injection Hr as <-; exact I.
Qed.

(** X12: when some level has a nonzero class target, the result of
    [forward] does not depend on the random draw that guards the debug
    print (the print cannot fail, both accumulators being tensors by
    then), and a returned loss is a tensor, not the integer 0. *)
Theorem forward_with_positives_ignores_draw (self : MultiBoxLoss)
  (loc_preds cls_preds loc_targets : levels (list (list Q)))
  (cls_targets : levels (list Z))
  (ignores : option (list (option (list bool)))) (rnd rnd' : Q) :
  Exists (fun lv => has_positive lv = true)
    (forward_levels loc_preds cls_preds loc_targets cls_targets ignores) ->
  forward' self loc_preds cls_preds loc_targets cls_targets ignores rnd
  = forward' self loc_preds cls_preds loc_targets cls_targets ignores rnd' /\
  forall r,
    forward' self loc_preds cls_preds loc_targets cls_targets ignores rnd
    = Py.ret r -> exists q, r = Tensor q.
Proof.
  intros Hex.
  destruct (forward_tensor_result self loc_preds cls_preds loc_targets
              cls_targets ignores rnd rnd' Hex) as [H1 H2].
  split; [exact H1|].
  intros r Hr. specialize (H2 r Hr).
  destruct r as [z | q]; [contradiction | now exists q].
Qed.




(** X14: hard negative mining selects nothing away when the candidates
    are few: with [neg_pos_ratio * num_pos] at least the number of anchors
    that are neither positive nor ignored, the level's classification loss
    is the sum of the criterion losses of the positives plus the sum of
    the background losses of all those anchors, divided by the number of
    positives. *)
Theorem hard_negative_mining_takes_all (self : MultiBoxLoss) (lv : level)
  (ratio : Z) :
  truthy (neg_pos_ratio self) = Some ratio ->
  length (cls_p lv) = length (cls_t lv) ->
  (forall ig, ignore lv = Some ig -> length ig = length (cls_t lv)) ->
  (0 < count_positives lv)%Z ->
  (Z.of_nat (length (candidate_losses log_softmax lv))
   <= ratio * count_positives lv)%Z ->
  exists v,
    level_cls_loss criterion_loss log_softmax self lv (positives lv)
      (count_positives lv) = Py.ret v /\
    v == (Qsum (positive_losses criterion_loss self lv)
          + Qsum (candidate_losses log_softmax lv))
         / inject_Z (count_positives lv).
Proof.
  intros Hratio Hlen Hig Hnum Hall.
  unfold level_cls_loss. rewrite Hratio. unfold hard_negative_cls_loss.
  rewrite positive_sum_refines by exact Hlen.
  rewrite candidates_refine by assumption.
  set (cands := candidate_losses log_softmax lv) in *.
  rewrite Z.min_r by exact Hall.
  unfold topk.
  replace ((Z.of_nat (length cands) <? 0)
           || (Z.of_nat (length cands) <? Z.of_nat (length cands)))%Z
    with false
    by (symmetry; apply orb_false_iff; split; apply Z.ltb_ge; lia).
  cbn [Py.bind Py.ret]. eexists. split; [reflexivity|].
  rewrite Nat2Z.id, firstn_all2
    by (rewrite (Permutation_length (sort_desc_perm cands)); lia).
  rewrite (Qsum_perm _ _ (sort_desc_perm cands)). reflexivity.
Qed.

End ForwardMore.

Lemma forward_with_positives_ignores_draw_witness :
  forward example_smooth_l1 example_criterion example_log_softmax
    example_loss (Single (loc_p example_level)) (Single (cls_p example_level))
    (Single (loc_t example_level)) (Single (cls_t example_level))
    (Some [ignore example_level]) (1 # 2)
  = forward example_smooth_l1 example_criterion example_log_softmax
      example_loss (Single (loc_p example_level))
      (Single (cls_p example_level))
      (Single (loc_t example_level)) (Single (cls_t example_level))
      (Some [ignore example_level]) (1 # 20) /\
  forall r,
    forward example_smooth_l1 example_criterion example_log_softmax
      example_loss (Single (loc_p example_level))
      (Single (cls_p example_level))
      (Single (loc_t example_level)) (Single (cls_t example_level))
      (Some [ignore example_level]) (1 # 2)
    = Py.ret r -> exists q, r = Tensor q.
Proof.
  apply (forward_with_positives_ignores_draw example_smooth_l1
           example_criterion example_log_softmax).
  constructor. reflexivity.
Defined.


Lemma hard_negative_mining_takes_all_witness :
  exists v,
    level_cls_loss example_criterion example_log_softmax
      (MkMultiBoxLoss (Some 5%Z) 0 cross_entropy) example_level
      (positives example_level) (count_positives example_level)
    = Py.ret v /\
    v == (Qsum (positive_losses example_criterion
                  (MkMultiBoxLoss (Some 5%Z) 0 cross_entropy) example_level)
          + Qsum (candidate_losses example_log_softmax example_level))
         / inject_Z (count_positives example_level).
Proof.
  apply (hard_negative_mining_takes_all example_criterion
           example_log_softmax (MkMultiBoxLoss (Some 5%Z) 0 cross_entropy)
           example_level 5%Z).
  - reflexivity.
  - reflexivity.
  - intros ig H. injection H as <-. reflexivity.
  - vm_compute. reflexivity.
  - vm_compute. discriminate.
Defined.

End LossFacts.

(** ** More on [MultiLevelAnchorMatching.__call__] *)

Module MatchingFacts.
Import QAux PyMax PyLoop Tensor Geometry Matching.
Local Open Scope Q_scope.

Lemma mask_and_map {A : Type} (f g : A -> bool) (l : list A) :
  mask_and (map f l) (map g l) = map (fun x => f x && g x) l.
Proof. unfold mask_and. rewrite Py.combine_map_same, map_map. reflexivity. Qed.

Lemma map_const_repeat {A B : Type} (c : B) (l : list A) :
  map (fun _ => c) l = repeat c (length l).
Proof. induction l as [|x t IH]; simpl; [reflexivity | now rewrite IH]. Qed.

Lemma Forall2_update_nth_r {A B : Type} (R : A -> B -> Prop) (g : B -> B)
  (l1 : list A) (l2 : list B) :
  (forall x y, R x y -> R x (g y)) -> Forall2 R l1 l2 ->
  forall i, Forall2 R l1 (update_nth i g l2).
Proof.
  intros Hg H. induction H as [|x y l1 l2 Hxy Ht IH]; intros i;
    destruct i; simpl; constructor; auto.
Qed.

Lemma Forall2_map_fst {A B C : Type} (R : A -> B -> Prop)
  (l1 : list A) (l2 : list (B * C)) :
  Forall2 (fun x y => R x (fst y)) l1 l2 -> Forall2 R l1 (map fst l2).
Proof. induction 1; simpl; constructor; auto. Qed.

Lemma nth_error_update_nth_neq {A : Type} (g : A -> A) (l : list A) :
  forall i k, i <> k -> nth_error (update_nth i g l) k = nth_error l k.
Proof.
  induction l as [|x t IH]; intros i k Hik; destruct i, k; simpl;
    try reflexivity; try lia.
  apply IH. lia.
Qed.

Lemma Forall_mask_fill {A : Type} (P : A -> Prop) (v : A) (l : list A) :
  P v -> Forall P l -> forall mask, Forall P (mask_fill mask v l).
Proof.
  intros Hv H. induction H as [|x t Hx Ht IH]; intros mask;
    destruct mask as [|b mask]; simpl; try constructor; auto.
  destruct b; assumption.
Qed.

Lemma Forall_set_nth {A : Type} (P : A -> Prop) (v : A) (l : list A) :
  P v -> Forall P l -> forall i, Forall P (Py.set_nth i v l).
Proof.
  intros Hv H. induction H as [|x t Hx Ht IH]; intros i; destruct i; simpl;
    constructor; auto.
Qed.

Lemma existsb_id_false (l : list bool) :
  existsb (fun b => b) l = false -> forall i, nth i l false = false.
Proof.
  induction l as [|b t IH]; intros H i; [destruct i; reflexivity|].
  simpl in H. apply orb_false_iff in H. destruct H as [-> H].
  destruct i; [reflexivity | simpl; apply IH; exact H].
Qed.

Lemma negb_forallb {A : Type} (p : A -> bool) (l : list A) :
  negb (forallb p l) = existsb (fun x => negb (p x)) l.
Proof.
  induction l as [|x t IH]; [reflexivity|].
  simpl. rewrite negb_andb, IH. reflexivity.
Qed.

Lemma existsb_pointwise {A : Type} (p q : A -> bool) (l : list A) :
  (forall x, p x = q x) -> existsb p l = existsb q l.
Proof.
  intros H. induction l as [|x t IH]; [reflexivity|].
  simpl. now rewrite H, IH.
Qed.

Section WithIoU.
Variable iou_xywh : qbox -> qbox -> Q.
Variable transform_bbox : qbox -> qbox.

Local Abbreviation level_pass' := (level_pass iou_xywh).
Local Abbreviation ann_step' := (ann_step iou_xywh transform_bbox).
Local Abbreviation anns_loop' := (anns_loop iou_xywh transform_bbox).
Local Abbreviation call' := (call iou_xywh transform_bbox).

(** X15: without any level, [__call__] returns empty target lists for an
    empty annotation list, and raises [ValueError] ([max] of an empty
    sequence) as soon as there is an annotation. *)
Theorem call_without_levels (max_iou : bool) (pos_thresh neg_thresh : option Q)
  (get_label : ann -> Z) (get_bbox : ann -> qbox)
  (coords_to_target : qbox -> qbox -> nat * nat -> Coords.vec4)
  (debug : bool) (a : ann) (anns : list ann) :
  call' (MultiLevelAnchorMatching_init (Multi []) max_iou pos_thresh
           neg_thresh get_label get_bbox coords_to_target debug) []
  = Py.ret (MkTargets (Multi []) (Multi [])
              (match truthy neg_thresh with
               | Some _ => Some (Multi [])
               | None => None
               end)) /\
  call' (MultiLevelAnchorMatching_init (Multi []) max_iou pos_thresh
           neg_thresh get_label get_bbox coords_to_target debug) (a :: anns)
  = Py.raise Py.ValueError.
Proof. split; reflexivity. Qed.

Lemma anns_loop_flags (levels : list anchor_grid) (mi mi' : bool)
  (pt nt : option Q) (gl : ann -> Z) (gb : ann -> qbox)
  (c2t : qbox -> qbox -> nat * nat -> Coords.vec4) (dbg dbg' : bool)
  (anns : list ann) :
  forall lvs,
    anns_loop' (MkMatching levels mi pt nt gl gb c2t dbg) anns lvs
    = anns_loop' (MkMatching levels mi' pt nt gl gb c2t dbg') anns lvs.
Proof.
  induction anns as [|a rest IH]; intros lvs; [reflexivity|].
  cbn [anns_loop].
  change (ann_step' (MkMatching levels mi pt nt gl gb c2t dbg) lvs a)
    with (ann_step' (MkMatching levels mi' pt nt gl gb c2t dbg') lvs a).
  destruct (ann_step' _ lvs a) as [e | lvs1]; [reflexivity | apply IH].
Qed.

(** X16: the targets [__call__] returns do not depend on the [max_iou]
    flag (nor on [debug]): the anchor of greatest IoU is assigned whether
    the flag is set or not. *)
Theorem call_ignores_max_iou_flag (levels : list anchor_grid)
  (max_iou max_iou' : bool) (pos_thresh neg_thresh : option Q)
  (get_label : ann -> Z) (get_bbox : ann -> qbox)
  (coords_to_target : qbox -> qbox -> nat * nat -> Coords.vec4)
  (debug debug' : bool) (anns : list ann) :
  call' (MkMatching levels max_iou pos_thresh neg_thresh get_label get_bbox
           coords_to_target debug) anns
  = call' (MkMatching levels max_iou' pos_thresh neg_thresh get_label
             get_bbox coords_to_target debug') anns.
Proof.
  unfold call.
  change (initial_levels (MkMatching levels max_iou pos_thresh neg_thresh
                            get_label get_bbox coords_to_target debug))
    with (initial_levels (MkMatching levels max_iou' pos_thresh neg_thresh
                            get_label get_bbox coords_to_target debug')).
  rewrite (anns_loop_flags levels max_iou max_iou' pos_thresh neg_thresh
             get_label get_bbox coords_to_target debug debug').
  destruct (anns_loop' _ anns _) as [e | lvs]; reflexivity.
Qed.

(** *** One pass, read back *)

Lemma ann_step_inv (self : MultiLevelAnchorMatching)
  (lvs : list level_state) (a : ann) (lvs' : list level_state) :
  ann_step' self lvs a = Py.ret lvs' ->
  exists r f m i,
    mapM (level_pass' self (get_label self a)
            (transform_bbox (get_bbox self a))) lvs = Py.ret r /\
    py_max_key (fun x : nat * (Q * nat) => fst (snd x))
      (Py.enumerate (map snd r)) = Py.ret (f, (m, i)) /\
    lvs' = update_nth f
             (assign_best self (get_label self a)
                (transform_bbox (get_bbox self a)) i) (map fst r).
Proof.
  unfold ann_step. intros H.
  destruct (mapM _ lvs) as [e | r] eqn:Er; [discriminate|].
  cbn [Py.bind Py.ret] in H.
  destruct (py_max_key _ _) as [e | [f [m i]]] eqn:Eb; [discriminate|].
  cbn [Py.bind Py.ret] in H. injection H as <-.
  exists r, f, m, i. auto.
Qed.

Lemma level_pass_neg (self : MultiLevelAnchorMatching) (label : Z)
  (bbox : qbox) (lv lv' : level_state) (mx : Q * nat) :
  level_pass' self label bbox lv = Py.ret (lv', mx) ->
  anchors lv' = anchors lv /\
  neg lv' = match truthy (neg_thresh self) with
            | Some nt =>
                option_map
                  (fun n => mask_and n
                              (map (fun anc => Qltb (iou_xywh bbox anc) nt)
                                   (anchors lv)))
                  (neg lv)
            | None => neg lv
            end.
Proof.
  unfold level_pass. intros H.
  destruct (tensor_max _) as [e | mx']; [discriminate|].
  cbn [Py.bind Py.ret] in H. injection H as <- <-.
  destruct (truthy (pos_thresh self)) as [pt|];
    destruct (truthy (neg_thresh self)) as [nt|];
    try destruct (existsb _ _); cbn [anchors neg]; unfold iou_1m;
    rewrite ?map_map; auto.
Qed.

Lemma level_pass_labels (P : Z -> Prop) (self : MultiLevelAnchorMatching)
  (label : Z) (bbox : qbox) (lv lv' : level_state) (mx : Q * nat) :
  level_pass' self label bbox lv = Py.ret (lv', mx) ->
  P label -> Forall P (cls_t lv) -> Forall P (cls_t lv').
Proof.
  unfold level_pass. intros H Hl Hall.
  destruct (tensor_max _) as [e | mx']; [discriminate|].
  cbn [Py.bind Py.ret] in H. injection H as <- <-.
  destruct (truthy (pos_thresh self)) as [pt|];
    destruct (truthy (neg_thresh self)) as [nt|];
    try destruct (existsb _ _); cbn [cls_t];
    try apply Forall_mask_fill; assumption.
Qed.

(** *** The ignore masks *)

Definition neg_of (acc : qbox -> bool) (ancs : list qbox)
  : option (list bool) :=
  Some (map acc ancs).

Lemma neg_of_ext (acc acc' : qbox -> bool) (l : list (list qbox)) :
  (forall anc, acc anc = acc' anc) ->
  map (neg_of acc) l = map (neg_of acc') l.
Proof.
  intros H. apply map_ext. intros ancs. unfold neg_of. f_equal.
  apply map_ext. exact H.
Qed.

Lemma neg_maps_step (nt : Q) (bbox : qbox) (acc : qbox -> bool)
  (lvs lvs' : list level_state) :
  Forall2
    (fun lv lv' =>
       anchors lv' = anchors lv /\
       neg lv' = option_map
                   (fun n => mask_and n
                      (map (fun anc => Qltb (iou_xywh bbox anc) nt)
                           (anchors lv)))
                   (neg lv))
    lvs lvs' ->
  map neg lvs = map (neg_of acc) (map anchors lvs) ->
  map anchors lvs' = map anchors lvs /\
  map neg lvs'
  = map (neg_of (fun anc => acc anc && Qltb (iou_xywh bbox anc) nt))
        (map anchors lvs').
Proof.
  induction 1 as [|lv lv1 l l1 [Ha Hn] _ IH]; intros Hpre;
    [split; reflexivity|].
  cbn [map] in Hpre |- *. injection Hpre as Hhead Htail.
  destruct (IH Htail) as [IH1 IH2].
  split; [now rewrite Ha, IH1|].
  rewrite IH2. f_equal.
  rewrite Hn, Hhead, Ha. unfold neg_of. cbn [option_map].
  now rewrite mask_and_map.
Qed.

Lemma ann_step_neg (self : MultiLevelAnchorMatching)
  (lvs lvs' : list level_state) (a : ann) (nt : Q) (acc : qbox -> bool) :
  truthy (neg_thresh self) = Some nt ->
  ann_step' self lvs a = Py.ret lvs' ->
  map neg lvs = map (neg_of acc) (map anchors lvs) ->
  map anchors lvs' = map anchors lvs /\
  map neg lvs'
  = map (neg_of (fun anc =>
                   acc anc &&
                   Qltb (iou_xywh (transform_bbox (get_bbox self a)) anc) nt))
        (map anchors lvs').
Proof.
  intros Hnt Hstep Hpre.
  destruct (ann_step_inv self lvs a lvs' Hstep) as (r & f & m & i & Hr & _ & ->).
  apply neg_maps_step; [|exact Hpre].
  apply Forall2_update_nth_r; [intros x y H; exact H|].
  apply Forall2_map_fst.
  eapply Forall2_impl; [|exact (mapM_Forall2 _ _ _ Hr)].
  intros lv [lv1 mx] H. cbn [fst].
  apply level_pass_neg in H. rewrite Hnt in H. exact H.
Qed.

Lemma anns_loop_neg (self : MultiLevelAnchorMatching) (nt : Q)
  (anns : list ann) :
  truthy (neg_thresh self) = Some nt ->
  forall lvs lvs' acc,
    anns_loop' self anns lvs = Py.ret lvs' ->
    map neg lvs = map (neg_of acc) (map anchors lvs) ->
    map anchors lvs' = map anchors lvs /\
    map neg lvs'
    = map (neg_of (fun anc =>
                     acc anc &&
                     forallb
                       (fun a => Qltb (iou_xywh (transform_bbox
                                                   (get_bbox self a)) anc) nt)
                       anns))
          (map anchors lvs').
Proof.
  intros Hnt. induction anns as [|a rest IH]; intros lvs lvs' acc Hloop Hpre.
  - cbn in Hloop. injection Hloop as <-. split; [reflexivity|].
    rewrite Hpre. apply neg_of_ext. intros anc. cbn. now rewrite andb_true_r.
  - cbn [anns_loop] in Hloop.
    destruct (ann_step' self lvs a) as [e | lvs1] eqn:Estep; [discriminate|].
    cbn [Py.bind Py.ret] in Hloop.
    destruct (ann_step_neg self lvs lvs1 a nt acc Hnt Estep Hpre) as [Ha Hn].
    destruct (IH lvs1 lvs' _ Hloop Hn) as [Ha' Hn'].
    split; [congruence|].
    rewrite Hn'. apply neg_of_ext. intros anc. cbn [forallb].
    now rewrite andb_assoc.
Qed.

Lemma ignores_of_neg (self : MultiLevelAnchorMatching) (nt : Q)
  (anns : list ann) (lvs : list level_state) :
  truthy (neg_thresh self) = Some nt ->
  anns_loop' self anns (initial_levels self) = Py.ret lvs ->
  ignores (targets_of self lvs)
  = Some (unwrap_single
            (map (fun g =>
                    map (fun anc =>
                           if existsb
                                (fun a => Qle_bool nt
                                            (iou_xywh (transform_bbox
                                                         (get_bbox self a))
                                               anc))
                                anns
                           then 255%Z else 254%Z)
                        (grid_rows g))
                 (anchors_of_level self))).
Proof.
  intros Hnt Hloop.
  destruct (anns_loop_neg self nt anns Hnt _ _ (fun _ => true) Hloop)
    as [Ha Hn].
  { unfold initial_levels. rewrite !map_map. apply map_ext. intros g.
    unfold initial_level, neg_of. cbn [neg anchors]. rewrite Hnt.
    now rewrite map_const_repeat. }
  unfold targets_of. cbn [ignores]. rewrite Hnt. do 2 f_equal.
  rewrite <- (map_map neg (fun n => match n with
                                    | Some n => map uint8_not n
                                    | None => []
                                    end)).
  rewrite Hn, Ha. unfold initial_levels. rewrite !map_map.
  apply map_ext. intros g. unfold neg_of. cbn [anchors initial_level].
  rewrite map_map. apply map_ext. intros anc.
  cbn [andb].
  rewrite (existsb_pointwise
             (fun a => Qle_bool nt
                         (iou_xywh (transform_bbox (get_bbox self a)) anc))
             (fun a => negb (Qltb (iou_xywh (transform_bbox (get_bbox self a))
                                     anc) nt)))
    by (intros a; unfold Qltb; now rewrite negb_involutive).
  rewrite <- negb_forallb. unfold uint8_not.
  destruct (forallb _ anns); reflexivity.
Qed.

(** X17: with [neg_thresh] set, on at least one level and with an anchor
    on every level, [__call__] returns, and the ignore tensors it returns
    are the bitwise complements of the [uint8] masks: 255 at the anchors
    whose IoU with the box of some annotation is at least [neg_thresh]
    (positive anchors included), 254 at every other anchor, and so never
    0. *)
Theorem ignores_are_uint8_complements
  (self : MultiLevelAnchorMatching) (nt : Q) (anns : list ann) :
  truthy (neg_thresh self) = Some nt ->
  anchors_of_level self <> [] ->
  Forall (fun g => grid_rows g <> []) (anchors_of_level self) ->
  exists t,
    call' self anns = Py.ret t /\
    ignores t
    = Some (unwrap_single
              (map (fun g =>
                      map (fun anc =>
                             if existsb
                                  (fun a => Qle_bool nt
                                              (iou_xywh (transform_bbox
                                                           (get_bbox self a))
                                                 anc))
                                  anns
                             then 255%Z else 254%Z)
                          (grid_rows g))
                   (anchors_of_level self))).
Proof.
  intros Hnt Hne Hrows.
  destruct (initial_levels_good self Hne Hrows) as [Hgood _].
  destruct (anns_loop_good iou_xywh transform_bbox self anns _ Hgood)
    as (lvs & Hloop & _).
  exists (targets_of self lvs). split.
  - unfold call. rewrite Hloop. reflexivity.
  - apply (ignores_of_neg self nt anns lvs Hnt Hloop).
Qed.

(** *** Shapes and labels *)

Lemma ann_step_labels (P : Z -> Prop) (self : MultiLevelAnchorMatching)
  (lvs lvs' : list level_state) (a : ann) :
  ann_step' self lvs a = Py.ret lvs' ->
  P (get_label self a) ->
  Forall (fun lv => Forall P (cls_t lv)) lvs ->
  Forall (fun lv => Forall P (cls_t lv)) lvs'.
Proof.
  intros Hstep Hl Hall.
  destruct (ann_step_inv self lvs a lvs' Hstep) as (r & f & m & i & Hr & _ & ->).
  apply Forall_update_nth.
  - intros lv H. unfold assign_best. cbn [cls_t].
    apply Forall_set_nth; assumption.
  - pose proof (mapM_Forall2 _ _ _ Hr) as HF. clear Hr Hstep.
    induction HF as [|lv [lv1 mx] l l1 H _ IH]; [constructor|].
    inversion Hall as [|? ? Hlv Hrest]; subst.
    cbn [map fst]. constructor; [|apply IH; exact Hrest].
    eapply level_pass_labels; eassumption.
Qed.

Lemma anns_loop_labels (P : Z -> Prop) (self : MultiLevelAnchorMatching)
  (anns : list ann) :
  (forall a, In a anns -> P (get_label self a)) ->
  forall lvs lvs',
    anns_loop' self anns lvs = Py.ret lvs' ->
    Forall (fun lv => Forall P (cls_t lv)) lvs ->
    Forall (fun lv => Forall P (cls_t lv)) lvs'.
Proof.
  induction anns as [|a rest IH]; intros HP lvs lvs' Hloop Hall.
  - cbn in Hloop. now injection Hloop as <-.
  - cbn [anns_loop] in Hloop.
    destruct (ann_step' self lvs a) as [e | lvs1] eqn:Estep; [discriminate|].
    cbn [Py.bind Py.ret] in Hloop.
    apply (IH (fun x Hx => HP x (or_intror Hx)) lvs1 lvs' Hloop).
    apply (ann_step_labels P self lvs lvs1 a Estep); [|exact Hall].
    apply HP. now left.
Qed.

Lemma Forall2_of_maps (P : level_state -> Prop) (gs : list anchor_grid) :
  forall lvs,
    map anchors lvs = map grid_rows gs -> Forall P lvs ->
    Forall2 (fun g lv => anchors lv = grid_rows g /\ P lv) gs lvs.
Proof.
  induction gs as [|g gs IH]; intros lvs Hmap Hall;
    destruct lvs as [|lv lvs]; try discriminate; [constructor|].
  cbn [map] in Hmap. injection Hmap as Hh Ht.
  inversion Hall as [|? ? Hlv Hrest]; subst.
  constructor; [split; assumption | apply IH; assumption].
Qed.

(** X18: on at least one level and with an anchor on every level,
    [__call__] returns targets with one row of [loc_targets] and one entry
    of [cls_targets] per anchor of each level, and every class target is 0
    or the label of one of the annotations. *)
Theorem call_targets_shape_and_labels (self : MultiLevelAnchorMatching)
  (anns : list ann) :
  anchors_of_level self <> [] ->
  Forall (fun g => grid_rows g <> []) (anchors_of_level self) ->
  exists lvs,
    call' self anns = Py.ret (targets_of self lvs) /\
    Forall2
      (fun g lv =>
         length (loc_t lv) = length (grid_rows g) /\
         length (cls_t lv) = length (grid_rows g) /\
         Forall (fun c => c = 0%Z \/
                          exists a, In a anns /\ c = get_label self a)
                (cls_t lv))
      (anchors_of_level self) lvs.
Proof.
  intros Hne Hrows.
  destruct (initial_levels_good self Hne Hrows) as [Hgood Hmap].
  destruct (anns_loop_good iou_xywh transform_bbox self anns _ Hgood)
    as (lvs & Hloop & Ha & _ & (_ & _ & Hwf)).
  exists lvs. split; [unfold call; now rewrite Hloop|].
  pose (P := fun c : Z => c = 0%Z \/
                          exists a, In a anns /\ c = get_label self a).
  assert (Hlab : Forall (fun lv => Forall P (cls_t lv)) lvs).
  { apply (anns_loop_labels P self anns) with (lvs := initial_levels self).
    - intros a Ha'. right. now exists a.
    - exact Hloop.
    - unfold initial_levels. apply Forall_map. apply Forall_forall.
      intros g _. unfold initial_level. cbn [cls_t].
      apply Forall_forall. intros c Hc. apply repeat_spec in Hc. now left. }
  assert (Hboth : Forall (fun lv => wf lv /\ Forall P (cls_t lv)) lvs).
  { apply Forall_forall. intros lv Hlv. rewrite Forall_forall in Hwf, Hlab.
    split; auto. }
  rewrite Hmap in Ha.
  eapply Forall2_impl; [|exact (Forall2_of_maps _ _ lvs Ha Hboth)].
  intros g lv (Hanc & [W1 W2] & HP). rewrite <- Hanc. auto.
Qed.

(** *** The targets one annotation writes *)

(** [ious > self.pos_thresh] at one anchor, under [if self.pos_thresh:]. *)
Definition above_pos (self : MultiLevelAnchorMatching) (v : Q) : bool :=
  match truthy (pos_thresh self) with
  | Some pt => Qltb pt v
  | None => false
  end.

(** The class and localisation targets of anchor [i] of level [f]. *)
Definition target_at (lvs : list level_state) (f i : nat)
  : option Z * option Coords.vec4 :=
  match nth_error lvs f with
  | Some lv => (nth_error (cls_t lv) i, nth_error (loc_t lv) i)
  | None => (None, None)
  end.

Lemma level_pass_point (self : MultiLevelAnchorMatching) (label : Z)
  (bbox : qbox) (lv lv' : level_state) (mx : Q * nat) :
  wf lv ->
  level_pass' self label bbox lv = Py.ret (lv', mx) ->
  forall i anc,
    nth_error (anchors lv) i = Some anc ->
    nth_error (cls_t lv') i
    = (if above_pos self (iou_xywh bbox anc) then Some label
       else nth_error (cls_t lv) i) /\
    nth_error (loc_t lv') i
    = (if above_pos self (iou_xywh bbox anc)
       then Some (coords_to_target self bbox anc (location lv))
       else nth_error (loc_t lv) i).
Proof.
  intros [W1 W2] H i anc Hanc.
  assert (Hi : (i < length (anchors lv))%nat)
    by (apply nth_error_Some; congruence).
  destruct (nth_error (cls_t lv) i) as [c|] eqn:Ec;
    [|apply nth_error_None in Ec; lia].
  destruct (nth_error (loc_t lv) i) as [t|] eqn:Et;
    [|apply nth_error_None in Et; lia].
  unfold level_pass in H.
  destruct (tensor_max _) as [e | mx']; [discriminate|].
  cbn [Py.bind Py.ret] in H. cbv zeta in H. injection H as <- <-.
  unfold above_pos.
  destruct (truthy (pos_thresh self)) as [pt|].
  2: { destruct (truthy (neg_thresh self)); cbn [cls_t loc_t]; auto. }
  set (pos := map (fun v => Qltb pt v) (iou_1m iou_xywh bbox (anchors lv))).
  assert (Hpos : nth i pos false = Qltb pt (iou_xywh bbox anc)).
  { unfold pos, iou_1m.
    rewrite map_map, E2E.nth_map_nth_error, Hanc. reflexivity. }
  assert (Hlen : length pos = length (loc_t lv)).
  { unfold pos, iou_1m. rewrite !length_map. lia. }
  destruct (existsb (fun b => b) pos) eqn:Eany.
  - assert (Hc : nth_error (mask_fill pos label (cls_t lv)) i
                 = Some (if Qltb pt (iou_xywh bbox anc) then label else c)).
    { rewrite (E2E.mask_fill_nth label (cls_t lv) pos i c Ec), Hpos.
      reflexivity. }
    assert (Hl : nth_error
                   (mask_assign pos
                      (map (fun a => coords_to_target self bbox a (location lv))
                           (Py.select_mask pos (anchors lv)))
                      (loc_t lv)) i
                 = Some (if Qltb pt (iou_xywh bbox anc)
                         then coords_to_target self bbox anc (location lv)
                         else t)).
    { rewrite (E2E.mask_assign_nth
                 (fun a => coords_to_target self bbox a (location lv))
                 (loc_t lv) pos (anchors lv) i t anc Hlen (eq_sym W1) Et Hanc).
      rewrite Hpos. reflexivity. }
    destruct (truthy (neg_thresh self)); cbn [cls_t loc_t];
      rewrite Hc, Hl; destruct (Qltb pt (iou_xywh bbox anc)); auto.
  - pose proof (existsb_id_false pos Eany i) as Hfalse.
    rewrite Hpos in Hfalse. rewrite Hfalse.
    destruct (truthy (neg_thresh self)); cbn [cls_t loc_t]; auto.
Qed.

Lemma best_level_is_best (self : MultiLevelAnchorMatching) (label : Z)
  (bbox : qbox) (lvs : list level_state)
  (r : list (level_state * (Q * nat))) (f i : nat) (m : Q) :
  mapM (level_pass' self label bbox) lvs = Py.ret r ->
  py_max_key (fun x : nat * (Q * nat) => fst (snd x))
    (Py.enumerate (map snd r)) = Py.ret (f, (m, i)) ->
  is_best iou_xywh bbox lvs f i m.
Proof.
  intros Hr Hbest.
  assert (Hmaxes : Forall2
            (fun lv y => tensor_max (iou_1m iou_xywh bbox (anchors lv))
                         = Py.ret (snd y)) lvs r).
  { eapply Forall2_impl; [|exact (mapM_Forall2 _ _ _ Hr)].
    intros lv [lv' mx] H. cbn [snd].
    apply (level_pass_inv iou_xywh self label bbox) in H. apply H. }
  pose proof (max_enumerate_key_spec (@fst Q nat) (map snd r) f (m, i) Hbest)
    as (Hf & Hle & Hlt).
  cbn [fst] in Hle, Hlt.
  rewrite nth_error_map in Hf.
  destruct (nth_error r f) as [[lv1 mx]|] eqn:Erf; [|discriminate].
  cbn in Hf. injection Hf as ->.
  destruct (Forall2_nth_error_r _ _ _ Hmaxes f _ Erf) as (lv & Hlv & Hmax).
  cbn [snd] in Hmax.
  destruct (tensor_max_spec _ _ _ Hmax) as (Hi & Hile & Hilt).
  unfold iou_1m in Hi. rewrite nth_error_map in Hi.
  destruct (nth_error (anchors lv) i) as [anc|] eqn:Eanc; [|discriminate].
  cbn in Hi. injection Hi as Hm.
  unfold is_best, iou_at. split.
  - rewrite Hlv, Eanc. cbn. now rewrite Hm.
  - intros f' i' v Hv.
    destruct (nth_error lvs f') as [lv'|] eqn:Elv'; [|discriminate].
    destruct (nth_error (anchors lv') i') as [anc'|] eqn:Eanc';
      [|discriminate].
    cbn in Hv. injection Hv as Hv.
    destruct (Forall2_nth_error_l _ _ _ Hmaxes f' lv' Elv')
      as ([lv1' [m' j']] & Hr' & Hmax').
    cbn [snd] in Hmax'.
    destruct (tensor_max_spec _ _ _ Hmax') as (_ & Hile' & Hilt').
    assert (Hv' : nth_error (iou_1m iou_xywh bbox (anchors lv')) i' = Some v).
    { unfold iou_1m. rewrite nth_error_map, Eanc'. cbn. now rewrite Hv. }
    assert (Hsnd : nth_error (map snd r) f' = Some (m', j')).
    { rewrite nth_error_map, Hr'. reflexivity. }
    split.
    + eapply Qle_trans; [exact (Hile' _ _ Hv') | exact (Hle _ _ Hsnd)].
    + intros [Hlt' | [-> Hlt']].
      * eapply Qle_lt_trans; [exact (Hile' _ _ Hv')|].
        exact (Hlt _ _ Hlt' Hsnd).
      * rewrite Hlv in Elv'. injection Elv' as <-.
        exact (Hilt _ _ Hlt' Hv').
Qed.

Lemma ann_step_point (self : MultiLevelAnchorMatching) (label : Z)
  (bbox : qbox) (lvs : list level_state)
  (r : list (level_state * (Q * nat))) (f i : nat) :
  Forall wf lvs ->
  mapM (level_pass' self label bbox) lvs = Py.ret r ->
  forall f' i' lv anc,
    nth_error lvs f' = Some lv -> nth_error (anchors lv) i' = Some anc ->
    exists lv',
      nth_error (update_nth f (assign_best self label bbox i) (map fst r)) f'
      = Some lv' /\
      anchors lv' = anchors lv /\ location lv' = location lv /\
      nth_error (cls_t lv') i'
      = (if ((f' =? f)%nat && (i' =? i)%nat)
            || above_pos self (iou_xywh bbox anc)
         then Some label else nth_error (cls_t lv) i') /\
      nth_error (loc_t lv') i'
      = (if ((f' =? f)%nat && (i' =? i)%nat)
            || above_pos self (iou_xywh bbox anc)
         then Some (coords_to_target self bbox anc (location lv))
         else nth_error (loc_t lv) i').
Proof.
  intros Hwf Hr f' i' lv anc Hlv Hanc.
  pose proof (mapM_Forall2 _ _ _ Hr) as HF.
  destruct (Forall2_nth_error_l _ _ _ HF f' lv Hlv) as ([lv1 mx] & Hr' & Hpass).
  assert (Hwflv : wf lv).
  { rewrite Forall_forall in Hwf. apply Hwf. eapply nth_error_In. exact Hlv. }
  destruct (level_pass_inv iou_xywh self label bbox lv lv1 mx Hpass)
    as (Ha & Hloc & Hl & Hc & _).
  destruct (level_pass_point self label bbox lv lv1 mx Hwflv Hpass i' anc Hanc)
    as [Hcls Hloct].
  assert (Hfst : nth_error (map fst r) f' = Some lv1)
    by (rewrite nth_error_map, Hr'; reflexivity).
  assert (Hi' : (i' < length (anchors lv))%nat)
    by (apply nth_error_Some; congruence).
  destruct Hwflv as [W1 W2].
  destruct (Nat.eqb_spec f' f) as [-> | Hf].
  - exists (assign_best self label bbox i lv1).
    split; [rewrite nth_error_update_nth_eq, Hfst; reflexivity|].
    unfold assign_best; cbn [anchors location cls_t loc_t].
    split; [exact Ha|]. split; [exact Hloc|].
    destruct (Nat.eqb_spec i' i) as [-> | Hi]; cbn [andb orb].
    + split.
      * apply Py.nth_error_set_nth_eq. lia.
      * rewrite Ha, Hloc, (Py.nth_error_nth_default _ _ _ (QBox 0 0 0 0) Hanc).
        apply Py.nth_error_set_nth_eq. lia.
    + rewrite !Py.nth_error_set_nth_neq by auto. split; assumption.
  - exists lv1.
    split; [rewrite nth_error_update_nth_neq by auto; exact Hfst|].
    cbn [andb orb]. auto.
Qed.

Lemma same_anchors_nth (l1 l2 : list level_state) (f : nat)
  (lv1 : level_state) :
  map anchors l1 = map anchors l2 -> nth_error l1 f = Some lv1 ->
  exists lv2, nth_error l2 f = Some lv2 /\ anchors lv2 = anchors lv1.
Proof.
  intros Hmap H1.
  apply (f_equal (fun l => nth_error l f)) in Hmap.
  rewrite !nth_error_map, H1 in Hmap.
  destruct (nth_error l2 f) as [lv2|]; [|discriminate].
  cbn in Hmap. injection Hmap as Hmap. now exists lv2.
Qed.

Lemma iou_at_same (bbox : qbox) (l1 l2 : list level_state) (f i : nat) :
  map anchors l1 = map anchors l2 ->
  iou_at iou_xywh bbox l1 f i = iou_at iou_xywh bbox l2 f i.
Proof.
  intros Hmap. unfold iou_at.
  apply (f_equal (fun l => nth_error l f)) in Hmap.
  rewrite !nth_error_map in Hmap.
  destruct (nth_error l1 f) as [x|], (nth_error l2 f) as [y|];
    cbn in Hmap; try discriminate; [|reflexivity].
  injection Hmap as ->. reflexivity.
Qed.

(** One annotation's pass from good levels: the level and the anchor of
    the max-IoU write, and what every anchor holds after. *)
Lemma ann_step_full (self : MultiLevelAnchorMatching)
  (lvs0 : list level_state) (a : ann) :
  good lvs0 ->
  exists lvs f i m,
    ann_step' self lvs0 a = Py.ret lvs /\
    good lvs /\
    map anchors lvs = map anchors lvs0 /\
    is_best iou_xywh (transform_bbox (get_bbox self a)) lvs0 f i m /\
    forall f' i' lv anc,
      nth_error lvs0 f' = Some lv -> nth_error (anchors lv) i' = Some anc ->
      exists lv',
        nth_error lvs f' = Some lv' /\
        anchors lv' = anchors lv /\ location lv' = location lv /\
        nth_error (cls_t lv') i'
        = (if ((f' =? f)%nat && (i' =? i)%nat)
              || above_pos self
                   (iou_xywh (transform_bbox (get_bbox self a)) anc)
           then Some (get_label self a) else nth_error (cls_t lv) i') /\
        nth_error (loc_t lv') i'
        = (if ((f' =? f)%nat && (i' =? i)%nat)
              || above_pos self
                   (iou_xywh (transform_bbox (get_bbox self a)) anc)
           then Some (coords_to_target self
                        (transform_bbox (get_bbox self a)) anc (location lv))
           else nth_error (loc_t lv) i').
Proof.
  intros Hg0.
  destruct (ann_step_spec iou_xywh transform_bbox self lvs0 a Hg0)
    as (lvs & _ & _ & _ & Hstep & Hanc & _ & Hg & _).
  destruct (ann_step_inv self lvs0 a lvs Hstep)
    as (r & f & m & i & Hr & Hbest & Heq).
  exists lvs, f, i, m.
  split; [exact Hstep|]. split; [exact Hg|]. split; [exact Hanc|].
  split; [exact (best_level_is_best self _ _ lvs0 r f i m Hr Hbest)|].
  rewrite Heq. apply ann_step_point; [apply Hg0 | exact Hr].
Qed.

(** The iteration for annotation [a], after the annotations
    [anns_before]: the state before, the state after, the level and the
    anchor of the max-IoU write, and what every anchor holds after. *)
Lemma iteration_spec (self : MultiLevelAnchorMatching)
  (anns_before : list ann) (a : ann) :
  anchors_of_level self <> [] ->
  Forall (fun g => grid_rows g <> []) (anchors_of_level self) ->
  exists lvs0 lvs f i m,
    anns_loop' self anns_before (initial_levels self) = Py.ret lvs0 /\
    anns_loop' self (anns_before ++ [a]) (initial_levels self) = Py.ret lvs /\
    map anchors lvs = map anchors lvs0 /\
    is_best iou_xywh (transform_bbox (get_bbox self a)) lvs0 f i m /\
    forall f' i' lv anc,
      nth_error lvs0 f' = Some lv -> nth_error (anchors lv) i' = Some anc ->
      exists lv',
        nth_error lvs f' = Some lv' /\
        anchors lv' = anchors lv /\ location lv' = location lv /\
        nth_error (cls_t lv') i'
        = (if ((f' =? f)%nat && (i' =? i)%nat)
              || above_pos self
                   (iou_xywh (transform_bbox (get_bbox self a)) anc)
           then Some (get_label self a) else nth_error (cls_t lv) i') /\
        nth_error (loc_t lv') i'
        = (if ((f' =? f)%nat && (i' =? i)%nat)
              || above_pos self
                   (iou_xywh (transform_bbox (get_bbox self a)) anc)
           then Some (coords_to_target self
                        (transform_bbox (get_bbox self a)) anc (location lv))
           else nth_error (loc_t lv) i').
Proof.
  intros Hne Hrows.
  destruct (initial_levels_good self Hne Hrows) as [Hgood _].
  destruct (anns_loop_good iou_xywh transform_bbox self anns_before _ Hgood)
    as (lvs0 & Hloop0 & _ & _ & Hg0).
  destruct (ann_step_full self lvs0 a Hg0)
    as (lvs & f & i & m & Hstep & _ & Hanc & Hbest & Hpoint).
  exists lvs0, lvs, f, i, m.
  split; [exact Hloop0|].
  split; [rewrite anns_loop_app, Hloop0; cbn; now rewrite Hstep|].
  split; [exact Hanc|]. split; [exact Hbest | exact Hpoint].
Qed.

(** X19: with [pos_thresh] set, at the end of an annotation's iteration
    every anchor whose IoU with the annotation's box is above
    [pos_thresh] has the annotation's label as class target and the
    encoding of the box as localisation target. *)
Theorem anchors_above_pos_thresh_assigned (self : MultiLevelAnchorMatching)
  (anns_before : list ann) (a : ann) (pt : Q) :
  truthy (pos_thresh self) = Some pt ->
  anchors_of_level self <> [] ->
  Forall (fun g => grid_rows g <> []) (anchors_of_level self) ->
  exists lvs,
    anns_loop' self (anns_before ++ [a]) (initial_levels self) = Py.ret lvs /\
    call' self (anns_before ++ [a]) = Py.ret (targets_of self lvs) /\
    forall f i v,
      iou_at iou_xywh (transform_bbox (get_bbox self a)) lvs f i = Some v ->
      pt < v ->
      assigned_to transform_bbox self a lvs f i.
Proof.
  intros Hpt Hne Hrows.
  destruct (iteration_spec self anns_before a Hne Hrows)
    as (lvs0 & lvs & f & i & m & _ & Hloop & Hanc & _ & Hpoint).
  exists lvs. split; [exact Hloop|].
  split; [unfold call; now rewrite Hloop|].
  intros f' i' v Hv Hlt.
  rewrite (iou_at_same _ lvs lvs0 f' i' Hanc) in Hv. unfold iou_at in Hv.
  destruct (nth_error lvs0 f') as [lv|] eqn:Elv; [|discriminate].
  destruct (nth_error (anchors lv) i') as [anc|] eqn:Eanc; [|discriminate].
  cbn in Hv. injection Hv as Hv.
  destruct (Hpoint f' i' lv anc Elv Eanc)
    as (lv' & Hlv' & Ha & Hloc & Hcls & Hloct).
  assert (Habove : above_pos self
                     (iou_xywh (transform_bbox (get_bbox self a)) anc) = true).
  { unfold above_pos. rewrite Hpt, Hv. now apply Qltb_lt. }
  rewrite Habove, orb_true_r in Hcls, Hloct.
  exists lv', anc. rewrite Ha, Hloc. auto.
Qed.

(** X20: an annotation's iteration changes no other target: an anchor
    that is not the anchor of greatest IoU and whose IoU with the
    annotation's box is not above [pos_thresh] (or [pos_thresh] is unset)
    keeps the class and localisation targets it had before the
    iteration. *)
Theorem other_anchors_keep_targets (self : MultiLevelAnchorMatching)
  (anns_before : list ann) (a : ann) :
  anchors_of_level self <> [] ->
  Forall (fun g => grid_rows g <> []) (anchors_of_level self) ->
  exists lvs0 lvs f i m,
    anns_loop' self anns_before (initial_levels self) = Py.ret lvs0 /\
    anns_loop' self (anns_before ++ [a]) (initial_levels self) = Py.ret lvs /\
    is_best iou_xywh (transform_bbox (get_bbox self a)) lvs f i m /\
    forall f' i' v,
      iou_at iou_xywh (transform_bbox (get_bbox self a)) lvs f' i' = Some v ->
      (f', i') <> (f, i) ->
      (forall pt, truthy (pos_thresh self) = Some pt -> v <= pt) ->
      target_at lvs f' i' = target_at lvs0 f' i'.
Proof.
  intros Hne Hrows.
  destruct (iteration_spec self anns_before a Hne Hrows)
    as (lvs0 & lvs & f & i & m & Hloop0 & Hloop & Hanc & Hbest & Hpoint).
  exists lvs0, lvs, f, i, m.
  split; [exact Hloop0|]. split; [exact Hloop|].
  split.
  { destruct Hbest as [Hb1 Hb2]. split.
    - now rewrite (iou_at_same _ lvs lvs0 f i Hanc).
    - intros f' i' v. rewrite (iou_at_same _ lvs lvs0 f' i' Hanc).
      apply Hb2. }
  intros f' i' v Hv Hneq Hle.
  rewrite (iou_at_same _ lvs lvs0 f' i' Hanc) in Hv. unfold iou_at in Hv.
  unfold target_at.
  destruct (nth_error lvs0 f') as [lv|] eqn:Elv; [|discriminate].
  destruct (nth_error (anchors lv) i') as [anc|] eqn:Eanc; [|discriminate].
  cbn in Hv. injection Hv as Hv.
  destruct (Hpoint f' i' lv anc Elv Eanc)
    as (lv' & Hlv' & _ & _ & Hcls & Hloct).
  assert (Hwrite : ((f' =? f)%nat && (i' =? i)%nat) = false).
  { destruct (Nat.eqb_spec f' f) as [-> | H1]; [|reflexivity].
    destruct (Nat.eqb_spec i' i) as [-> | H2]; [|reflexivity].
    exfalso. now apply Hneq. }
  assert (Habove : above_pos self
                     (iou_xywh (transform_bbox (get_bbox self a)) anc) = false).
  { unfold above_pos. destruct (truthy (pos_thresh self)) as [pt|];
      [|reflexivity].
    apply Qltb_ge. rewrite Hv. now apply Hle. }
  rewrite Hwrite, Habove in Hcls, Hloct. cbn [orb] in Hcls, Hloct.
  rewrite Hlv', Hcls, Hloct. reflexivity.
Qed.

(** *** What the returned targets keep of an annotation *)

(** What the returned targets hold at anchor [i] of level [f], whether
    one level's tensors or a list per level came back. *)
Definition returned_at (t : targets) (f i : nat)
  : option Z * option Coords.vec4 :=
  (match nth_error (_ensure_multi_level (cls_targets t)) f with
   | Some c => nth_error c i
   | None => None
   end,
   match nth_error (_ensure_multi_level (loc_targets t)) f with
   | Some l => nth_error l i
   | None => None
   end).

(** Annotation [b] leaves anchor [i] of level [f] alone: the anchor is not
    the one of greatest IoU with the box of [b], and its IoU with that box
    is not above [pos_thresh]. *)
Definition leaves (self : MultiLevelAnchorMatching) (b : ann) (f i : nat)
  : Prop :=
  (forall m,
     ~ is_best iou_xywh (transform_bbox (get_bbox self b))
         (initial_levels self) f i m) /\
  (forall pt v,
     truthy (pos_thresh self) = Some pt ->
     iou_at iou_xywh (transform_bbox (get_bbox self b))
       (initial_levels self) f i = Some v ->
     v <= pt).

Lemma iou_at_initial_levels (self : MultiLevelAnchorMatching) (bbox : qbox)
  (f i : nat) :
  iou_at iou_xywh bbox (initial_levels self) f i
  = match nth_error (anchors_of_level self) f with
    | Some g => option_map (iou_xywh bbox) (nth_error (grid_rows g) i)
    | None => None
    end.
Proof.
  unfold iou_at, initial_levels. rewrite nth_error_map.
  destruct (nth_error (anchors_of_level self) f); reflexivity.
Qed.

Lemma ensure_unwrap_single {A : Type} (l : list A) :
  _ensure_multi_level (unwrap_single l) = l.
Proof. destruct l as [|x [|y t]]; reflexivity. Qed.

Lemma returned_at_targets_of (self : MultiLevelAnchorMatching)
  (lvs : list level_state) (f i : nat) :
  returned_at (targets_of self lvs) f i = target_at lvs f i.
Proof.
  unfold returned_at, targets_of, target_at.
  cbn [cls_targets loc_targets].
  rewrite !ensure_unwrap_single, !nth_error_map.
  destruct (nth_error lvs f); reflexivity.
Qed.

Lemma is_best_same (bbox : qbox) (l1 l2 : list level_state) (f i : nat)
  (m : Q) :
  map anchors l1 = map anchors l2 ->
  is_best iou_xywh bbox l1 f i m -> is_best iou_xywh bbox l2 f i m.
Proof.
  intros Hmap [H1 H2]. split.
  - now rewrite <- (iou_at_same bbox l1 l2 f i Hmap).
  - intros f' i' v. rewrite <- (iou_at_same bbox l1 l2 f' i' Hmap).
    apply H2.
Qed.

Lemma later_annotations_keep (self : MultiLevelAnchorMatching) (a : ann)
  (f i : nat) (anns_after : list ann) :
  (forall b, In b anns_after -> leaves self b f i) ->
  forall lvs_a,
    good lvs_a ->
    map anchors lvs_a = map anchors (initial_levels self) ->
    assigned_to transform_bbox self a lvs_a f i ->
    exists lvs,
      anns_loop' self anns_after lvs_a = Py.ret lvs /\
      assigned_to transform_bbox self a lvs f i.
Proof.
  induction anns_after as [|b rest IH]; intros Hleave lvs_a Hg Hanc Hass.
  - exists lvs_a. split; [reflexivity | exact Hass].
  - destruct (ann_step_full self lvs_a b Hg)
      as (lvs1 & fb & ib & mb & Hstep & Hg1 & Hanc1 & Hbest & Hpoint).
    cbn [anns_loop]. rewrite Hstep. cbn [Py.bind Py.ret].
    apply IH.
    + intros b' Hb'. apply Hleave. now right.
    + exact Hg1.
    + congruence.
    + destruct Hass as (lv & anc & Hlv & Hi & Hcls & Hloc).
      destruct (Hpoint f i lv anc Hlv Hi)
        as (lv' & Hlv' & Ha' & Hl' & Hcls' & Hloc').
      destruct (Hleave b (or_introl eq_refl)) as [Hnb Hnp].
      assert (Hwrite : ((f =? fb)%nat && (i =? ib)%nat) = false).
      { destruct (Nat.eqb_spec f fb) as [-> | H1]; [|reflexivity].
        destruct (Nat.eqb_spec i ib) as [-> | H2]; [|reflexivity].
        exfalso. apply (Hnb mb).
        exact (is_best_same _ lvs_a _ fb ib mb Hanc Hbest). }
      assert (Habove : above_pos self
                         (iou_xywh (transform_bbox (get_bbox self b)) anc)
                       = false).
      { unfold above_pos.
        destruct (truthy (pos_thresh self)) as [pt|] eqn:Ept; [|reflexivity].
        apply Qltb_ge. apply (Hnp pt _ eq_refl).
        rewrite <- (iou_at_same _ lvs_a _ f i Hanc).
        unfold iou_at. rewrite Hlv, Hi. reflexivity. }
      rewrite Hwrite, Habove in Hcls', Hloc'. cbn [orb] in Hcls', Hloc'.
      exists lv', anc. rewrite Ha', Hl'.
      split; [exact Hlv'|]. split; [exact Hi|].
      split; congruence.
Qed.

(** C3, as amended: with the max-IoU assignment enabled, at least one
    level and at least one anchor per level, [__call__] returns for every
    annotation list, and for every annotation [a] of the list the anchor
    of greatest IoU with its box over all levels (the earliest level, and
    the lowest index in it, among equals) has the label of [a] as
    [cls_target] and the encoding of its box as [loc_target] at the end
    of the iteration of [a], whatever [pos_thresh] is.  The returned
    targets hold them at that anchor when every later annotation leaves
    the anchor alone, in particular when [a] is the last annotation. *)
Theorem max_iou_anchor_assigned_unless_overwritten
  (self : MultiLevelAnchorMatching)
  (anns_before : list ann) (a : ann) (anns_after : list ann) :
  max_iou self = true ->
  anchors_of_level self <> [] ->
  Forall (fun g => grid_rows g <> []) (anchors_of_level self) ->
  exists f i m lv0 anc lvs_a t,
    nth_error (initial_levels self) f = Some lv0 /\
    nth_error (anchors lv0) i = Some anc /\
    is_best iou_xywh (transform_bbox (get_bbox self a))
      (initial_levels self) f i m /\
    anns_loop' self (anns_before ++ [a]) (initial_levels self)
    = Py.ret lvs_a /\
    assigned_to transform_bbox self a lvs_a f i /\
    call' self (anns_before ++ a :: anns_after) = Py.ret t /\
    ((forall b, In b anns_after -> leaves self b f i) ->
     returned_at t f i
     = (Some (get_label self a),
        Some (coords_to_target self (transform_bbox (get_bbox self a)) anc
                (location lv0)))).
Proof.
  intros _ Hne Hrows.
  destruct (initial_levels_good self Hne Hrows) as [Hgood _].
  destruct (anns_loop_good iou_xywh transform_bbox self anns_before _ Hgood)
    as (lvs0 & Hloop0 & Ha0 & Hl0 & Hg0).
  destruct (ann_step_spec iou_xywh transform_bbox self lvs0 a Hg0)
    as (lvs_a & f & i & m & Hstep & Ha & Hl & Hg & Hbest & Hass).
  assert (Hanc : map anchors lvs_a = map anchors (initial_levels self))
    by congruence.
  assert (Hloc : map location lvs_a = map location (initial_levels self))
    by congruence.
  assert (Hloop_a : anns_loop' self (anns_before ++ [a]) (initial_levels self)
                    = Py.ret lvs_a).
  { rewrite anns_loop_app, Hloop0. cbn. now rewrite Hstep. }
  destruct (anns_loop_good iou_xywh transform_bbox self anns_after _ Hg)
    as (lvs & Hloop & _).
  assert (Hcall : call' self (anns_before ++ a :: anns_after)
                  = Py.ret (targets_of self lvs)).
  { unfold call.
    change (a :: anns_after) with ([a] ++ anns_after).
    rewrite app_assoc, anns_loop_app, Hloop_a. cbn [Py.bind Py.ret].
    now rewrite Hloop. }
  destruct Hass as (lv & anc & Hlv & Hi & Hcls & Hloct).
  destruct (same_anchors_nth lvs_a (initial_levels self) f lv Hanc Hlv)
    as (lv0 & Hlv0 & Hanc0).
  assert (Hlocation : location lv0 = location lv).
  { apply (f_equal (fun l => nth_error l f)) in Hloc.
    rewrite !nth_error_map, Hlv, Hlv0 in Hloc. cbn in Hloc. congruence. }
  exists f, i, m, lv0, anc, lvs_a, (targets_of self lvs).
  split; [exact Hlv0|].
  split; [now rewrite Hanc0|].
  split; [exact (is_best_same _ lvs_a _ f i m Hanc Hbest)|].
  split; [exact Hloop_a|].
  split; [now exists lv, anc|].
  split; [exact Hcall|].
  intros Hleave.
  destruct (later_annotations_keep self a f i anns_after Hleave lvs_a Hg Hanc
              (ex_intro _ lv (ex_intro _ anc
                 (conj Hlv (conj Hi (conj Hcls Hloct))))))
    as (lvs' & Hloop' & (lv' & anc' & Hlv' & Hi' & Hcls' & Hloc')).
  rewrite Hloop in Hloop'. injection Hloop' as <-.
  rewrite returned_at_targets_of. unfold target_at. rewrite Hlv'.
  destruct (same_anchors_nth lvs lvs_a f lv') as (lv2 & Hlv2 & Hanc2).
  { destruct (anns_loop_good iou_xywh transform_bbox self anns_after _ Hg)
      as (lvs2 & Hloop2 & Ha2 & _).
    rewrite Hloop in Hloop2. injection Hloop2 as <-. exact Ha2. }
  { exact Hlv'. }
  rewrite Hlv in Hlv2. injection Hlv2 as <-.
  rewrite <- Hanc2, Hi in Hi'. injection Hi' as <-.
  rewrite Hcls', Hloc'. f_equal. f_equal. f_equal.
  assert (Hloc2 : map location lvs = map location lvs_a).
  { destruct (anns_loop_good iou_xywh transform_bbox self anns_after _ Hg)
      as (lvs2 & Hloop2 & _ & Hl2 & _).
    rewrite Hloop in Hloop2. injection Hloop2 as <-. exact Hl2. }
  apply (f_equal (fun l => nth_error l f)) in Hloc2.
  rewrite !nth_error_map, Hlv, Hlv' in Hloc2. cbn in Hloc2. congruence.
Qed.

(** X27: with at least one annotation and no annotation labelled 0,
    the class targets [__call__] returns hold a nonzero entry at some
    level: the anchor of greatest IoU with the last annotation is
    positive. *)
Theorem call_marks_a_positive (self : MultiLevelAnchorMatching)
  (anns : list ann) :
  anchors_of_level self <> [] ->
  Forall (fun g => grid_rows g <> []) (anchors_of_level self) ->
  anns <> [] ->
  (forall a, In a anns -> get_label self a <> 0%Z) ->
  exists lvs,
    call' self anns = Py.ret (targets_of self lvs) /\
    Exists (fun lv => Exists (fun c => c <> 0%Z) (cls_t lv)) lvs.
Proof.
  intros Hne Hrows Hanns Hlab.
  destruct (exists_last Hanns) as (before & a & ->).
  destruct (iteration_spec self before a Hne Hrows)
    as (lvs0 & lvs & f & i & m & _ & Hloop & _ & [Hbest _] & Hpoint).
  exists lvs. split; [unfold call; now rewrite Hloop|].
  unfold iou_at in Hbest.
  destruct (nth_error lvs0 f) as [lv|] eqn:Elv; [|discriminate].
  destruct (nth_error (anchors lv) i) as [anc|] eqn:Eanc; [|discriminate].
  destruct (Hpoint f i lv anc Elv Eanc) as (lv' & Hlv' & _ & _ & Hcls & _).
  rewrite !Nat.eqb_refl in Hcls. cbn [andb orb] in Hcls.
  apply Exists_exists. exists lv'.
  split; [eapply nth_error_In; exact Hlv'|].
  apply Exists_exists. exists (get_label self a).
  split; [eapply nth_error_In; exact Hcls|].
  apply Hlab. apply in_or_app. right. now left.
Qed.

End WithIoU.

(** The two levels of [example_matching], with [neg_thresh] set. *)
Definition example_matching_neg : MultiLevelAnchorMatching :=
  MkMatching (anchors_of_level example_matching) true (Some (1 # 2))
    (Some (2 # 5)) ann_category_id ann_bbox default_coords_to_target false.

Lemma ignores_are_uint8_complements_witness :
  exists t,
    call iou_xywh ltwh_to_xywh example_matching_neg
      [MkAnn 3 (QBox 0 0 2 2); MkAnn 7 (QBox 0 0 2 8)] = Py.ret t /\
    ignores t
    = Some (unwrap_single
              (map (fun g =>
                      map (fun anc =>
                             if existsb
                                  (fun a => Qle_bool (2 # 5)
                                              (iou_xywh
                                                 (ltwh_to_xywh
                                                    (get_bbox
                                                       example_matching_neg a))
                                                 anc))
                                  [MkAnn 3 (QBox 0 0 2 2);
                                   MkAnn 7 (QBox 0 0 2 8)]
                             then 255%Z else 254%Z)
                          (grid_rows g))
                   (anchors_of_level example_matching_neg))).
Proof.
  apply (ignores_are_uint8_complements iou_xywh ltwh_to_xywh
           example_matching_neg (2 # 5)).
  - reflexivity.
  - discriminate.
  - repeat constructor; discriminate.
Defined.

(** The first annotation equals anchor 0 of level 0; no other IoU reaches
    [neg_thresh = 2/5]. *)
Example ignores_run :
  option_map ignores
    (match call iou_xywh ltwh_to_xywh example_matching_neg
             [MkAnn 3 (QBox 0 0 2 2); MkAnn 7 (QBox 0 0 2 8)] with
     | inr t => Some t
     | inl _ => None
     end)
  = Some (Some (Multi [[255; 254]; [254]]%Z)).
Proof. reflexivity. Qed.

Lemma call_targets_shape_and_labels_witness :
  exists lvs,
    call iou_xywh ltwh_to_xywh example_matching
      [MkAnn 3 (QBox 0 0 2 2); MkAnn 7 (QBox 0 0 2 8)]
    = Py.ret (targets_of example_matching lvs) /\
    Forall2
      (fun g lv =>
         length (loc_t lv) = length (grid_rows g) /\
         length (cls_t lv) = length (grid_rows g) /\
         Forall (fun c => c = 0%Z \/
                          exists a,
                            In a [MkAnn 3 (QBox 0 0 2 2);
                                  MkAnn 7 (QBox 0 0 2 8)] /\
                            c = get_label example_matching a)
                (cls_t lv))
      (anchors_of_level example_matching) lvs.
Proof.
  apply (call_targets_shape_and_labels iou_xywh ltwh_to_xywh
           example_matching).
  - discriminate.
  - repeat constructor; discriminate.
Defined.

(** Level 0 holds two overlapping anchors: a box equal to the first has
    IoU 2/3 with the second, above [pos_thresh = 1/2]. *)
Definition example_matching_overlap : MultiLevelAnchorMatching :=
  MkMatching
    [MkGrid 1 2 [QBox 1 1 2 2; QBox 1 1 2 3]; MkGrid 1 1 [QBox 3 3 6 6]]
    true (Some (1 # 2)) None ann_category_id ann_bbox
    default_coords_to_target false.

Lemma anchors_above_pos_thresh_assigned_witness :
  exists lvs,
    anns_loop iou_xywh ltwh_to_xywh example_matching_overlap
      ([MkAnn 3 (QBox 4 4 2 2)] ++ [MkAnn 7 (QBox 0 0 2 2)])
      (initial_levels example_matching_overlap) = Py.ret lvs /\
    call iou_xywh ltwh_to_xywh example_matching_overlap
      ([MkAnn 3 (QBox 4 4 2 2)] ++ [MkAnn 7 (QBox 0 0 2 2)])
    = Py.ret (targets_of example_matching_overlap lvs) /\
    forall f i v,
      iou_at iou_xywh
        (ltwh_to_xywh (get_bbox example_matching_overlap
                         (MkAnn 7 (QBox 0 0 2 2))))
        lvs f i = Some v ->
      (1 # 2) < v ->
      assigned_to ltwh_to_xywh example_matching_overlap
        (MkAnn 7 (QBox 0 0 2 2)) lvs f i.
Proof.
  apply (anchors_above_pos_thresh_assigned iou_xywh ltwh_to_xywh
           example_matching_overlap [MkAnn 3 (QBox 4 4 2 2)]
           (MkAnn 7 (QBox 0 0 2 2)) (1 # 2)).
  - reflexivity.
  - discriminate.
  - repeat constructor; discriminate.
Defined.

(** There the box of the second annotation has IoU 1 with anchor 0 and
    2/3 with anchor 1 of level 0, both above [pos_thresh], and both
    anchors take its label; the large anchor, of IoU 1/9, keeps the label
    the first annotation left as its anchor of greatest IoU. *)
Example anchors_above_pos_thresh_run :
  map (iou_xywh (ltwh_to_xywh (QBox 0 0 2 2)))
      [QBox 1 1 2 2; QBox 1 1 2 3; QBox 3 3 6 6]
  = [1; 2 # 3; 1 # 9] /\
  cls_of (anns_loop iou_xywh ltwh_to_xywh example_matching_overlap
            [MkAnn 3 (QBox 4 4 2 2); MkAnn 7 (QBox 0 0 2 2)]
            (initial_levels example_matching_overlap))
  = Some [[7; 7]; [3]]%Z.
Proof. split; reflexivity. Qed.

Lemma other_anchors_keep_targets_witness :
  exists lvs0 lvs f i m,
    anns_loop iou_xywh ltwh_to_xywh example_matching
      [MkAnn 3 (QBox 0 0 2 2)] (initial_levels example_matching)
    = Py.ret lvs0 /\
    anns_loop iou_xywh ltwh_to_xywh example_matching
      ([MkAnn 3 (QBox 0 0 2 2)] ++ [MkAnn 7 (QBox 0 0 2 8)])
      (initial_levels example_matching) = Py.ret lvs /\
    is_best iou_xywh
      (ltwh_to_xywh (get_bbox example_matching (MkAnn 7 (QBox 0 0 2 8))))
      lvs f i m /\
    forall f' i' v,
      iou_at iou_xywh
        (ltwh_to_xywh (get_bbox example_matching (MkAnn 7 (QBox 0 0 2 8))))
        lvs f' i' = Some v ->
      (f', i') <> (f, i) ->
      (forall pt, truthy (pos_thresh example_matching) = Some pt -> v <= pt) ->
      target_at lvs f' i' = target_at lvs0 f' i'.
Proof.
  apply (other_anchors_keep_targets iou_xywh ltwh_to_xywh example_matching
           [MkAnn 3 (QBox 0 0 2 2)] (MkAnn 7 (QBox 0 0 2 8))).
  - discriminate.
  - repeat constructor; discriminate.
Defined.

Lemma call_marks_a_positive_witness :
  exists lvs,
    call iou_xywh ltwh_to_xywh example_matching
      [MkAnn 3 (QBox 0 0 2 2); MkAnn 7 (QBox 0 0 2 8)]
    = Py.ret (targets_of example_matching lvs) /\
    Exists (fun lv => Exists (fun c => c <> 0%Z) (cls_t lv)) lvs.
Proof.
  apply (call_marks_a_positive iou_xywh ltwh_to_xywh example_matching
           [MkAnn 3 (QBox 0 0 2 2); MkAnn 7 (QBox 0 0 2 8)]).
  - discriminate.
  - repeat constructor; discriminate.
  - discriminate.
  - intros a [<- | [<- | []]]; discriminate.
Defined.

(** The class target the call returns at anchor [i] of level [f]. *)
Definition returned_cls (r : Py.result targets) (f i : nat) : option Z :=
  match r with
  | inr t => fst (returned_at t f i)
  | inl _ => None
  end.

(** C3 fails as stated.  Two annotations whose boxes both have their
    greatest IoU with anchor 0 of level 0: the box of the first, labelled
    3, equals that anchor (IoU 1), yet the class target [__call__]
    returns there is 7, the label of the second annotation, whose
    iteration overwrites it. *)
Lemma max_iou_anchor_overwritten :
  max_iou example_matching = true /\
  is_best iou_xywh
    (ltwh_to_xywh (get_bbox example_matching (MkAnn 3 (QBox 0 0 2 2))))
    (initial_levels example_matching) 0 0 1 /\
  get_label example_matching (MkAnn 3 (QBox 0 0 2 2)) = 3%Z /\
  returned_cls
    (call iou_xywh ltwh_to_xywh example_matching
       [MkAnn 3 (QBox 0 0 2 2); MkAnn 7 (QBox 0 0 2 3)]) 0 0
  = Some 7%Z.
Proof.
  split; [reflexivity|]. split; [|split; reflexivity].
  split; [reflexivity|].
  intros f' i' v H. rewrite iou_at_initial_levels in H.
  destruct f' as [|[|[|f']]]; destruct i' as [|[|[|i']]];
    vm_compute in H; try discriminate; injection H as <-;
    (split; [vm_compute; discriminate | intros [Hlt | [Hf Hi]]; lia]).
Qed.

Lemma max_iou_anchor_assigned_unless_overwritten_witness :
  exists f i m lv0 anc lvs_a t,
    nth_error (initial_levels example_matching) f = Some lv0 /\
    nth_error (anchors lv0) i = Some anc /\
    is_best iou_xywh
      (ltwh_to_xywh (get_bbox example_matching (MkAnn 7 (QBox 0 0 2 8))))
      (initial_levels example_matching) f i m /\
    anns_loop iou_xywh ltwh_to_xywh example_matching
      ([MkAnn 3 (QBox 0 0 2 2)] ++ [MkAnn 7 (QBox 0 0 2 8)])
      (initial_levels example_matching) = Py.ret lvs_a /\
    assigned_to ltwh_to_xywh example_matching (MkAnn 7 (QBox 0 0 2 8))
      lvs_a f i /\
    call iou_xywh ltwh_to_xywh example_matching
      ([MkAnn 3 (QBox 0 0 2 2)]
         ++ MkAnn 7 (QBox 0 0 2 8) :: [MkAnn 5 (QBox 4 4 2 2)]) = Py.ret t /\
    ((forall b, In b [MkAnn 5 (QBox 4 4 2 2)] ->
                leaves iou_xywh ltwh_to_xywh example_matching b f i) ->
     returned_at t f i
     = (Some (get_label example_matching (MkAnn 7 (QBox 0 0 2 8))),
        Some (coords_to_target example_matching
                (ltwh_to_xywh (get_bbox example_matching
                                 (MkAnn 7 (QBox 0 0 2 8))))
                anc (location lv0)))).
Proof.
  apply (max_iou_anchor_assigned_unless_overwritten iou_xywh ltwh_to_xywh
           example_matching [MkAnn 3 (QBox 0 0 2 2)]
           (MkAnn 7 (QBox 0 0 2 8)) [MkAnn 5 (QBox 4 4 2 2)]).
  - reflexivity.
  - discriminate.
  - repeat constructor; discriminate.
Defined.

(** In that run the anchor of greatest IoU with the second box is the
    large anchor of level 1 (IoU 3/10, below [pos_thresh]); the third
    annotation, whose box equals anchor 1 of level 0 and has IoU 1/9 with
    the large anchor, leaves it alone, and the returned class target
    there is the label 7 of the second annotation. *)
Example max_iou_anchor_kept_run :
  is_best iou_xywh (ltwh_to_xywh (QBox 0 0 2 8))
    (initial_levels example_matching) 1 0 (3 # 10) /\
  leaves iou_xywh ltwh_to_xywh example_matching (MkAnn 5 (QBox 4 4 2 2)) 1 0 /\
  returned_cls
    (call iou_xywh ltwh_to_xywh example_matching
       [MkAnn 3 (QBox 0 0 2 2); MkAnn 7 (QBox 0 0 2 8);
        MkAnn 5 (QBox 4 4 2 2)]) 1 0
  = Some 7%Z.
Proof.
  split; [|split; [|reflexivity]].
  - split; [reflexivity|].
    intros f' i' v H. rewrite iou_at_initial_levels in H.
    destruct f' as [|[|[|f']]]; destruct i' as [|[|[|i']]];
      vm_compute in H; try discriminate; injection H as <-;
      (split; [vm_compute; discriminate
              | intros [Hlt | [Hf Hi]]; try lia; reflexivity]).
  - split.
    + intros m [H1 H2]. rewrite iou_at_initial_levels in H1.
      vm_compute in H1. injection H1 as <-.
      destruct (H2 0%nat 1%nat 1 eq_refl) as [Hle _].
      vm_compute in Hle. apply Hle. reflexivity.
    + intros pt v Hpt Hv. vm_compute in Hpt. injection Hpt as <-.
      rewrite iou_at_initial_levels in Hv.
      vm_compute in Hv. injection Hv as <-.
      vm_compute. discriminate.
Qed.

End MatchingFacts.

(** ** More on [match_anchors] and [match_anchors2] *)

Module E2EFacts.
Import QAux PyMax PyLoop Tensor Geometry E2E.
Local Open Scope Q_scope.

Lemma index_put_other {A : Type} (indices : list nat) :
  forall (values l : list A) (j : nat),
    ~ In j indices ->
    nth_error (index_put indices values l) j = nth_error l j.
Proof.
  unfold index_put.
  induction indices as [|k idx IH]; intros values l j Hnin; [reflexivity|].
  destruct values as [|v vs]; [reflexivity|].
  cbn [combine fold_left fst snd].
  rewrite IH by (intros H; apply Hnin; now right).
  apply Py.nth_error_set_nth_neq. intros ->. apply Hnin. now left.
Qed.

Lemma mapM_length {A B : Type} (f : A -> Py.result B) (l : list A)
  (ys : list B) :
  mapM f l = Py.ret ys -> length ys = length l.
Proof.
  intros H. apply mapM_Forall2 in H. symmetry.
  induction H; simpl; congruence.
Qed.

Lemma filter_length_existsb {A : Type} (p : A -> bool) (l : list A) :
  negb (length (filter p l) =? 0)%nat = existsb p l.
Proof.
  induction l as [|x t IH]; [reflexivity|].
  simpl. destruct (p x); [reflexivity | exact IH].
Qed.

Lemma ignore_mask_nth (cls : list Z) (ious : list (list Q)) (nt : Q)
  (j : nat) (c : Z) :
  nth_error cls j = Some c ->
  nth_error (ignore_mask cls ious nt) j
  = Some ((c =? 0)%Z
          && existsb (fun row => Qle_bool nt (nth j row 0)) ious).
Proof.
  intros Hc. unfold ignore_mask, Py.enumerate.
  rewrite nth_error_map, (nth_error_enumerate cls 0 j), Hc.
  cbn [option_map fst snd Nat.add]. do 2 f_equal.
  rewrite filter_length_existsb. unfold column.
  induction ious as [|row rest IH]; [reflexivity|].
  cbn [map existsb]. now rewrite IH.
Qed.

Lemma ignore_mask_length (cls : list Z) (ious : list (list Q)) (nt : Q) :
  length (ignore_mask cls ious nt) = length cls.
Proof.
  unfold ignore_mask, Py.enumerate.
  rewrite length_map, length_combine, length_seq. lia.
Qed.

Section Facts.
Variable convert_ltwh_xywh : qbox -> qbox.
Variable convert_xywh_ltrb : qbox -> qbox.
Variable iou_ltrb : qbox -> qbox -> Q.
Variable a_xywh a_ltrb : list qbox.
Variable pos_thresh : Q.
Variable get_label : ann -> Z.

Local Abbreviation ious_of' anns :=
  (ious_of convert_ltwh_xywh convert_xywh_ltrb iou_ltrb anns a_ltrb).
Local Abbreviation iou_row' :=
  (iou_row convert_ltwh_xywh convert_xywh_ltrb iou_ltrb a_ltrb).
Local Abbreviation match_anchors' anns neg_thresh :=
  (match_anchors convert_ltwh_xywh convert_xywh_ltrb iou_ltrb anns
     a_xywh a_ltrb pos_thresh neg_thresh get_label).
Local Abbreviation match_anchors2' anns neg_thresh :=
  (match_anchors2 convert_ltwh_xywh convert_xywh_ltrb iou_ltrb anns
     a_xywh a_ltrb pos_thresh neg_thresh get_label).

(** X21: in the loop version [match_anchors], an anchor that is not the
    max-IoU anchor of any annotation ends with the label and the encoded
    box of the last annotation whose IoU with it is above [pos_thresh],
    and with class 0 and a zero row when there is none. *)
Theorem match_anchors_last_positive_wins (anns : list ann)
  (neg_thresh : option Q) :
  length a_xywh = length a_ltrb ->
  anns <> [] -> a_ltrb <> [] ->
  exists r mx,
    match_anchors' anns neg_thresh = Py.ret r /\
    mapM tensor_max (ious_of' anns) = Py.ret mx /\
    forall j aj,
      nth_error a_xywh j = Some aj ->
      ~ In j (map snd mx) ->
      match last_true (positive_column (ious_of' anns) pos_thresh j) with
      | Some i =>
          exists a,
            nth_error anns i = Some a /\
            nth_error (cls_t r) j = Some (get_label a) /\
            nth_error (loc_t r) j
            = Some (coords_to_target (convert_ltwh_xywh (ann_bbox a)) aj)
      | None =>
          nth_error (cls_t r) j = Some 0%Z /\
          nth_error (loc_t r) j = Some Coords.zeros4
      end.
Proof.
  intros Hlen Hne Hanc.
  rewrite match_anchors_nonempty by exact Hne.
  rewrite ious_of_map.
  destruct (tensor_max_rows convert_ltwh_xywh convert_xywh_ltrb iou_ltrb
              a_ltrb anns Hanc) as (mx & Hmx & _ & _).
  rewrite Hmx. cbn [Py.bind Py.ret]. cbv zeta.
  eexists. exists mx. split; [reflexivity|]. split; [reflexivity|].
  intros j aj Haj Hnin. cbn [cls_t loc_t].
  rewrite !index_put_other by exact Hnin.
  destruct (loop_base_nth convert_ltwh_xywh convert_xywh_ltrb iou_ltrb
              a_xywh a_ltrb pos_thresh get_label anns j aj Hlen Haj)
    as [Hloc Hcls].
  rewrite positive_column_map.
  destruct (last_true _) as [i|] eqn:Elast; [|split; assumption].
  pose proof (last_true_lt _ _ Elast) as Hi. rewrite length_map in Hi.
  destruct (nth_error anns i) as [a|] eqn:Ea;
    [|apply nth_error_None in Ea; lia].
  exists a. split; [reflexivity|]. split; assumption.
Qed.

(** *** The ignore mask *)

Lemma existsb_iou_rows (anns : list ann) (nt : Q) (j : nat) (aj : qbox) :
  nth_error a_ltrb j = Some aj ->
  existsb (fun row => Qle_bool nt (nth j row 0)) (ious_of' anns) = true <->
  exists a, In a anns /\
            nt <= iou_ltrb (convert_xywh_ltrb
                              (convert_ltwh_xywh (ann_bbox a))) aj.
Proof.
  intros Haj. rewrite ious_of_map, existsb_exists. split.
  - intros (row & Hrow & Hle). apply in_map_iff in Hrow.
    destruct Hrow as (a & <- & Ha). exists a. split; [exact Ha|].
    apply Qle_bool_iff in Hle. unfold iou_row in Hle.
    rewrite nth_map_nth_error, Haj in Hle. exact Hle.
  - intros (a & Ha & Hle). exists (iou_row' a). split; [now apply in_map|].
    apply Qle_bool_iff. unfold iou_row.
    rewrite nth_map_nth_error, Haj. exact Hle.
Qed.

(** What both versions return for a nonempty annotation list: the class
    targets have one entry per anchor and the ignore mask is computed from
    them. *)
Definition masked_result (anns : list ann) (neg_thresh : option Q)
  (r : target) : Prop :=
  length (cls_t r) = length a_ltrb /\
  ignore r = option_map (ignore_mask (cls_t r) (ious_of' anns))
               (truthy neg_thresh).

Lemma index_put_in {A : Type} (indices : list nat) :
  forall (values l : list A) (j : nat),
    length indices = length values ->
    (j < length l)%nat ->
    In j indices ->
    exists v, In v values /\ nth_error (index_put indices values l) j = Some v.
Proof.
  induction indices as [|k idx IH]; intros values l j Hlen Hj Hin;
    [destruct Hin|].
  destruct values as [|v vs]; [discriminate|].
  cbn [length] in Hlen. injection Hlen as Hlen.
  destruct (in_dec Nat.eq_dec j idx) as [Hidx | Hnidx].
  - destruct (IH vs (Py.set_nth k v l) j Hlen) as (v' & Hv' & Hnth).
    + now rewrite Py.set_nth_length.
    + exact Hidx.
    + exists v'. split; [now right | exact Hnth].
  - destruct Hin as [-> | Hin]; [|contradiction].
    exists v. split; [now left|].
    change (index_put (j :: idx) (v :: vs) l)
      with (index_put idx vs (Py.set_nth j v l)).
    rewrite index_put_other by exact Hnidx.
    now apply Py.nth_error_set_nth_eq.
Qed.

Lemma last_true_none_iff (l : list bool) :
  last_true l = None <-> Forall (fun b => b = false) l.
Proof.
  induction l as [|b t IH]; cbn [last_true].
  - split; [constructor | reflexivity].
  - destruct (last_true t) as [k|].
    + split; [discriminate|].
      intros H. inversion H as [|? ? _ Ht]; subst.
      apply IH in Ht. discriminate.
    + destruct b.
      * split; [discriminate|]. intros H. inversion H; discriminate.
      * split; [|reflexivity]. intros _.
        constructor; [reflexivity | now apply IH].
Qed.

Lemma masked_result_spec (anns : list ann) (neg_thresh : option Q) (nt : Q)
  (r : target) :
  truthy neg_thresh = Some nt ->
  masked_result anns neg_thresh r ->
  exists ig,
    ignore r = Some ig /\
    length ig = length a_ltrb /\
    length (cls_t r) = length a_ltrb /\
    forall j aj,
      nth_error a_ltrb j = Some aj ->
      nth_error ig j = Some true <->
      nth_error (cls_t r) j = Some 0%Z /\
      exists a, In a anns /\
                nt <= iou_ltrb (convert_xywh_ltrb
                                  (convert_ltwh_xywh (ann_bbox a))) aj.
Proof.
  intros Hnt [Hlen Hig]. rewrite Hnt in Hig. cbn in Hig.
  eexists. split; [exact Hig|].
  split; [now rewrite ignore_mask_length|]. split; [exact Hlen|].
  intros j aj Haj.
  assert (Hj : (j < length (cls_t r))%nat).
  { rewrite Hlen. apply nth_error_Some. congruence. }
  destruct (nth_error (cls_t r) j) as [c|] eqn:Ec;
    [|apply nth_error_None in Ec; lia].
  rewrite (ignore_mask_nth _ _ _ _ _ Ec).
  rewrite <- (existsb_iou_rows anns nt j aj Haj).
  split.
  - intros H. injection H as H. apply andb_true_iff in H.
    destruct H as [H1 H2]. apply Z.eqb_eq in H1. subst c. auto.
  - intros [H1 H2]. injection H1 as ->. now rewrite H2.
Qed.

(** What both versions return on labels that are all 1 and a nonempty
    annotation list: the class targets are the loop's, with the labels
    written at the max-IoU anchors, and the ignore mask is computed from
    them. *)
Lemma match_func_result (is_cpu : bool) (anns : list ann)
  (neg_thresh : option Q) :
  (forall a, In a anns -> get_label a = 1%Z) ->
  length a_xywh = length a_ltrb ->
  anns <> [] -> a_ltrb <> [] ->
  exists r mx,
    match_func convert_ltwh_xywh convert_xywh_ltrb iou_ltrb is_cpu anns
      a_xywh a_ltrb pos_thresh neg_thresh get_label = Py.ret r /\
    mapM tensor_max (ious_of' anns) = Py.ret mx /\
    length mx = length anns /\
    cls_t r
    = index_put (map snd mx) (map get_label anns)
        (snd (loop_base convert_ltwh_xywh convert_xywh_ltrb iou_ltrb
                a_xywh a_ltrb pos_thresh get_label anns)) /\
    masked_result anns neg_thresh r.
Proof.
  intros Hlab Hlen Hne Hanc.
  destruct (tensor_max_rows convert_ltwh_xywh convert_xywh_ltrb iou_ltrb
              a_ltrb anns Hanc) as (mx & Hmx & Hmxlen & _).
  assert (Hbase : length (snd (loop_base convert_ltwh_xywh convert_xywh_ltrb
                                 iou_ltrb a_xywh a_ltrb pos_thresh get_label
                                 anns)) = length a_ltrb).
  { unfold loop_base.
    destruct (loop_fold_length a_xywh
                (map (loop_row convert_ltwh_xywh convert_xywh_ltrb iou_ltrb
                        a_ltrb pos_thresh get_label) anns)
                (repeat Coords.zeros4 (length a_xywh))
                (repeat 0%Z (length a_xywh))) as [_ H].
    now rewrite H, repeat_length. }
  unfold match_func, masked_result. rewrite ious_of_map.
  destruct is_cpu.
  - rewrite match_anchors_nonempty by exact Hne.
    rewrite Hmx. cbn [Py.bind Py.ret]. cbv zeta.
    eexists. exists mx. split; [reflexivity|]. split; [reflexivity|].
    split; [exact Hmxlen|]. cbn [cls_t ignore].
    split; [reflexivity|]. split; [|reflexivity].
    now rewrite index_put_length.
  - rewrite match_anchors2_nonempty by assumption.
    rewrite Hmx. cbn [Py.bind Py.ret]. cbv zeta.
    rewrite <- (cls_base_agree convert_ltwh_xywh convert_xywh_ltrb iou_ltrb
                  a_xywh a_ltrb pos_thresh get_label anns Hlab Hlen).
    eexists. exists mx. split; [reflexivity|]. split; [reflexivity|].
    split; [exact Hmxlen|]. cbn [cls_t ignore].
    split; [reflexivity|]. split; [|reflexivity].
    now rewrite index_put_length.
Qed.

Lemma above_column (anns : list ann) (j : nat) (aj : qbox) :
  nth_error a_ltrb j = Some aj ->
  last_true (positive_column (ious_of' anns) pos_thresh j) = None <->
  forall a, In a anns ->
            iou_ltrb (convert_xywh_ltrb (convert_ltwh_xywh (ann_bbox a))) aj
            <= pos_thresh.
Proof.
  intros Haj. rewrite last_true_none_iff, ious_of_map.
  unfold positive_column. rewrite map_map, Forall_map, Forall_forall.
  split; intros H a Ha; specialize (H a Ha); unfold iou_row in *;
    rewrite nth_error_map, Haj in *; cbn [option_map] in *;
    apply Qltb_ge; exact H.
Qed.

Lemma cls_zero_iff (anns : list ann) (mx : list (Q * nat)) (j : nat)
  (aj : qbox) :
  (forall a, In a anns -> get_label a = 1%Z) ->
  length a_xywh = length a_ltrb ->
  length mx = length anns ->
  nth_error a_ltrb j = Some aj ->
  nth_error
    (index_put (map snd mx) (map get_label anns)
       (snd (loop_base convert_ltwh_xywh convert_xywh_ltrb iou_ltrb
               a_xywh a_ltrb pos_thresh get_label anns))) j = Some 0%Z <->
  ~ In j (map snd mx) /\
  forall a, In a anns ->
            iou_ltrb (convert_xywh_ltrb (convert_ltwh_xywh (ann_bbox a))) aj
            <= pos_thresh.
Proof.
  intros Hlab Hlen Hmxlen Haj.
  assert (Hj : (j < length a_xywh)%nat)
    by (rewrite Hlen; apply nth_error_Some; congruence).
  destruct (nth_error a_xywh j) as [axy|] eqn:Eaxy;
    [|apply nth_error_None in Eaxy; lia].
  destruct (loop_base_nth convert_ltwh_xywh convert_xywh_ltrb iou_ltrb
              a_xywh a_ltrb pos_thresh get_label anns j axy Hlen Eaxy)
    as [_ Hbase].
  rewrite <- positive_column_map, <- ious_of_map in Hbase.
  rewrite <- (above_column anns j aj Haj).
  destruct (in_dec Nat.eq_dec j (map snd mx)) as [Hin | Hnin].
  - destruct (index_put_in (map snd mx) (map get_label anns)
                (snd (loop_base convert_ltwh_xywh convert_xywh_ltrb iou_ltrb
                        a_xywh a_ltrb pos_thresh get_label anns)) j)
      as (v & Hv & Hnth).
    + now rewrite !length_map.
    + apply nth_error_Some. rewrite Hbase. discriminate.
    + exact Hin.
    + apply in_map_iff in Hv. destruct Hv as (a & <- & Ha).
      rewrite Hnth, (Hlab a Ha).
      split; [discriminate | intros [H _]; contradiction].
  - rewrite index_put_other by exact Hnin. rewrite Hbase.
    destruct (last_true _) as [i|] eqn:Elast.
    + pose proof (last_true_lt _ _ Elast) as Hi.
      unfold positive_column in Hi. rewrite length_map in Hi.
      unfold ious_of, iou_mn, bboxes_of in Hi. rewrite !length_map in Hi.
      destruct (nth_error anns i) as [a|] eqn:Ea;
        [|apply nth_error_None in Ea; lia].
      rewrite (Hlab a (nth_error_In _ _ Ea)).
      split; [discriminate | intros [_ H]; discriminate].
    + split; [intros _; split; [exact Hnin | reflexivity] | reflexivity].
Qed.

(** X22: with [neg_thresh] set and every label 1 (the labels
    [MatchAnchors] passes), the function [MatchAnchors] picks (the loop on
    the CPU, the vectorized version otherwise) returns an ignore mask with
    one entry per anchor, and an anchor is ignored exactly when it is not
    the max-IoU anchor of any annotation, no annotation has an IoU above
    [pos_thresh] with it, and some annotation has an IoU of at least
    [neg_thresh] with it. *)
Theorem ignore_mask_between_thresholds (is_cpu : bool) (anns : list ann)
  (neg_thresh : option Q) (nt : Q) :
  (forall a, In a anns -> get_label a = 1%Z) ->
  length a_xywh = length a_ltrb ->
  (anns <> [] -> a_ltrb <> []) ->
  truthy neg_thresh = Some nt ->
  exists r ig,
    match_func convert_ltwh_xywh convert_xywh_ltrb iou_ltrb is_cpu anns
      a_xywh a_ltrb pos_thresh neg_thresh get_label = Py.ret r /\
    ignore r = Some ig /\
    length ig = length a_ltrb /\
    forall j aj,
      nth_error a_ltrb j = Some aj ->
      nth_error ig j = Some true <->
      ~ is_max_anchor (ious_of' anns) j /\
      (forall a, In a anns ->
                 iou_ltrb (convert_xywh_ltrb
                             (convert_ltwh_xywh (ann_bbox a))) aj
                 <= pos_thresh) /\
      (exists a, In a anns /\
                 nt <= iou_ltrb (convert_xywh_ltrb
                                   (convert_ltwh_xywh (ann_bbox a))) aj).
Proof.
  intros Hlab Hlen Hanchor Hnt.
  assert (Hcase : anns = [] \/ anns <> [])
    by (destruct anns; [now left | right; discriminate]).
  destruct Hcase as [-> | Hne].
  - exists (empty_target (length a_xywh) neg_thresh),
           (repeat false (length a_xywh)).
    split; [destruct is_cpu; reflexivity|].
    unfold empty_target. cbn [ignore]. rewrite Hnt, !repeat_length.
    split; [reflexivity|]. split; [exact Hlen|].
    intros j aj Haj.
    assert (Hj : (j < length a_xywh)%nat)
      by (rewrite Hlen; apply nth_error_Some; congruence).
    rewrite nth_error_repeat by exact Hj.
    split; [discriminate | intros (_ & _ & a & [] & _)].
  - specialize (Hanchor Hne).
    destruct (match_func_result is_cpu anns neg_thresh Hlab Hlen Hne Hanchor)
      as (r & mx & Hr & Hmx & Hmxlen & Hcls & Hmask).
    destruct (masked_result_spec anns neg_thresh nt r Hnt Hmask)
      as (ig & Hig & Higlen & _ & Hspec).
    exists r, ig. split; [exact Hr|]. split; [exact Hig|].
    split; [exact Higlen|].
    intros j aj Haj. rewrite (Hspec j aj Haj), Hcls.
    rewrite (cls_zero_iff anns mx j aj Hlab Hlen Hmxlen Haj).
    assert (Hmax : is_max_anchor (ious_of' anns) j <-> In j (map snd mx)).
    { unfold is_max_anchor. split.
      - intros (mx' & Hmx' & Hin). rewrite Hmx in Hmx'.
        now injection Hmx' as <-.
      - intros Hin. now exists mx. }
    rewrite Hmax. tauto.
Qed.

End Facts.

Lemma match_anchors_last_positive_wins_witness :
  exists r mx,
    match_anchors ltwh_to_xywh xywh_to_ltrb Geometry.iou_ltrb
      (overlap_anns 2 1) overlap_a_xywh overlap_a_ltrb (1 # 2) None
      ann_category_id = Py.ret r /\
    mapM tensor_max
      (ious_of ltwh_to_xywh xywh_to_ltrb Geometry.iou_ltrb (overlap_anns 2 1)
         overlap_a_ltrb) = Py.ret mx /\
    forall j aj,
      nth_error overlap_a_xywh j = Some aj ->
      ~ In j (map snd mx) ->
      match last_true
              (positive_column
                 (ious_of ltwh_to_xywh xywh_to_ltrb Geometry.iou_ltrb
                    (overlap_anns 2 1) overlap_a_ltrb) (1 # 2) j) with
      | Some i =>
          exists a,
            nth_error (overlap_anns 2 1) i = Some a /\
            nth_error (cls_t r) j = Some (ann_category_id a) /\
            nth_error (loc_t r) j
            = Some (coords_to_target (ltwh_to_xywh (ann_bbox a)) aj)
      | None =>
          nth_error (cls_t r) j = Some 0%Z /\
          nth_error (loc_t r) j = Some Coords.zeros4
      end.
Proof.
  apply (match_anchors_last_positive_wins ltwh_to_xywh xywh_to_ltrb
           Geometry.iou_ltrb overlap_a_xywh overlap_a_ltrb (1 # 2)
           ann_category_id (overlap_anns 2 1) None).
  - reflexivity.
  - discriminate.
  - discriminate.
Defined.

(** In that run the two boxes have IoUs 1, 4/5, 8/9 and 4/5, 1, 9/10 with
    the three anchors: their max-IoU anchors are 0 and 1, both are above
    [pos_thresh = 1/2] at anchor 2, and anchor 2 ends with the label 1 of
    the second, last, annotation. *)
Example match_anchors_last_positive_run :
  ious_of ltwh_to_xywh xywh_to_ltrb Geometry.iou_ltrb (overlap_anns 2 1)
    overlap_a_ltrb
  = [[1; 4 # 5; 8 # 9]; [4 # 5; 1; 9 # 10]] /\
  option_map (map snd)
    (match mapM tensor_max
             (ious_of ltwh_to_xywh xywh_to_ltrb Geometry.iou_ltrb
                (overlap_anns 2 1) overlap_a_ltrb) with
     | inr mx => Some mx
     | inl _ => None
     end) = Some [0; 1]%nat /\
  last_true
    (positive_column
       (ious_of ltwh_to_xywh xywh_to_ltrb Geometry.iou_ltrb
          (overlap_anns 2 1) overlap_a_ltrb) (1 # 2) 2) = Some 1%nat /\
  cls_of (match_anchors ltwh_to_xywh xywh_to_ltrb Geometry.iou_ltrb
            (overlap_anns 2 1) overlap_a_xywh overlap_a_ltrb (1 # 2) None
            ann_category_id)
  = Some [2; 1; 1]%Z.
Proof. repeat split; reflexivity. Qed.

Lemma ignore_mask_between_thresholds_witness :
  exists r ig,
    match_func ltwh_to_xywh xywh_to_ltrb Geometry.iou_ltrb false
      [MkAnn (QBox 0 0 4 4) 1] overlap_a_xywh overlap_a_ltrb (9 # 10)
      (Some (1 # 2)) MatchAnchors_get_label = Py.ret r /\
    ignore r = Some ig /\
    length ig = length overlap_a_ltrb /\
    forall j aj,
      nth_error overlap_a_ltrb j = Some aj ->
      nth_error ig j = Some true <->
      ~ is_max_anchor
          (ious_of ltwh_to_xywh xywh_to_ltrb Geometry.iou_ltrb
             [MkAnn (QBox 0 0 4 4) 1] overlap_a_ltrb) j /\
      (forall a, In a [MkAnn (QBox 0 0 4 4) 1] ->
                 Geometry.iou_ltrb
                   (xywh_to_ltrb (ltwh_to_xywh (ann_bbox a))) aj
                 <= 9 # 10) /\
      (exists a, In a [MkAnn (QBox 0 0 4 4) 1] /\
                 (1 # 2) <= Geometry.iou_ltrb
                              (xywh_to_ltrb (ltwh_to_xywh (ann_bbox a))) aj).
Proof.
  apply (ignore_mask_between_thresholds ltwh_to_xywh xywh_to_ltrb
           Geometry.iou_ltrb overlap_a_xywh overlap_a_ltrb (9 # 10)
           MatchAnchors_get_label false [MkAnn (QBox 0 0 4 4) 1]
           (Some (1 # 2)) (1 # 2)).
  - intros a _. reflexivity.
  - reflexivity.
  - discriminate.
  - reflexivity.
Defined.

(** The ignore mask of one target. *)
Definition ignore_of (r : Py.result target) : option (list bool) :=
  match r with
  | inr t => ignore t
  | inl _ => None
  end.

(** In that run the box equals anchor 0, its max-IoU anchor, and has IoUs
    4/5 and 8/9 with anchors 1 and 2, between [neg_thresh = 1/2] and
    [pos_thresh = 9/10]: both versions label anchor 0 and ignore anchors
    1 and 2. *)
Example ignore_mask_between_thresholds_run :
  cls_of (match_func ltwh_to_xywh xywh_to_ltrb Geometry.iou_ltrb false
            [MkAnn (QBox 0 0 4 4) 1] overlap_a_xywh overlap_a_ltrb (9 # 10)
            (Some (1 # 2)) MatchAnchors_get_label) = Some [1; 0; 0]%Z /\
  ignore_of (match_func ltwh_to_xywh xywh_to_ltrb Geometry.iou_ltrb false
               [MkAnn (QBox 0 0 4 4) 1] overlap_a_xywh overlap_a_ltrb
               (9 # 10) (Some (1 # 2)) MatchAnchors_get_label)
  = Some [false; true; true] /\
  ignore_of (match_func ltwh_to_xywh xywh_to_ltrb Geometry.iou_ltrb true
               [MkAnn (QBox 0 0 4 4) 1] overlap_a_xywh overlap_a_ltrb
               (9 # 10) (Some (1 # 2)) MatchAnchors_get_label)
  = Some [false; true; true].
Proof. repeat split; reflexivity. Qed.

End E2EFacts.

(** ** [generate_anchors] *)

Module Anchors.
Import Locations Geometry.
Local Open Scope Q_scope.

(** The [scales] argument: numbers, or [(sw, sh)] pairs. *)
Inductive scales_arg : Type :=
| Scalars (l : list Q)
| Pairs (l : list (Q * Q)).

(** [range(n)] *)
Definition range (n : Z) : list Z := map Z.of_nat (seq 0 (Z.to_nat n)).

(** [scales.view(len(scales), -1)] and the choice of [sw] and [sh]: one
    [(sw, sh)] per scale, a number standing for both.  The view raises on
    an empty tensor. *)
Definition scale_pairs (scales : scales_arg) : Py.result (list (Q * Q)) :=
  match scales with
  | Scalars [] => Py.raise Py.RuntimeError
  | Pairs [] => Py.raise Py.RuntimeError
  | Scalars l => Py.ret (map (fun s => (s, s)) l)
  | Pairs l => Py.ret l
  end.

(** [(sw * aspect_ratios).view(-1) / width] and
    [(sh / aspect_ratios).view(-1) / height]: the products are laid out
    scale by scale. *)
Definition anchor_shapes (width height : Z) (aspect_ratios : list Q)
  (sws : list (Q * Q)) : list (Q * Q) :=
  flat_map
    (fun s => map (fun ar => (fst s * ar / inject_Z width,
                              snd s / ar / inject_Z height))
                  aspect_ratios)
    sws.

Section WithLog2.

(** [int(np.log2(s))], a parameter as in [get_locations]. *)
Variable int_log2 : Z -> Py.result Z.

(** [generate_anchors(input_size, stride, aspect_ratios, scales)]: the
    tensor of shape [(lx, ly, num_anchors, 4)] as nested lists.  The
    aspect ratios are Python floats, as the defaults are, so that
    [torch.tensor] builds a float tensor and [new_tensor] keeps the scales
    as they are; with integer aspect ratios the scales would be truncated
    to integers, a case this model does not cover.  The float32 entries
    are read as the rationals they approximate, and a zero [width],
    [height] or aspect ratio gives [inf] or [nan] in the source and 0
    here: the theorems below are about the shape of the result and about
    bounds that rounding preserves, not about exact entries. *)
Definition generate_anchors (input_size : Z * Z) (stride : Z)
  (aspect_ratios : list Q) (scales : scales_arg)
  : Py.result (list (list (list qbox))) :=
  let '(width, height) := input_size in
  locations <- get_locations int_log2 input_size [stride] ;;
  match locations with
  | [] => Py.raise Py.IndexError
  | (lx, ly) :: _ =>
      sws <- scale_pairs scales ;;
      if ((lx <? 0) || (ly <? 0))%Z then Py.raise Py.RuntimeError
      else
        let shapes := anchor_shapes width height aspect_ratios sws in
        Py.ret
          (map (fun i =>
                  map (fun j =>
                         map (fun wh =>
                                QBox ((inject_Z i + (1 # 2)) / inject_Z lx)
                                     ((inject_Z j + (1 # 2)) / inject_Z ly)
                                     (fst wh) (snd wh))
                             shapes)
                      (range ly))
               (range lx))
  end.

Lemma get_locations_single (lx ly s n : Z) :
  int_log2 s = Py.ret n ->
  get_locations int_log2 (lx, ly) [s]
  = Py.ret [(Nat.iter (Z.to_nat n) halve lx, Nat.iter (Z.to_nat n) halve ly)].
Proof.
  intros Hlog.
  rewrite (LocationsFacts.get_locations_returns int_log2 lx ly [s] s n
             eq_refl Hlog).
  unfold slice_last. cbn [length]. rewrite halvings_length.
  replace (S (Z.to_nat n) - 1)%nat with (Z.to_nat n) by lia.
  unfold halvings. now rewrite LocationsFacts.skipn_all_but_last.
Qed.

Lemma In_range (n i : Z) : In i (range n) -> (0 <= i < n)%Z.
Proof.
  unfold range. intros H. apply in_map_iff in H.
  destruct H as (k & <- & Hk). apply in_seq in Hk. lia.
Qed.

Lemma range_length (n : Z) : length (range n) = Z.to_nat n.
Proof. unfold range. now rewrite length_map, length_seq. Qed.

Lemma centre_in_unit (i n : Z) :
  (0 <= i < n)%Z ->
  0 <= (inject_Z i + (1 # 2)) / inject_Z n /\
  (inject_Z i + (1 # 2)) / inject_Z n <= 1.
Proof.
  intros [H0 Hn].
  assert (Hi : 0 <= inject_Z i)
    by (change 0 with (inject_Z 0); rewrite <- Zle_Qle; exact H0).
  assert (Hle : inject_Z i + 1 <= inject_Z n).
  { change 1 with (inject_Z 1). rewrite <- inject_Z_plus, <- Zle_Qle. lia. }
  assert (Hpos : 0 < inject_Z n) by Lqa.lra.
  split.
  - apply Qle_shift_div_l; [exact Hpos | Lqa.lra].
  - apply Qle_shift_div_r; [exact Hpos | Lqa.lra].
Qed.

Lemma anchor_shapes_length (width height : Z) (aspect_ratios : list Q)
  (sws : list (Q * Q)) :
  length (anchor_shapes width height aspect_ratios sws)
  = (length sws * length aspect_ratios)%nat.
Proof.
  unfold anchor_shapes. induction sws as [|s t IH]; [reflexivity|].
  cbn [flat_map length]. rewrite length_app, length_map, IH. lia.
Qed.

Lemma generate_anchors_returns (width height stride n : Z)
  (aspect_ratios : list Q) (scales : scales_arg) (sws : list (Q * Q)) :
  (1 <= width)%Z -> (1 <= height)%Z ->
  int_log2 stride = Py.ret n ->
  scale_pairs scales = Py.ret sws ->
  exists lx ly,
    get_locations int_log2 (width, height) [stride] = Py.ret [(lx, ly)] /\
    (1 <= lx <= width)%Z /\ (1 <= ly <= height)%Z /\
    generate_anchors (width, height) stride aspect_ratios scales
    = Py.ret
        (map (fun i =>
                map (fun j =>
                       map (fun wh =>
                              QBox ((inject_Z i + (1 # 2)) / inject_Z lx)
                                   ((inject_Z j + (1 # 2)) / inject_Z ly)
                                   (fst wh) (snd wh))
                           (anchor_shapes width height aspect_ratios sws))
                    (range ly))
             (range lx)).
Proof.
  intros Hw Hh Hlog Hsws.
  set (k := Z.to_nat n).
  exists (Nat.iter k halve width), (Nat.iter k halve height).
  pose proof (LocationsFacts.iter_halve_bounds k width Hw) as Hx.
  pose proof (LocationsFacts.iter_halve_bounds k height Hh) as Hy.
  split; [apply get_locations_single; exact Hlog|].
  split; [exact Hx|]. split; [exact Hy|].
  unfold generate_anchors.
  rewrite (get_locations_single width height stride n Hlog).
  cbn [Py.bind Py.ret]. fold k. rewrite Hsws. cbn [Py.bind Py.ret].
  replace ((Nat.iter k halve width <? 0) || (Nat.iter k halve height <? 0))%Z
    with false
    by (symmetry; apply orb_false_iff; split; apply Z.ltb_ge; lia).
  reflexivity.
Qed.

(** X23: for a positive input size, a stride on which
    [int(np.log2(stride))] returns and a nonempty [scales],
    [generate_anchors] returns a grid of [lx] by [ly] cells, [(lx, ly)]
    being what [get_locations] gives for the stride and both at least 1,
    with [len(scales) * len(aspect_ratios)] anchors in every cell, and
    the centre coordinates of every anchor lie between 0 and 1. *)
Theorem generate_anchors_grid (width height stride n : Z)
  (aspect_ratios : list Q) (scales : scales_arg) (sws : list (Q * Q)) :
  (1 <= width)%Z -> (1 <= height)%Z ->
  int_log2 stride = Py.ret n ->
  scale_pairs scales = Py.ret sws ->
  exists anchors lx ly,
    get_locations int_log2 (width, height) [stride] = Py.ret [(lx, ly)] /\
    (1 <= lx)%Z /\ (1 <= ly)%Z /\
    generate_anchors (width, height) stride aspect_ratios scales
    = Py.ret anchors /\
    length anchors = Z.to_nat lx /\
    Forall
      (fun column =>
         length column = Z.to_nat ly /\
         Forall
           (fun cell =>
              length cell = (length sws * length aspect_ratios)%nat /\
              Forall (fun a => (0 <= c0 a /\ c0 a <= 1) /\
                               (0 <= c1 a /\ c1 a <= 1)) cell)
           column)
      anchors.
Proof.
  intros Hw Hh Hlog Hsws.
  destruct (generate_anchors_returns width height stride n aspect_ratios
              scales sws Hw Hh Hlog Hsws)
    as (lx & ly & Hloc & Hx & Hy & Hgen).
  eexists. exists lx, ly.
  split; [exact Hloc|]. split; [lia|]. split; [lia|].
  split; [exact Hgen|].
  split; [now rewrite length_map, range_length|].
  apply Forall_forall. intros column Hcol.
  apply in_map_iff in Hcol. destruct Hcol as (i & <- & Hi).
  split; [now rewrite length_map, range_length|].
  apply Forall_forall. intros cell Hcell.
  apply in_map_iff in Hcell. destruct Hcell as (j & <- & Hj).
  split; [now rewrite length_map, anchor_shapes_length|].
  apply Forall_forall. intros a Ha.
  apply in_map_iff in Ha. destruct Ha as (wh & <- & _).
  cbn [c0 c1]. split; apply centre_in_unit; apply In_range; assumption.
Qed.

(** X25: [generate_anchors] raises whatever [int(np.log2(stride))]
    raises, through [get_locations] and before it looks at the scales,
    and when that logarithm returns it raises [RuntimeError] on an empty
    [scales] (the view of an empty tensor). *)
Theorem generate_anchors_errors (input_size : Z * Z) (stride : Z)
  (aspect_ratios : list Q) :
  (forall e scales,
     int_log2 stride = Py.raise e ->
     generate_anchors input_size stride aspect_ratios scales
     = Py.raise e) /\
  (forall n,
     int_log2 stride = Py.ret n ->
     generate_anchors input_size stride aspect_ratios (Scalars [])
     = Py.raise Py.RuntimeError /\
     generate_anchors input_size stride aspect_ratios (Pairs [])
     = Py.raise Py.RuntimeError).
Proof.
  destruct input_size as [width height].
  split.
  - intros e scales Hlog. unfold generate_anchors, get_locations.
    change (last_item [stride]) with (Py.ret stride). cbn [Py.bind Py.ret].
    rewrite Hlog. reflexivity.
  - intros n Hlog. unfold generate_anchors.
    rewrite (get_locations_single width height stride n Hlog).
    split; reflexivity.
Qed.

End WithLog2.

Lemma generate_anchors_grid_witness :
  exists anchors lx ly,
    get_locations example_int_log2 (300, 200)%Z [16%Z] = Py.ret [(lx, ly)] /\
    (1 <= lx)%Z /\ (1 <= ly)%Z /\
    generate_anchors example_int_log2 (300, 200)%Z 16 [1 # 2; 1; 2]
      (Scalars [32; 64])
    = Py.ret anchors /\
    length anchors = Z.to_nat lx /\
    Forall
      (fun column =>
         length column = Z.to_nat ly /\
         Forall
           (fun cell =>
              length cell = (length [(32, 32); (64, 64)]%Q
                             * length [1 # 2; 1; 2]%Q)%nat /\
              Forall (fun a => (0 <= c0 a /\ c0 a <= 1) /\
                               (0 <= c1 a /\ c1 a <= 1)) cell)
           column)
      anchors.
Proof.
  apply (generate_anchors_grid example_int_log2 300 200 16 4 [1 # 2; 1; 2]
           (Scalars [32; 64]) [(32, 32); (64, 64)]).
  - lia.
  - lia.
  - reflexivity.
  - reflexivity.
Defined.

Example generate_anchors_shape_run :
  option_map (fun g => (length g, map (@length _) g))
    (match generate_anchors example_int_log2 (64, 48)%Z 16 [1 # 2; 1; 2]
             (Scalars [32; 64]) with
     | inr g => Some g
     | inl _ => None
     end)
  = Some (4%nat, [3; 3; 3; 3]%nat).
Proof. reflexivity. Qed.

End Anchors.

(** ** [inverse_sigmoid] *)

Module Sigmoid.
Local Open Scope R_scope.

(** [torch.clamp(x, lo, hi)]: [min(max(x, lo), hi)]. *)
Definition clamp (x lo hi : R) : R := Rmin (Rmax x lo) hi.

(** [inverse_sigmoid(x, eps)] on one entry. *)
Definition inverse_sigmoid (x eps : R) : R :=
  let x := clamp x eps (1 - eps) in
  ln (x / (1 - x)).

(** [torch.sigmoid], the logistic function. *)
Definition sigmoid (t : R) : R := 1 / (1 + exp (- t)).

Lemma clamp_in_unit (x eps : R) :
  0 < eps -> eps < 1 -> 0 < clamp x eps (1 - eps) < 1.
Proof.
  intros H0 H1. unfold clamp, Rmin, Rmax.
  destruct (Rle_dec x eps); destruct (Rle_dec _ (1 - eps)); lra.
Qed.

Lemma clamp_id (x eps : R) :
  eps <= x <= 1 - eps -> clamp x eps (1 - eps) = x.
Proof.
  intros [H0 H1]. unfold clamp, Rmin, Rmax.
  destruct (Rle_dec x eps); destruct (Rle_dec _ (1 - eps)); lra.
Qed.

Lemma sigmoid_logit (c : R) : 0 < c < 1 -> sigmoid (ln (c / (1 - c))) = c.
Proof.
  intros [H0 H1]. unfold sigmoid.
  assert (Hpos : 0 < c / (1 - c)) by (apply Rdiv_lt_0_compat; lra).
  rewrite exp_Ropp, exp_ln by exact Hpos.
  field. lra.
Qed.

(** X26: for [0 < eps < 1], the logistic function applied to
    [inverse_sigmoid(x, eps)] gives [x] clamped to [[eps, 1 - eps]]; on
    that interval [inverse_sigmoid] is a right inverse of the logistic
    function. *)
Theorem sigmoid_inverse_sigmoid (x eps : R) :
  0 < eps -> eps < 1 ->
  sigmoid (inverse_sigmoid x eps) = clamp x eps (1 - eps) /\
  (eps <= x <= 1 - eps -> sigmoid (inverse_sigmoid x eps) = x).
Proof.
  intros H0 H1.
  assert (E : sigmoid (inverse_sigmoid x eps) = clamp x eps (1 - eps)).
  { unfold inverse_sigmoid. cbv zeta. apply sigmoid_logit.
    apply clamp_in_unit; assumption. }
  split; [exact E|].
  intros Hx. rewrite E. apply clamp_id. exact Hx.
Qed.

Lemma sigmoid_inverse_sigmoid_witness :
  sigmoid (inverse_sigmoid (1 / 4) (1 / 1000))
  = clamp (1 / 4) (1 / 1000) (1 - 1 / 1000) /\
  (1 / 1000 <= 1 / 4 <= 1 - 1 / 1000 ->
   sigmoid (inverse_sigmoid (1 / 4) (1 / 1000)) = 1 / 4).
Proof.
  apply (sigmoid_inverse_sigmoid (1 / 4) (1 / 1000)); lra.
Defined.

End Sigmoid.
